(** * coro-cpp: lazy tasks, generators and their iterators

    A shallow embedding of the coroutine types of the library
    (task.h, generator.h, async_generator.h, sync_generator_adapter.h,
    eager_task.h, detail.h, exceptions.h).

    A coroutine frame lives in a heap indexed by its address; a
    [std::coroutine_handle] is an optional address ([None] is [nullptr]).
    The body of a coroutine, which the compiler turns into a state machine,
    is a function from the current position of the body (with its locals) to
    the effects performed until the next suspension point together with the
    way the body suspends there. *)

From Stdlib Require Import ZArith Lia.
From stdpp Require Import base option list gmap.

(** ** exceptions.h *)

Inductive exn : Type :=
| bad_result_access
| bad_task
| user_exception (code : nat).

#[global] Instance exn_eq_dec : EqDecision exn.
Proof. solve_decision. Defined.

(** ** Results of a call

    [Ok] is a normal return, [Throw] an exception that leaves the call,
    [Terminate] is [std::terminate], [Undefined] is undefined behaviour
    (a destroyed or finished frame is resumed, a null pointer is read). *)

Inductive outcome (A : Type) : Type :=
| Ok (a : A)
| Throw (e : exn)
| Terminate
| Undefined.

Arguments Ok {A} a.
Arguments Throw {A} e.
Arguments Terminate {A}.
Arguments Undefined {A}.

(** Code that reads and writes a state [W] and may fail. *)

Definition cmd (W A : Type) : Type := W -> outcome A * W.

Definition ret {W A} (a : A) : cmd W A := fun w => (Ok a, w).

Definition throw {W A} (e : exn) : cmd W A := fun w => (Throw e, w).

Definition undefined {W A} : cmd W A := fun w => (Undefined, w).

Definition bind {W A A'} (m : cmd W A) (k : A -> cmd W A') : cmd W A' :=
  fun w =>
    match m w with
    | (Ok a, w') => k a w'
    | (Throw e, w') => (Throw e, w')
    | (Terminate, w') => (Terminate, w')
    | (Undefined, w') => (Undefined, w')
    end.

Notation "x <- m ;; k" := (bind m (fun x => k))
  (at level 100, m at next level, right associativity).
Notation "m ;;; k" := (bind m (fun _ => k))
  (at level 100, right associativity).

(** [std::suspend_always] and [std::suspend_never]. *)

Inductive std_suspend : Type := suspend_always | suspend_never.

(** How a generator body stops after it was resumed: at a [co_yield], by
    returning, or by an exception that nothing in the body caught. *)

Inductive suspension (B T : Type) : Type :=
| co_yield (v : T) (k : B)
| co_return
| co_throw (e : exn).

Arguments co_yield {B T} v k.
Arguments co_return {B T}.
Arguments co_throw {B T} e.

(** How the body of an asynchronous generator stops after it was resumed.
    Such a body may [co_await]: it stops as a generator body does, or at a
    [co_await] inside the body whose awaitable is not ready and does not
    resume the body before it returns. The body then goes on at [k] when
    it is resumed, and control goes back to the one who resumed. *)

Inductive production (B T : Type) : Type :=
| produced (s : suspension B T)
| stalled (k : B).

Arguments produced {B T} s.
Arguments stalled {B T} k.

(** A body none of whose [co_await]s stalls: what it awaits is ready or
    completes before the [co_await] returns, so that each resumption is a
    production step. *)
Definition steady {B T E : Type} (run : B -> list E * suspension B T)
  : B -> list E * production B T :=
  fun b => (fst (run b), produced (snd (run b))).

(** ** Coroutine frames and handles *)

Module coro.
Section frames.
Variables P B E : Type.

(** A frame holds the promise object, the position of the body and whether
    the coroutine is suspended at its final suspend point. *)
Record frame : Type := Frame {
  promise : P;
  body : B;
  at_final_suspend : bool
}.

(** The heap of frames, the next free address and the effects that bodies
    have performed so far. *)
Record world : Type := World {
  heap : gmap nat frame;
  next : nat;
  log : list E
}.

Definition empty : world := World ∅ 0 [].

Definition alloc (f : frame) : cmd world nat :=
  fun w => (Ok (next w), World (<[next w := f]> (heap w)) (S (next w)) (log w)).

(** [h.done()] for a non-null handle. A destroyed frame has no defined
    answer; the model answers [false], so that code that goes on to use the
    handle reaches [Undefined]. *)
Definition done (w : world) (a : nat) : bool :=
  match heap w !! a with
  | Some f => at_final_suspend f
  | None => false
  end.

(** [h.destroy()] *)
Definition destroy (a : nat) : cmd world unit :=
  fun w =>
    match heap w !! a with
    | Some _ => (Ok tt, World (delete a (heap w)) (next w) (log w))
    | None => (Undefined, w)
    end.

(** [h.promise()] *)
Definition get_promise (a : nat) : cmd world P :=
  fun w =>
    match heap w !! a with
    | Some f => (Ok (promise f), w)
    | None => (Undefined, w)
    end.

Definition set_promise (a : nat) (p : P) : cmd world unit :=
  fun w =>
    match heap w !! a with
    | Some f =>
        (Ok tt, World (<[a := Frame p (body f) (at_final_suspend f)]> (heap w))
                      (next w) (log w))
    | None => (Undefined, w)
    end.

End frames.

Arguments Frame {P B} promise body at_final_suspend.
Arguments promise {P B} f.
Arguments body {P B} f.
Arguments at_final_suspend {P B} f.
Arguments World {P B E} heap next log.
Arguments heap {P B E} w.
Arguments next {P B E} w.
Arguments log {P B E} w.
Arguments empty {P B E}.
Arguments alloc {P B E} f w.
Arguments done {P B E} w a.
Arguments destroy {P B E} a w.
Arguments get_promise {P B E} a w.
Arguments set_promise {P B E} a p w.
End coro.

(** ** detail.h *)

Module detail.
Section detail.
Context {P B E : Type}.

(** [operator bool] of a handle *)
Definition non_null (h : option nat) : bool :=
  match h with Some _ => true | None => false end.

Definition handle_done (w : coro.world P B E) (h : option nat) : bool :=
  match h with Some a => coro.done w a | None => false end.

(** [return h && !h.done();] *)
Definition is_good_handle (w : coro.world P B E) (h : option nat) : bool :=
  non_null h && negb (handle_done w h).

(** [return !h || h.done();] *)
Definition is_ready (w : coro.world P B E) (h : option nat) : bool :=
  negb (non_null h) || handle_done w h.

(** [if (!h) throw bad_task(...)] *)
Definition check_coroutine (h : option nat) : cmd (coro.world P B E) unit :=
  if non_null h then ret tt else throw bad_task.

End detail.
End detail.

(** ** generator.h *)

Module Generator.
Section generator.
Variables T B E : Type.

(** The body of the generator coroutine. [co_await] is deleted in a
    generator ([await_transform() = delete]), so a resumed body runs to the
    next [co_yield], to its end, or to an uncaught exception. *)
Variable run : B -> list E * suspension B T.

(** [promise_type]: [m_value] points at the yielded value ([None] is
    [nullptr]); the pointee is kept with the pointer. *)
Record promise_type : Type := Promise {
  m_value : option T;
  m_exception : option exn
}.

Definition promise_init : promise_type := Promise None None.

Definition initial_suspend : std_suspend := suspend_always.

Definition final_suspend : std_suspend := suspend_always.

Definition yield_value (v : T) (p : promise_type) : promise_type * std_suspend :=
  (Promise (Some v) (m_exception p), suspend_always).

Definition unhandled_exception (e : exn) (p : promise_type) : promise_type :=
  Promise (m_value p) (Some e).

Definition return_void (p : promise_type) : promise_type := p.

(** [return *this->m_value;] *)
Definition value (p : promise_type) : outcome T :=
  match m_value p with
  | Some v => Ok v
  | None => Undefined
  end.

(** [if (m_exception) std::rethrow_exception(std::move(m_exception));]
    the moved-from [exception_ptr] is left null. *)
Definition rethrow_if_exception (p : promise_type) : outcome unit * promise_type :=
  match m_exception p with
  | Some e => (Throw e, Promise (m_value p) None)
  | None => (Ok tt, p)
  end.

(** [h.resume()] on a generator frame: the body runs to its next suspension
    point; at a [co_yield] the promise records the value, at the end or at
    an uncaught exception the coroutine stops at its final suspend point. *)
Definition resume (a : nat) : cmd (coro.world promise_type B E) unit :=
  fun w =>
    match coro.heap w !! a with
    | None => (Undefined, w)
    | Some f =>
        if coro.at_final_suspend f then (Undefined, w)
        else
          let '(evs, s) := run (coro.body f) in
          let f' :=
            match s with
            | co_yield v k => coro.Frame (fst (yield_value v (coro.promise f))) k false
            | co_return => coro.Frame (return_void (coro.promise f)) (coro.body f) true
            | co_throw e =>
                coro.Frame (unhandled_exception e (coro.promise f)) (coro.body f) true
            end in
          (Ok tt, coro.World (<[a := f']> (coro.heap w)) (coro.next w) (coro.log w ++ evs))
    end.

(** [h.promise().rethrow_if_exception()] *)
Definition promise_rethrow (a : nat) : cmd (coro.world promise_type B E) unit :=
  p <- coro.get_promise a ;;
  coro.set_promise a (snd (rethrow_if_exception p)) ;;;
  (fun w => (fst (rethrow_if_exception p), w)).

Record generator : Type := Gen { m_coroutine : option nat }.

Record iterator : Type := Iter { it_coroutine : option nat }.

(** Calling a generator function: the frame is allocated with the body at
    its first statement, the return object is made from the promise, and
    the coroutine awaits [initial_suspend()]. *)
Definition create (b : B) : cmd (coro.world promise_type B E) generator :=
  a <- coro.alloc (coro.Frame promise_init b false) ;;
  match initial_suspend with
  | suspend_always => ret (Gen (Some a))
  | suspend_never => resume a ;;; ret (Gen (Some a))
  end.

(** [generator()]: the empty generator *)
Definition default : generator := Gen None.

(** [void advance() const] *)
Definition advance (g : generator) : cmd (coro.world promise_type B E) unit :=
  fun w =>
    if detail.is_good_handle w (m_coroutine g) then
      match m_coroutine g with
      | Some a =>
          (resume a ;;;
           fun w' => if coro.done w' a then promise_rethrow a w' else (Ok tt, w')) w
      | None => (Undefined, w)
      end
    else (Ok tt, w).

(** [iterator begin()] *)
Definition begin (g : generator) : cmd (coro.world promise_type B E) iterator :=
  advance g ;;; ret (Iter (m_coroutine g)).

(** [iterator end() const noexcept] *)
Definition end_ (g : generator) : iterator := Iter None.

(** [bool iterator::operator==(const iterator&) const noexcept] *)
Definition iterator_eq (w : coro.world promise_type B E) (i j : iterator) : bool :=
  bool_decide (it_coroutine i = it_coroutine j)
  || (negb (detail.is_good_handle w (it_coroutine i))
      && negb (detail.is_good_handle w (it_coroutine j))).

(** [iterator& iterator::operator++()] *)
Definition iterator_incr (i : iterator) : cmd (coro.world promise_type B E) iterator :=
  fun w =>
    if detail.is_good_handle w (it_coroutine i) then
      match it_coroutine i with
      | Some a =>
          (resume a ;;;
           (fun w' => if coro.done w' a then promise_rethrow a w' else (Ok tt, w')) ;;;
           ret i) w
      | None => (Undefined, w)
      end
    else (Throw bad_result_access, w).

(** [reference iterator::operator*() const] *)
Definition iterator_deref (i : iterator) : cmd (coro.world promise_type B E) T :=
  fun w =>
    if detail.is_good_handle w (it_coroutine i) then
      match it_coroutine i with
      | Some a => (p <- coro.get_promise a ;; fun w' => (value p, w')) w
      | None => (Undefined, w)
      end
    else (Throw bad_result_access, w).

(** The state that the operations keep: a coroutine that has not finished
    has no exception stored in its promise. *)
Definition settled (w : coro.world promise_type B E) : Prop :=
  forall a f,
    coro.heap w !! a = Some f ->
    coro.at_final_suspend f = false ->
    m_exception (coro.promise f) = None.

(** What one call that resumes a live generator frame returns and leaves
    behind: the body moves on from its current position by one run. *)
Definition one_step (a : nat) (f : coro.frame promise_type B)
    (w : coro.world promise_type B E)
  : outcome unit * coro.world promise_type B E :=
  match snd (run (coro.body f)) with
  | co_yield v k =>
      (Ok tt,
       coro.World
         (<[a := coro.Frame (Promise (Some v) None) k false]> (coro.heap w))
         (coro.next w) (coro.log w ++ fst (run (coro.body f))))
  | co_return =>
      (Ok tt,
       coro.World
         (<[a := coro.Frame (coro.promise f) (coro.body f) true]> (coro.heap w))
         (coro.next w) (coro.log w ++ fst (run (coro.body f))))
  | co_throw e =>
      (Throw e,
       coro.World
         (<[a := coro.Frame (Promise (m_value (coro.promise f)) None)
                   (coro.body f) true]> (coro.heap w))
         (coro.next w) (coro.log w ++ fst (run (coro.body f))))
  end.

(** Generator objects live at addresses: the move operations compare
    [this] with [std::addressof(other)]. [objs] maps the address of a
    generator object to the object. *)

(** [generator(generator&& other)]: [this] is the address of the new
    object; [m_coroutine(std::exchange(other.m_coroutine, {}))] *)
Definition move_construct (this other : nat) (objs : gmap nat generator)
  : cmd (coro.world promise_type B E) (gmap nat generator) :=
  match objs !! other with
  | Some o => ret (<[this := Gen (m_coroutine o)]> (<[other := Gen None]> objs))
  | None => undefined
  end.

(** [generator& operator=(generator&& other) noexcept] *)
Definition move_assign (this other : nat) (objs : gmap nat generator)
  : cmd (coro.world promise_type B E) (gmap nat generator) :=
  match objs !! this, objs !! other with
  | Some g, Some o =>
      if bool_decide (this ≠ other) then
        match m_coroutine g with
        | Some a => coro.destroy a
        | None => ret tt
        end ;;;
        ret (<[this := Gen (m_coroutine o)]> (<[other := Gen None]> objs))
      else ret objs
  | _, _ => undefined
  end.

(** [~generator()] *)
Definition destructor (this : nat) (objs : gmap nat generator)
  : cmd (coro.world promise_type B E) (gmap nat generator) :=
  match objs !! this with
  | Some g =>
      match m_coroutine g with
      | Some a => coro.destroy a
      | None => ret tt
      end ;;;
      ret (delete this objs)
  | None => undefined
  end.

(** A range-based [for] over the generator, which collects the elements:
    [for (it = g.begin(); it != g.end(); ++it) acc.push_back( *it );]
    The loop need not end (a body may yield for ever), so it takes fuel;
    [None] tells that the fuel ran out. *)
Fixpoint iterate (fuel : nat) (g : generator) (it : iterator) (acc : list T)
  : cmd (coro.world promise_type B E) (option (list T)) :=
  match fuel with
  | 0 => ret None
  | S n =>
      fun w =>
        if iterator_eq w it (end_ g) then (Ok (Some acc), w)
        else (v <- iterator_deref it ;;
              it' <- iterator_incr it ;;
              iterate n g it' (acc ++ [v])) w
  end.

Definition collect (fuel : nat) (g : generator)
  : cmd (coro.world promise_type B E) (option (list T)) :=
  it <- begin g ;; iterate fuel g it [].

(** [std::accumulate(g.begin(), g.end(), init)]:
    [for (; first != last; ++first) init = std::move(init) + *first; return init;]
    with [op] for the addition in the type of [init]. *)
Fixpoint accumulate_from {A : Type} (op : A -> T -> A) (fuel : nat) (g : generator)
    (first : iterator) (init : A)
  : cmd (coro.world promise_type B E) (option A) :=
  match fuel with
  | 0 => ret None
  | S n =>
      fun w =>
        if iterator_eq w first (end_ g) then (Ok (Some init), w)
        else (v <- iterator_deref first ;;
              first' <- iterator_incr first ;;
              accumulate_from op n g first' (op init v)) w
  end.

Definition accumulate {A : Type} (op : A -> T -> A) (fuel : nat) (g : generator)
    (init : A)
  : cmd (coro.world promise_type B E) (option A) :=
  first <- begin g ;; accumulate_from op fuel g first init.

(** The loop of test GeneratorTest.AdvanceWithBegin and of
    examples/advance_with_begin.cpp:
    [it = g.begin(); while (it != g.end()) { seen( *it ); ++idx; it = g.begin(); }]
    It returns the values seen and [idx], the number of calls of [begin()]
    made where a loop would increment the iterator. *)
Fixpoint begin_loop (fuel : nat) (g : generator) (it : iterator)
    (seen : list T) (idx : nat)
  : cmd (coro.world promise_type B E) (option (list T * nat)) :=
  match fuel with
  | 0 => ret None
  | S n =>
      fun w =>
        if iterator_eq w it (end_ g) then (Ok (Some (seen, idx)), w)
        else (v <- iterator_deref it ;;
              it' <- begin g ;;
              begin_loop n g it' (seen ++ [v]) (S idx)) w
  end.

Definition advance_with_begin (fuel : nat) (g : generator)
  : cmd (coro.world promise_type B E) (option (list T * nat)) :=
  it <- begin g ;; begin_loop fuel g it [] 0.

(** [it = g.begin()] and what the caller sees of the iterator right away:
    [None] when [it == g.end()], the value [*it] otherwise. *)
Definition begin_observe (g : generator)
  : cmd (coro.world promise_type B E) (option T) :=
  it <- begin g ;;
  fun w =>
    if iterator_eq w it (end_ g) then (Ok None, w)
    else (v <- iterator_deref it ;; ret (Some v)) w.

(** [k] calls of [begin()] in a row, each observed. *)
Fixpoint begin_times (k : nat) (g : generator)
  : cmd (coro.world promise_type B E) (list (option T)) :=
  match k with
  | 0 => ret []
  | S n => o <- begin_observe g ;; os <- begin_times n g ;; ret (o :: os)
  end.

End generator.

Arguments Promise {T} m_value m_exception.
Arguments m_value {T} p.
Arguments m_exception {T} p.
Arguments promise_init {T}.
Arguments resume {T B E} run a w.
Arguments promise_rethrow {T B E} a w.
Arguments create {T B E} run b w.
Arguments advance {T B E} run g w.
Arguments begin {T B E} run g w.
Arguments iterator_eq {T B E} w i j.
Arguments iterator_incr {T B E} run i w.
Arguments iterator_deref {T B E} i w.
Arguments move_construct {T B E} this other objs w.
Arguments move_assign {T B E} this other objs w.
Arguments destructor {T B E} this objs w.
Arguments iterate {T B E} run fuel g it acc w.
Arguments collect {T B E} run fuel g w.
Arguments accumulate_from {T B E} run {A} op fuel g first init w.
Arguments accumulate {T B E} run {A} op fuel g init w.
Arguments begin_loop {T B E} run fuel g it seen idx w.
Arguments advance_with_begin {T B E} run fuel g w.
Arguments begin_observe {T B E} run g w.
Arguments begin_times {T B E} run k g w.
Arguments one_step {T B E} run a f w.
Arguments settled {T B E} w.
End Generator.

(** ** async_generator.h *)

Module AsyncGenerator.
Section async_generator.
Variables T B E : Type.

(** What the body does when it is resumed: it runs to the next [co_yield],
    to its end or to an uncaught exception, or it stops on the way at a
    [co_await] that does not complete. *)
Variable run : B -> list E * production B T.

Record promise_type : Type := Promise {
  m_current_value : option T;
  m_consumer : option nat;
  m_exception : option exn
}.

Definition promise_init : promise_type := Promise None None None.

(** [yield_op]: the awaiter of a [co_yield] and of the final suspend point;
    it is never ready and its [await_suspend] names the consumer as the
    coroutine to run next. *)
Record yield_op : Type := YieldOp { yield_consumer : option nat }.

Definition yield_op_await_ready (op : yield_op) : bool := false.

Definition yield_op_await_suspend (op : yield_op) : option nat := yield_consumer op.

Definition initial_suspend : std_suspend := suspend_always.

Definition final_suspend (p : promise_type) : promise_type * yield_op :=
  (Promise None (m_consumer p) (m_exception p), YieldOp (m_consumer p)).

Definition unhandled_exception (e : exn) (p : promise_type) : promise_type :=
  Promise (m_current_value p) (m_consumer p) (Some e).

Definition return_void (p : promise_type) : promise_type := p.

Definition yield_value (v : T) (p : promise_type) : promise_type * yield_op :=
  (Promise (Some v) (m_consumer p) (m_exception p), YieldOp (m_consumer p)).

Definition value (p : promise_type) : outcome T :=
  match m_current_value p with
  | Some v => Ok v
  | None => Undefined
  end.

(** [return this->m_current_value == nullptr;] *)
Definition finished (p : promise_type) : bool :=
  match m_current_value p with
  | Some _ => false
  | None => true
  end.

Definition rethrow_if_unhandled_exception (p : promise_type)
  : outcome unit * promise_type :=
  match m_exception p with
  | Some e => (Throw e, Promise (m_current_value p) (m_consumer p) None)
  | None => (Ok tt, p)
  end.

Definition set_consumer (consumer : option nat) (p : promise_type) : promise_type :=
  Promise (m_current_value p) consumer (m_exception p).

(** [h.resume()] on the frame of the producer. The result is the handle
    that the awaiter at the suspension point names: control goes there.
    When the body stops at a [co_await] of its own that does not complete,
    the promise is not touched and no handle is named ([None]): control
    goes back to the one who resumed. *)
Definition resume (a : nat) : cmd (coro.world promise_type B E) (option nat) :=
  fun w =>
    match coro.heap w !! a with
    | None => (Undefined, w)
    | Some f =>
        if coro.at_final_suspend f then (Undefined, w)
        else
          let '(evs, s) := run (coro.body f) in
          let '(f', nxt) :=
            match s with
            | produced (co_yield v k) =>
                let '(p, op) := yield_value v (coro.promise f) in
                (coro.Frame p k false, yield_op_await_suspend op)
            | produced co_return =>
                let '(p, op) := final_suspend (return_void (coro.promise f)) in
                (coro.Frame p (coro.body f) true, yield_op_await_suspend op)
            | produced (co_throw e) =>
                let '(p, op) := final_suspend (unhandled_exception e (coro.promise f)) in
                (coro.Frame p (coro.body f) true, yield_op_await_suspend op)
            | stalled k => (coro.Frame (coro.promise f) k false, None)
            end in
          (Ok nxt,
           coro.World (<[a := f']> (coro.heap w)) (coro.next w) (coro.log w ++ evs))
    end.

Record iterator : Type := Iter { it_coroutine : option nat }.

(** A [promise_type*]: the null pointer, the address of the promise in the
    frame at [a], or what [std::addressof(h.promise())] gives for a null
    handle [h]: a pointer that is not null and is not the address of a
    promise. *)
Inductive promise_ptr : Type :=
| null_promise
| promise_at (a : nat)
| promise_of_null.

(** [std::addressof(producer.promise())] *)
Definition addressof_promise (producer : option nat) : promise_ptr :=
  match producer with
  | Some a => promise_at a
  | None => promise_of_null
  end.

(** [iterator::advance_op]: a pointer to the promise of the producer and
    the handle of the producer. *)
Record advance_op : Type := AdvanceOp {
  m_promise : promise_ptr;
  m_producer : option nat
}.

(** [advance_op()] *)
Definition advance_op_default : advance_op := AdvanceOp null_promise None.

(** [advance_op(producer)]. [async_generator::begin()] calls it with a good
    handle; the default constructor of the iterator of the adapter calls
    it with the null handle. *)
Definition advance_op_of (producer : option nat) : advance_op :=
  AdvanceOp (addressof_promise producer) producer.

(** [return this->m_promise == nullptr;] *)
Definition await_ready (op : advance_op) : bool :=
  match m_promise op with
  | null_promise => true
  | _ => false
  end.

(** [this->m_promise->set_consumer(consumer); return this->m_producer;] *)
Definition await_suspend (consumer : option nat) (op : advance_op)
  : cmd (coro.world promise_type B E) (option nat) :=
  match m_promise op with
  | promise_at a =>
      p <- coro.get_promise a ;;
      coro.set_promise a (set_consumer consumer p) ;;;
      ret (m_producer op)
  | _ => undefined
  end.

Definition await_resume (op : advance_op) : cmd (coro.world promise_type B E) iterator :=
  match m_promise op with
  | null_promise => ret (Iter None)
  | promise_at a =>
      p <- coro.get_promise a ;;
      if finished p then
        coro.set_promise a (snd (rethrow_if_unhandled_exception p)) ;;;
        (fun w => (fst (rethrow_if_unhandled_exception p), w)) ;;;
        ret (Iter None)
      else ret (Iter (Some a))
  | promise_of_null => undefined
  end.

(** [co_await op] in the coroutine whose frame is at [c]. A ready operation
    gives its result at once. Otherwise the consumer suspends,
    [await_suspend] passes control to the producer, and the operation gives
    its result when the producer passes control back to [c]. The result is
    [None] when the producer stops at a [co_await] of its own instead:
    control is back with the one who resumed [c], and [c] stays suspended
    in the [co_await]. *)
Definition co_await (c : nat) (op : advance_op)
  : cmd (coro.world promise_type B E) (option iterator) :=
  if await_ready op then it <- await_resume op ;; ret (Some it)
  else
    target <- await_suspend (Some c) op ;;
    match target with
    | Some a =>
        back <- resume a ;;
        match back with
        | Some c' =>
            if bool_decide (c' = c) then it <- await_resume op ;; ret (Some it)
            else undefined
        | None => ret None
        end
    | None => undefined
    end.

Record async_generator : Type := Gen { m_coroutine : option nat }.

Definition create (b : B) : cmd (coro.world promise_type B E) async_generator :=
  a <- coro.alloc (coro.Frame promise_init b false) ;;
  match initial_suspend with
  | suspend_always => ret (Gen (Some a))
  | suspend_never => resume a ;;; ret (Gen (Some a))
  end.

Definition default : async_generator := Gen None.

(** [~async_generator()] *)
Definition destructor (g : async_generator) : cmd (coro.world promise_type B E) unit :=
  match m_coroutine g with
  | Some a => coro.destroy a
  | None => ret tt
  end.

(** [auto begin() noexcept] *)
Definition begin (w : coro.world promise_type B E) (g : async_generator) : advance_op :=
  if negb (detail.is_good_handle w (m_coroutine g)) then advance_op_default
  else advance_op_of (m_coroutine g).

(** [co_await g.begin()] in the coroutine whose frame is at [c]. *)
Definition await_begin (c : nat) (g : async_generator)
  : cmd (coro.world promise_type B E) (option iterator) :=
  fun w => co_await c (begin w g) w.

(** [operator==(const iterator&, std::default_sentinel_t)]; [end()] returns
    the sentinel. *)
Definition iterator_is_end (w : coro.world promise_type B E) (i : iterator) : bool :=
  negb (detail.is_good_handle w (it_coroutine i)).

Definition iterator_eq (w : coro.world promise_type B E) (i j : iterator) : bool :=
  bool_decide (it_coroutine i = it_coroutine j)
  || (negb (detail.is_good_handle w (it_coroutine i))
      && negb (detail.is_good_handle w (it_coroutine j))).

(** [advance_op iterator::operator++()] *)
Definition iterator_incr (i : iterator) : cmd (coro.world promise_type B E) advance_op :=
  fun w =>
    if detail.is_good_handle w (it_coroutine i)
    then (Ok (advance_op_of (it_coroutine i)), w)
    else (Throw bad_result_access, w).

Definition iterator_deref (i : iterator) : cmd (coro.world promise_type B E) T :=
  fun w =>
    if detail.is_good_handle w (it_coroutine i) then
      match it_coroutine i with
      | Some a => (p <- coro.get_promise a ;; fun w' => (value p, w')) w
      | None => (Undefined, w)
      end
    else (Throw bad_result_access, w).

(** The state that the operations keep: a coroutine that has not finished
    has no exception stored in its promise. *)
Definition settled (w : coro.world promise_type B E) : Prop :=
  forall a f,
    coro.heap w !! a = Some f ->
    coro.at_final_suspend f = false ->
    m_exception (coro.promise f) = None.

(** What [co_await] of an advance operation on a live producer frame
    returns to the consumer at [c] and leaves behind: the body of the
    producer moves on from its current position by one production step,
    or stops on the way with the consumer recorded and suspended. *)
Definition one_step (c a : nat) (f : coro.frame promise_type B)
    (w : coro.world promise_type B E)
  : outcome (option iterator) * coro.world promise_type B E :=
  match snd (run (coro.body f)) with
  | produced (co_yield v k) =>
      (Ok (Some (Iter (Some a))),
       coro.World
         (<[a := coro.Frame (Promise (Some v) (Some c) None) k false]> (coro.heap w))
         (coro.next w) (coro.log w ++ fst (run (coro.body f))))
  | produced co_return =>
      (Ok (Some (Iter None)),
       coro.World
         (<[a := coro.Frame (Promise None (Some c) None) (coro.body f) true]> (coro.heap w))
         (coro.next w) (coro.log w ++ fst (run (coro.body f))))
  | produced (co_throw e) =>
      (Throw e,
       coro.World
         (<[a := coro.Frame (Promise None (Some c) None) (coro.body f) true]> (coro.heap w))
         (coro.next w) (coro.log w ++ fst (run (coro.body f))))
  | stalled k =>
      (Ok None,
       coro.World
         (<[a := coro.Frame
                   (Promise (m_current_value (coro.promise f)) (Some c) None) k false]>
            (coro.heap w))
         (coro.next w) (coro.log w ++ fst (run (coro.body f))))
  end.

(** Asynchronous generator objects live at addresses, as generator objects
    do. *)

(** [async_generator(async_generator&& other) noexcept] *)
Definition move_construct (this other : nat) (objs : gmap nat async_generator)
  : cmd (coro.world promise_type B E) (gmap nat async_generator) :=
  match objs !! other with
  | Some o => ret (<[this := Gen (m_coroutine o)]> (<[other := Gen None]> objs))
  | None => undefined
  end.

(** [async_generator& operator=(async_generator&& other) noexcept] *)
Definition move_assign (this other : nat) (objs : gmap nat async_generator)
  : cmd (coro.world promise_type B E) (gmap nat async_generator) :=
  match objs !! this, objs !! other with
  | Some g, Some o =>
      if bool_decide (this ≠ other) then
        match m_coroutine g with
        | Some a => coro.destroy a
        | None => ret tt
        end ;;;
        ret (<[this := Gen (m_coroutine o)]> (<[other := Gen None]> objs))
      else ret objs
  | _, _ => undefined
  end.

(** The loop of examples/async_generator.cpp and of test
    AsyncGeneratorTest.MultipleValues, in the coroutine whose frame is at
    [c], which collects the elements:
    [it = co_await g.begin();
     while (it != g.end()) { acc.push_back( *it ); co_await ++it; }]
    The iterator that [co_await ++it] gives is dropped, [it] keeps its
    handle. The result is the list collected when the loop has ended, and
    [None] when it has not: the fuel ran out, or the coroutine is left
    suspended in a [co_await] by a producer that stopped on the way. *)
Fixpoint iterate (fuel : nat) (c : nat) (it : iterator) (acc : list T)
  : cmd (coro.world promise_type B E) (option (list T)) :=
  match fuel with
  | 0 => ret None
  | S n =>
      fun w =>
        if iterator_is_end w it then (Ok (Some acc), w)
        else (v <- iterator_deref it ;;
              op <- iterator_incr it ;;
              r <- co_await c op ;;
              match r with
              | Some _ => iterate n c it (acc ++ [v])
              | None => ret None
              end) w
  end.

Definition collect (fuel : nat) (c : nat) (g : async_generator)
  : cmd (coro.world promise_type B E) (option (list T)) :=
  r <- await_begin c g ;;
  match r with
  | Some it => iterate fuel c it []
  | None => ret None
  end.

End async_generator.

Arguments Promise {T} m_current_value m_consumer m_exception.
Arguments m_current_value {T} p.
Arguments m_consumer {T} p.
Arguments m_exception {T} p.
Arguments promise_init {T}.
Arguments resume {T B E} run a w.
Arguments await_suspend {T B E} consumer op w.
Arguments await_resume {T B E} op w.
Arguments co_await {T B E} run c op w.
Arguments create {T B E} run b w.
Arguments destructor {T B E} g w.
Arguments begin {T B E} w g.
Arguments await_begin {T B E} run c g w.
Arguments iterator_is_end {T B E} w i.
Arguments iterator_eq {T B E} w i j.
Arguments iterator_incr {T B E} i w.
Arguments iterator_deref {T B E} i w.
Arguments one_step {T B E} run c a f w.
Arguments settled {T B E} w.
Arguments move_construct {T B E} this other objs w.
Arguments move_assign {T B E} this other objs w.
Arguments iterate {T B E} run fuel c it acc w.
Arguments collect {T B E} run fuel c g w.
End AsyncGenerator.

(** ** eager_task.h *)

Module EagerTask.

Definition initial_suspend : std_suspend := suspend_never.

Definition final_suspend : std_suspend := suspend_never.

(** A coroutine that returns [eager_task], called. Its frame takes the next
    address; as [initial_suspend()] never suspends the body runs at once; an
    exception that leaves the body reaches [unhandled_exception()], which
    calls [std::terminate()]; as [final_suspend()] never suspends the frame
    is released when the body ends. The body is given the address of its
    frame, and what it stores through the pointers passed to it is its
    result here. *)
Definition call {P B E A : Type} (body : nat -> cmd (coro.world P B E) A)
  : cmd (coro.world P B E) A :=
  fun w =>
    let c := coro.next w in
    match body c (coro.World (coro.heap w) (S c) (coro.log w)) with
    | (Throw e, w') => (Terminate, w')
    | r => r
    end.

End EagerTask.

(** ** sync_generator_adapter.h *)

Module SyncGeneratorAdapter.
Section sync_generator_adapter.
Variables T B E : Type.
Variable run : B -> list E * production B T.

Record iterator : Type := Iter {
  m_op : AsyncGenerator.advance_op;
  m_it : AsyncGenerator.iterator
}.

(** [iterator() noexcept : m_op(nullptr) {}]; [m_it{nullptr}]. [m_op] is
    [advance_op(producer)] for the null handle. *)
Definition iterator_default : iterator :=
  Iter (AsyncGenerator.advance_op_of None) (AsyncGenerator.Iter None).

(** [[](iterator* self) -> eager_task { self->m_it = co_await self->m_op; }(this);
     return *this;]
    When the [co_await] does not get its result, because the producer
    stopped at a [co_await] of its own, the eager coroutine stays
    suspended, [m_it] is not assigned, and [advance()] returns. *)
Definition advance (self : iterator)
  : cmd (coro.world (AsyncGenerator.promise_type T) B E) iterator :=
  EagerTask.call (fun c =>
    r <- AsyncGenerator.co_await run c (m_op self) ;;
    match r with
    | Some it => ret (Iter (m_op self) it)
    | None => ret self
    end).

(** [explicit iterator(const advance_op& op) : m_op(op) { this->advance(); }] *)
Definition iterator_of_op (op : AsyncGenerator.advance_op)
  : cmd (coro.world (AsyncGenerator.promise_type T) B E) iterator :=
  advance (Iter op (AsyncGenerator.Iter None)).

Definition iterator_incr (self : iterator)
  : cmd (coro.world (AsyncGenerator.promise_type T) B E) iterator :=
  advance self.

Definition iterator_deref (self : iterator)
  : cmd (coro.world (AsyncGenerator.promise_type T) B E) T :=
  AsyncGenerator.iterator_deref (m_it self).

Definition iterator_eq (w : coro.world (AsyncGenerator.promise_type T) B E)
    (i j : iterator) : bool :=
  AsyncGenerator.iterator_eq w (m_it i) (m_it j).

Record sync_generator_adapter : Type := Adapter {
  m_gen : AsyncGenerator.async_generator
}.

(** [iterator begin() { return iterator(this->m_gen.begin()); }] *)
Definition begin (s : sync_generator_adapter)
  : cmd (coro.world (AsyncGenerator.promise_type T) B E) iterator :=
  fun w => iterator_of_op (AsyncGenerator.begin w (m_gen s)) w.

(** [iterator end() noexcept { return {}; }] *)
Definition end_ (s : sync_generator_adapter) : iterator := iterator_default.

(** The range-based [for] over the adapter, as for the generator. *)
Fixpoint iterate (fuel : nat) (s : sync_generator_adapter) (it : iterator)
    (acc : list T)
  : cmd (coro.world (AsyncGenerator.promise_type T) B E) (option (list T)) :=
  match fuel with
  | 0 => ret None
  | S n =>
      fun w =>
        if iterator_eq w it (end_ s) then (Ok (Some acc), w)
        else (v <- iterator_deref it ;;
              it' <- iterator_incr it ;;
              iterate n s it' (acc ++ [v])) w
  end.

Definition collect (fuel : nat) (s : sync_generator_adapter)
  : cmd (coro.world (AsyncGenerator.promise_type T) B E) (option (list T)) :=
  it <- begin s ;; iterate fuel s it [].

(** [std::accumulate(s.begin(), s.end(), init)], as for the generator. *)
Fixpoint accumulate_from {A : Type} (op : A -> T -> A) (fuel : nat)
    (s : sync_generator_adapter) (first : iterator) (init : A)
  : cmd (coro.world (AsyncGenerator.promise_type T) B E) (option A) :=
  match fuel with
  | 0 => ret None
  | S n =>
      fun w =>
        if iterator_eq w first (end_ s) then (Ok (Some init), w)
        else (v <- iterator_deref first ;;
              first' <- iterator_incr first ;;
              accumulate_from op n s first' (op init v)) w
  end.

Definition accumulate {A : Type} (op : A -> T -> A) (fuel : nat)
    (s : sync_generator_adapter) (init : A)
  : cmd (coro.world (AsyncGenerator.promise_type T) B E) (option A) :=
  first <- begin s ;; accumulate_from op fuel s first init.

(** [it = s.begin()] and what the caller sees of the iterator right away:
    [None] when [it == s.end()], the value [*it] otherwise. *)
Definition begin_observe (s : sync_generator_adapter)
  : cmd (coro.world (AsyncGenerator.promise_type T) B E) (option T) :=
  it <- begin s ;;
  fun w =>
    if iterator_eq w it (end_ s) then (Ok None, w)
    else (v <- iterator_deref it ;; ret (Some v)) w.

(** [k] calls of [begin()] in a row, each observed. *)
Fixpoint begin_times (k : nat) (s : sync_generator_adapter)
  : cmd (coro.world (AsyncGenerator.promise_type T) B E) (list (option T)) :=
  match k with
  | 0 => ret []
  | S n => o <- begin_observe s ;; os <- begin_times n s ;; ret (o :: os)
  end.

End sync_generator_adapter.

Arguments advance {T B E} run self w.
Arguments iterator_of_op {T B E} run op w.
Arguments iterator_incr {T B E} run self w.
Arguments iterator_deref {T B E} self w.
Arguments iterator_eq {T B E} w i j.
Arguments begin {T B E} run s w.
Arguments iterate {T B E} run fuel s it acc w.
Arguments collect {T B E} run fuel s w.
Arguments accumulate_from {T B E} run {A} op fuel s first init w.
Arguments accumulate {T B E} run {A} op fuel s init w.
Arguments begin_observe {T B E} run s w.
Arguments begin_times {T B E} run k s w.
End SyncGeneratorAdapter.

(** ** task.h *)

Module Task.

(** [detail::promise_base]: the continuation and the stored exception. *)
Record promise_base : Type := Base {
  m_next : option nat;
  m_exception : option exn
}.

(** A promise is its [promise_base] and the result storage of the
    specialisation. *)
Record promise (S : Type) : Type := Promise {
  base : promise_base;
  m_result : S
}.

Arguments Promise {S} base m_result.
Arguments base {S} p.
Arguments m_result {S} p.

(** What a specialisation of [detail::promise_type] adds to
    [promise_base]: the storage [S] with its initial value, what
    [co_return] stores ([return_value], [return_void]), and what
    [result_value()] does once [rethrow_if_exception()] has returned. *)
Class promise_type (S R : Type) : Type := {
  m_result_init : S;
  return_value : R -> S -> S;
  stored_result : S -> outcome R
}.

(** [promise_type<T>]: [m_result] is a [std::optional] (a pointer when [T]
    is an lvalue reference), empty at first; [result_value()] returns the
    stored value or throws [bad_result_access]. *)
#[global] Instance promise_type_T (T : Type) : promise_type (option T) T := {|
  m_result_init := None;
  return_value res _ := Some res;
  stored_result s :=
    match s with
    | Some v => Ok v
    | None => Throw bad_result_access
    end
|}.

(** [promise_type<void>]: no storage; [return_void()] and what follows
    [rethrow_if_exception()] in [result_value()] do nothing. *)
#[global] Instance promise_type_void : promise_type unit unit := {|
  m_result_init := tt;
  return_value _ s := s;
  stored_result _ := Ok tt
|}.

(** How a task body stops after it was resumed: suspended at a [co_await]
    inside the body, by [co_return], or by an uncaught exception. *)
Inductive step (B R : Type) : Type :=
| suspended (k : B)
| returned (r : R)
| threw (e : exn).

Arguments suspended {B R} k.
Arguments returned {B R} r.
Arguments threw {B R} e.

Section task.
Variables S R B E : Type.
Context {PT : promise_type S R}.
Variable run : B -> list E * step B R.

Definition promise_init : promise S := Promise (Base None None) m_result_init.

Definition unhandled_exception (e : exn) (p : promise S) : promise S :=
  Promise (Base (m_next (base p)) (Some e)) (m_result p).

Definition initial_suspend : std_suspend := suspend_always.

(** [final_suspend()] returns [nested_awaiter], whose [await_suspend] is
    [promise.m_next ? promise.m_next : std::noop_coroutine()]; [None] is
    the no-op coroutine here: control returns to whoever resumed. *)
Definition final_suspend_await_suspend (p : promise S) : option nat :=
  if detail.non_null (m_next (base p)) then m_next (base p) else None.

Definition set_next (nxt : option nat) (p : promise S) : promise S :=
  Promise (Base nxt (m_exception (base p))) (m_result p).

(** [if (m_exception != nullptr) std::rethrow_exception(m_exception);]
    a [const] member: the exception stays stored. *)
Definition rethrow_if_exception (p : promise S) : outcome unit :=
  match m_exception (base p) with
  | Some e => Throw e
  | None => Ok tt
  end.

(** [promise_type::result_value()] *)
Definition promise_result_value (p : promise S) : outcome R :=
  match rethrow_if_exception p with
  | Ok _ => stored_result (m_result p)
  | Throw e => Throw e
  | Terminate => Terminate
  | Undefined => Undefined
  end.

(** [h.resume()] on a task frame. The result is the handle that the awaiter
    of the final suspend point names, or [None] when the body stops at a
    [co_await] of its own and control returns to whoever resumed. *)
Definition resume (a : nat) : cmd (coro.world (promise S) B E) (option nat) :=
  fun w =>
    match coro.heap w !! a with
    | None => (Undefined, w)
    | Some f =>
        if coro.at_final_suspend f then (Undefined, w)
        else
          let '(evs, s) := run (coro.body f) in
          let '(f', nxt) :=
            match s with
            | suspended k => (coro.Frame (coro.promise f) k false, None)
            | returned r =>
                let p := Promise (base (coro.promise f))
                                 (return_value r (m_result (coro.promise f))) in
                (coro.Frame p (coro.body f) true, final_suspend_await_suspend p)
            | threw e =>
                let p := unhandled_exception e (coro.promise f) in
                (coro.Frame p (coro.body f) true, final_suspend_await_suspend p)
            end in
          (Ok nxt,
           coro.World (<[a := f']> (coro.heap w)) (coro.next w) (coro.log w ++ evs))
    end.

Record task : Type := Task { m_coroutine : option nat }.

(** [task() noexcept = default] *)
Definition default : task := Task None.

Definition create (b : B) : cmd (coro.world (promise S) B E) task :=
  a <- coro.alloc (coro.Frame promise_init b false) ;;
  match initial_suspend with
  | suspend_always => ret (Task (Some a))
  | suspend_never => resume a ;;; ret (Task (Some a))
  end.

Definition is_ready (w : coro.world (promise S) B E) (t : task) : bool :=
  detail.is_ready w (m_coroutine t).

(** [bool resume() const]. When the body ends, the continuation named by
    the final awaiter runs next; its code belongs to the awaiting
    coroutine. *)
Definition task_resume (t : task) : cmd (coro.world (promise S) B E) bool :=
  (fun w =>
     if negb (is_ready w t) then
       match m_coroutine t with
       | Some a => (resume a ;;; ret tt) w
       | None => (Undefined, w)
       end
     else (Ok tt, w)) ;;;
  (fun w => (Ok (negb (is_ready w t)), w)).

(** [reference result_value() &], and the [const&] and [&&] forms, which
    differ in the kind of reference they return. *)
Definition result_value (t : task) : cmd (coro.world (promise S) B E) R :=
  detail.check_coroutine (m_coroutine t) ;;;
  match m_coroutine t with
  | Some a => p <- coro.get_promise a ;; fun w => (promise_result_value p, w)
  | None => undefined
  end.

(** [detail::awaiter_base] and the awaiters of [operator co_await] *)
Record awaiter : Type := Awaiter { aw_coroutine : option nat }.

Definition operator_co_await (t : task) : awaiter := Awaiter (m_coroutine t).

Definition await_ready (w : coro.world (promise S) B E) (aw : awaiter) : bool :=
  detail.is_ready w (aw_coroutine aw).

Definition await_suspend (awaiting : option nat) (aw : awaiter)
  : cmd (coro.world (promise S) B E) (option nat) :=
  match aw_coroutine aw with
  | Some a =>
      p <- coro.get_promise a ;;
      coro.set_promise a (set_next awaiting p) ;;;
      ret (aw_coroutine aw)
  | None => undefined
  end.

(** [coroutine()] checks the handle, then [promise().result_value()]. *)
Definition await_resume (aw : awaiter) : cmd (coro.world (promise S) B E) R :=
  detail.check_coroutine (aw_coroutine aw) ;;;
  match aw_coroutine aw with
  | Some a => p <- coro.get_promise a ;; fun w => (promise_result_value p, w)
  | None => undefined
  end.

(** [co_await t] in the coroutine whose frame is at [c]. The result is
    [Some r] when the awaiting coroutine goes on with [r], and [None] when
    it stays suspended because the task stopped at a [co_await] of its
    own. *)
Definition co_await (c : nat) (t : task)
  : cmd (coro.world (promise S) B E) (option R) :=
  fun w =>
    let aw := operator_co_await t in
    if await_ready w aw then (r <- await_resume aw ;; ret (Some r)) w
    else
      (target <- await_suspend (Some c) aw ;;
       match target with
       | Some a =>
           back <- resume a ;;
           if bool_decide (back = Some c)
           then r <- await_resume aw ;; ret (Some r)
           else ret None
       | None => undefined
       end) w.

(** The state that the operations keep: a coroutine that has not finished
    has neither an exception nor a result stored in its promise. *)
Definition settled (w : coro.world (promise S) B E) : Prop :=
  forall a f,
    coro.heap w !! a = Some f ->
    coro.at_final_suspend f = false ->
    m_exception (base (coro.promise f)) = None
    /\ m_result (coro.promise f) = m_result_init.

(** Task objects live at addresses, as generator objects do. *)

(** [task(task&& other) noexcept] *)
Definition move_construct (this other : nat) (objs : gmap nat task)
  : cmd (coro.world (promise S) B E) (gmap nat task) :=
  match objs !! other with
  | Some o => ret (<[this := Task (m_coroutine o)]> (<[other := Task None]> objs))
  | None => undefined
  end.

(** [task& operator=(task&& other) noexcept] *)
Definition move_assign (this other : nat) (objs : gmap nat task)
  : cmd (coro.world (promise S) B E) (gmap nat task) :=
  match objs !! this, objs !! other with
  | Some t, Some o =>
      if bool_decide (this ≠ other) then
        match m_coroutine t with
        | Some a => coro.destroy a
        | None => ret tt
        end ;;;
        ret (<[this := Task (m_coroutine o)]> (<[other := Task None]> objs))
      else ret objs
  | _, _ => undefined
  end.

(** [~task()] *)
Definition destructor (this : nat) (objs : gmap nat task)
  : cmd (coro.world (promise S) B E) (gmap nat task) :=
  match objs !! this with
  | Some t =>
      match m_coroutine t with
      | Some a => coro.destroy a
      | None => ret tt
      end ;;;
      ret (delete this objs)
  | None => undefined
  end.

(** [bool destroy()] *)
Definition destroy (this : nat) (objs : gmap nat task)
  : cmd (coro.world (promise S) B E) (bool * gmap nat task) :=
  match objs !! this with
  | Some t =>
      match m_coroutine t with
      | Some a => coro.destroy a ;;; ret (true, <[this := Task None]> objs)
      | None => ret (false, objs)
      end
  | None => undefined
  end.

(** [k] calls of [resume()] in a row; what they return. *)
Fixpoint resume_times (k : nat) (t : task)
  : cmd (coro.world (promise S) B E) (list bool) :=
  match k with
  | 0 => ret []
  | Datatypes.S n => r <- task_resume t ;; rs <- resume_times n t ;; ret (r :: rs)
  end.

End task.

Arguments promise_init {S R _}.
Arguments unhandled_exception {S} e p.
Arguments final_suspend_await_suspend {S} p.
Arguments set_next {S} nxt p.
Arguments rethrow_if_exception {S} p.
Arguments promise_result_value {S R _} p.
Arguments resume {S R B E _} run a w.
Arguments create {S R B E _} run b w.
Arguments is_ready {S B E} w t.
Arguments task_resume {S R B E _} run t w.
Arguments result_value {S R B E _} t w.
Arguments await_ready {S B E} w aw.
Arguments await_suspend {S B E} awaiting aw w.
Arguments await_resume {S R B E _} aw w.
Arguments co_await {S R B E _} run c t w.
Arguments move_construct {S B E} this other objs w.
Arguments move_assign {S B E} this other objs w.
Arguments destructor {S B E} this objs w.
Arguments destroy {S B E} this objs w.
Arguments settled {S R B E _} w.
Arguments resume_times {S R B E _} run k t w.
End Task.

(** ** eager_task.h: run_awaitable *)

Module RunAwaitable.
Section run_awaitable.
Context {S R B E : Type} {PT : Task.promise_type S R}.
Variable run : B -> list E * Task.step B R.

(** [eager_task run_awaitable(f, args...) { co_await std::invoke(f, args...); }]
    for a callable [f] that returns a task. The coroutine is an
    [eager_task]: its frame is allocated and its body runs at once. The
    body calls [f], awaits the task that [f] returns, and, once the
    [co_await] has its result, destroys that temporary task at the end of
    the full expression. When the task stops at a [co_await] of its own,
    the eager coroutine stays suspended and the temporary lives on in its
    frame. *)
Definition run_awaitable (f : cmd (coro.world (Task.promise S) B E) Task.task)
  : cmd (coro.world (Task.promise S) B E) unit :=
  EagerTask.call (fun c =>
    t <- f ;;
    r <- Task.co_await run c t ;;
    match r with
    | Some _ =>
        match Task.m_coroutine t with
        | Some a => coro.destroy a
        | None => ret tt
        end
    | None => ret tt
    end).

End run_awaitable.
End RunAwaitable.

(** ** task.h: tasks that await tasks

    The bodies of the tests TaskTest.NestedTask and
    TaskTest.DeeplyNestedTask: a body performs effects, stops at a
    [co_await std::suspend_always{}], calls another task coroutine and
    awaits the temporary task ([x = co_await child(...)]), returns or
    throws. All tasks of a program have the result type [R]. A body
    catches nothing. *)

Module NestedTask.

Inductive prog (R E : Type) : Type :=
| p_return (r : R)
| p_throw (e : exn)
| p_effect (ev : E) (k : prog R E)
| p_suspend (k : prog R E)
| p_await (child : prog R E) (k : R -> prog R E).

Arguments p_return {R E} r.
Arguments p_throw {R E} e.
Arguments p_effect {R E} ev k.
Arguments p_suspend {R E} k.
Arguments p_await {R E} child k.

(** Where a suspended body goes on: with the rest of the program (at the
    initial suspend point and after [suspend_always]), or with the
    [await_resume()] of the awaiter of the temporary task [t], whose result
    the rest of the program takes. *)
Inductive body (R E : Type) : Type :=
| at_start (p : prog R E)
| awaiting (t : Task.task) (k : R -> prog R E).

Arguments at_start {R E} p.
Arguments awaiting {R E} t k.

Section nested.
Context {St R E : Type} {PT : Task.promise_type St R}.

Local Abbreviation world := (coro.world (Task.promise St) (body R E) E).

Definition emit (ev : E) : cmd world unit :=
  fun w => (Ok tt, coro.World (coro.heap w) (coro.next w) (coro.log w ++ [ev])).

(** The coroutine at [a] is suspended, to go on at [b]. *)
Definition suspend_at (a : nat) (b : body R E) : cmd world unit :=
  fun w =>
    match coro.heap w !! a with
    | Some f =>
        (Ok tt,
         coro.World (<[a := coro.Frame (coro.promise f) b false]> (coro.heap w))
           (coro.next w) (coro.log w))
    | None => (Undefined, w)
    end.

(** The end of the body of the coroutine at [a]: [upd] is [return_value] or
    [unhandled_exception()], then the coroutine suspends at its final
    suspend point and the [await_suspend] of [nested_awaiter] names the
    coroutine that runs next. *)
Definition finish (a : nat) (upd : Task.promise St -> Task.promise St)
  : cmd world (option nat) :=
  fun w =>
    match coro.heap w !! a with
    | Some f =>
        let p := upd (coro.promise f) in
        (Ok (Task.final_suspend_await_suspend p),
         coro.World (<[a := coro.Frame p (coro.body f) true]> (coro.heap w))
           (coro.next w) (coro.log w))
    | None => (Undefined, w)
    end.

(** The call of a task coroutine with body [p], as [Task.create]: the
    frame is allocated and, as [initial_suspend()] is [suspend_always], the
    body does not start. *)
Definition call (p : prog R E) : cmd world Task.task :=
  a <- coro.alloc (coro.Frame Task.promise_init (at_start p) false) ;;
  ret (Task.Task (Some a)).

(** [~task()] of the temporary [t] *)
Definition release (t : Task.task) : cmd world unit :=
  match Task.m_coroutine t with
  | Some a => coro.destroy a
  | None => ret tt
  end.

(** The rest of [x = co_await child(...)] once the awaiting coroutine runs
    again: [await_resume()] gives the result or throws, the temporary task
    is destroyed at the end of the full expression, and the body goes on
    with [cont]. *)
Definition resume_point (t : Task.task) (cont : R -> cmd world (option nat))
  : cmd world (option nat) :=
  fun w =>
    match Task.await_resume (Task.operator_co_await t) w with
    | (Ok r, w') => (release t ;;; cont r) w'
    | (Throw e, w') => (release t ;;; throw e) w'
    | (Terminate, w') => (Terminate, w')
    | (Undefined, w') => (Undefined, w')
    end.

(** The body of the coroutine at [a] from [p] to where it gives up control.
    The result is the coroutine that runs next: the task that the body
    awaits ([await_suspend] returns its handle), the continuation that the
    final awaiter names, or [None] when control returns to the one who
    resumed. An exception leaves the body as [Throw]. *)
Fixpoint body_steps (a : nat) (p : prog R E) : cmd world (option nat) :=
  match p with
  | p_return r =>
      finish a (fun pr =>
        Task.Promise (Task.base pr) (Task.return_value r (Task.m_result pr)))
  | p_throw e => throw e
  | p_effect ev k => emit ev ;;; body_steps a k
  | p_suspend k => suspend_at a (at_start k) ;;; ret None
  | p_await child k =>
      t <- call child ;;
      fun w =>
        if Task.await_ready w (Task.operator_co_await t)
        then resume_point t (fun r => body_steps a (k r)) w
        else (suspend_at a (awaiting t k) ;;;
              Task.await_suspend (Some a) (Task.operator_co_await t)) w
  end.

(** An exception that leaves the body reaches [unhandled_exception()]. *)
Definition with_catch (a : nat) (m : cmd world (option nat)) : cmd world (option nat) :=
  fun w =>
    match m w with
    | (Throw e, w') => finish a (Task.unhandled_exception e) w'
    | r => r
    end.

(** [h.resume()] on the frame at [a], up to where the coroutine gives up
    control. *)
Definition resume (a : nat) : cmd world (option nat) :=
  fun w =>
    match coro.heap w !! a with
    | None => (Undefined, w)
    | Some f =>
        if coro.at_final_suspend f then (Undefined, w)
        else
          match coro.body f with
          | at_start p => with_catch a (body_steps a p) w
          | awaiting t k =>
              with_catch a (resume_point t (fun r => body_steps a (k r))) w
          end
    end.

(** Where control is when the coroutines have stopped passing it on. *)
Inductive control : Type :=
| fuel_out
| back_to_resumer
| back_to_awaiter.

(** Symmetric transfer: the coroutine that an [await_suspend] names is
    resumed in turn, until one names the no-op coroutine ([None]), and
    control is back with the one who called [resume()], or names [stop],
    a coroutine that awaits the tasks from outside (an [eager_task]),
    whose code is the caller's. *)
Fixpoint transfer (stop : option nat) (fuel : nat) (h : option nat)
  : cmd world control :=
  match h with
  | None => ret back_to_resumer
  | Some a =>
      if bool_decide (h = stop) then ret back_to_awaiter
      else
        match fuel with
        | 0 => ret fuel_out
        | S n => nxt <- resume a ;; transfer stop n nxt
        end
  end.

(** [bool task::resume() const]; [None] when the fuel ran out. *)
Definition task_resume (fuel : nat) (t : Task.task) : cmd world (option bool) :=
  back <- (fun w =>
             if negb (Task.is_ready w t) then transfer None fuel (Task.m_coroutine t) w
             else (Ok back_to_resumer, w)) ;;
  fun w =>
    (Ok match back with
        | fuel_out => None
        | _ => Some (negb (Task.is_ready w t))
        end, w).

(** [co_await t] in a coroutine at [c] that is not one of the tasks, as
    [Task.co_await], with the tasks passing control on among themselves.
    The result is [None] when the fuel ran out, [Some None] when the
    awaiting coroutine stays suspended, [Some (Some r)] when it goes on
    with [r]. *)
Definition co_await (fuel : nat) (c : nat) (t : Task.task)
  : cmd world (option (option R)) :=
  fun w =>
    let aw := Task.operator_co_await t in
    if Task.await_ready w aw then (r <- Task.await_resume aw ;; ret (Some (Some r))) w
    else
      (target <- Task.await_suspend (Some c) aw ;;
       back <- transfer (Some c) fuel target ;;
       match back with
       | fuel_out => ret None
       | back_to_resumer => ret (Some None)
       | back_to_awaiter => r <- Task.await_resume aw ;; ret (Some (Some r))
       end) w.

(** [[]() -> eager_task { auto result = co_await p(...); }()]: the eager
    coroutine calls the task coroutine with body [p], awaits the temporary
    task and destroys it once the [co_await] has its result. *)
Definition await_in_eager_task (fuel : nat) (p : prog R E)
  : cmd world (option (option R)) :=
  EagerTask.call (fun c =>
    t <- call p ;;
    r <- co_await fuel c t ;;
    match r with
    | Some (Some _) => release t ;;; ret r
    | _ => ret r
    end).

(** Frames are allocated at [coro.next]: no frame lives at or above it. *)
Definition well_allocated (w : world) : Prop :=
  forall a, coro.next w <= a -> coro.heap w !! a = None.

(** The promise of a coroutine whose body has ended with [o]. *)
Definition final_promise (pr : Task.promise St) (o : R + exn) : Task.promise St :=
  match o with
  | inl r => Task.Promise (Task.base pr) (Task.return_value r (Task.m_result pr))
  | inr e => Task.unhandled_exception e pr
  end.

End nested.

(** What a program computes when its tasks are read as calls: the effects
    in order, and the value returned or the exception thrown. *)
Fixpoint eval {R E : Type} (p : prog R E) : list E * (R + exn) :=
  match p with
  | p_return r => ([], inl r)
  | p_throw e => ([], inr e)
  | p_effect ev k => (ev :: fst (eval k), snd (eval k))
  | p_suspend k => eval k
  | p_await child k =>
      match snd (eval child) with
      | inl r => (fst (eval child) ++ fst (eval (k r)), snd (eval (k r)))
      | inr e => (fst (eval child), inr e)
      end
  end.

(** No task of the program stops at a [suspend_always]. *)
Fixpoint suspend_free {R E : Type} (p : prog R E) : Prop :=
  match p with
  | p_return _ => True
  | p_throw _ => True
  | p_effect _ k => suspend_free k
  | p_suspend _ => False
  | p_await child k => suspend_free child /\ forall r, suspend_free (k r)
  end.

End NestedTask.

(** ** Coroutine bodies of the tests and examples *)

Module Bodies.

(** A straight-line body: statements with an effect that the caller can
    see (a flag that is set, a line that is printed), [co_yield]s, and a
    [throw] that nothing catches. *)
Inductive stmt (T E : Type) : Type :=
| effect (ev : E)
| yield (v : T)
| raise (e : exn).

Arguments effect {T E} ev.
Arguments yield {T E} v.
Arguments raise {T E} e.

Fixpoint run_script {T E : Type} (b : list (stmt T E))
  : list E * suspension (list (stmt T E)) T :=
  match b with
  | [] => ([], co_return)
  | effect ev :: k => let '(evs, s) := run_script k in (ev :: evs, s)
  | yield v :: k => ([], co_yield v k)
  | raise e :: _ => ([], co_throw e)
  end.

(** [for (auto value : l) co_yield value;] *)
Definition yield_all {T E : Type} (l : list T) : list (stmt T E) := map yield l.

(** A straight-line body of an asynchronous generator: the statements of a
    generator body, and [co_await]s of something that is not ready and
    does not resume the body, as [co_await std::suspend_always{}]. *)
Inductive async_stmt (T E : Type) : Type :=
| sync (s : stmt T E)
| await_pending.

Arguments sync {T E} s.
Arguments await_pending {T E}.

Fixpoint run_async_script {T E : Type} (b : list (async_stmt T E))
  : list E * production (list (async_stmt T E)) T :=
  match b with
  | [] => ([], produced co_return)
  | sync (effect ev) :: k => let '(evs, s) := run_async_script k in (ev :: evs, s)
  | sync (yield v) :: k => ([], produced (co_yield v k))
  | sync (raise e) :: _ => ([], produced (co_throw e))
  | await_pending :: k => ([], stalled k)
  end.

(** [first_n(n)]: [T v{0}; while (v < n) co_yield v++;] the position is
    [(v, n)]. For [n] in the range of [T] the increment stays in it. *)
Definition first_n (b : Z * Z) : list unit * suspension (Z * Z) Z :=
  let '(v, n) := b in
  if (v <? n)%Z then ([], co_yield v ((v + 1)%Z, n)) else ([], co_return).

(** [fibonacci(n)] of test/generator.cpp and [async_fibonacci(n)] of
    test/sync_generator_adapter.cpp, over [unsigned int]. *)
Definition u32 (x : Z) : Z := (x mod 2 ^ 32)%Z.

(** [init + *first] over [unsigned int], as in
    [std::accumulate(g.begin(), g.end(), 0U)] of the tests. *)
Definition add_u32 (x y : Z) : Z := u32 (x + y).

Inductive fib_pos : Type :=
| fib_start
| fib_after_a
| fib_after_b
| fib_after_s (i a b s : Z).

Definition fib_for (n i a b : Z) : list unit * suspension (Z * fib_pos) Z :=
  if (i <? n)%Z
  then ([], co_yield (u32 (a + b)) (n, fib_after_s i a b (u32 (a + b))))
  else ([], co_return).

Definition fib_second (n : Z) : list unit * suspension (Z * fib_pos) Z :=
  if (1 <? n)%Z then ([], co_yield 1%Z (n, fib_after_b)) else fib_for n 2 0 1.

Definition fibonacci (b : Z * fib_pos) : list unit * suspension (Z * fib_pos) Z :=
  let '(n, pos) := b in
  match pos with
  | fib_start => if (0 <? n)%Z then ([], co_yield 0%Z (n, fib_after_a)) else fib_second n
  | fib_after_a => fib_second n
  | fib_after_b => fib_for n 2 0 1
  | fib_after_s i a b s => fib_for n (u32 (i + 1)) b s
  end.

(** [async_first_n(n)] and [async_fibonacci(n)] of
    test/sync_generator_adapter.cpp: the bodies of [first_n(n)] and
    [fibonacci(n)] with [co_yield co_await get_async_value<T>(v)] in place
    of [co_yield v]. [get_async_value(v)] is a task whose body is
    [co_return v;] ([get_async_value] below): the [co_await] starts it, it
    runs to its end, its final awaiter resumes the generator, and
    [await_resume()] gives [v] before anything else runs. No [co_await] of
    these bodies stalls. *)
Definition async_first_n : Z * Z -> list unit * production (Z * Z) Z :=
  steady first_n.

Definition async_fibonacci
  : Z * fib_pos -> list unit * production (Z * fib_pos) Z :=
  steady fibonacci.

(** The Fibonacci numbers, to compare [fibonacci(n)] with. *)
Fixpoint fib (k : nat) : Z :=
  match k with
  | 0 => 0%Z
  | S k' =>
      match k' with
      | 0 => 1%Z
      | S k'' => (fib k' + fib k'')%Z
      end
  end.

(** Task bodies: a chain of effects and inner suspensions that ends in a
    [co_return] or in a [throw]. *)
Inductive task_body (R E : Type) : Type :=
| t_effect (ev : E) (k : task_body R E)
| t_suspend (k : task_body R E)
| t_return (r : R)
| t_throw (e : exn).

Arguments t_effect {R E} ev k.
Arguments t_suspend {R E} k.
Arguments t_return {R E} r.
Arguments t_throw {R E} e.

Fixpoint run_task {R E : Type} (b : task_body R E)
  : list E * Task.step (task_body R E) R :=
  match b with
  | t_effect ev k => let '(evs, s) := run_task k in (ev :: evs, s)
  | t_suspend k => ([], Task.suspended k)
  | t_return r => ([], Task.returned r)
  | t_throw e => ([], Task.threw e)
  end.

(** [get_async_value(n)] of test/sync_generator_adapter.cpp:
    [co_return n;] *)
Definition get_async_value {E : Type} (n : Z) : task_body Z E := t_return n.

(** The tasks of test TaskTest.DeeplyNestedTask. An effect is a term added
    to [sum]. The outermost task is a [task<>] in the test; here it
    returns 0. *)
Definition task3 : NestedTask.prog Z Z :=
  NestedTask.p_effect 24%Z (NestedTask.p_return 24%Z).

Definition task2 : NestedTask.prog Z Z :=
  NestedTask.p_await task3
    (fun _ => NestedTask.p_effect 1983%Z (NestedTask.p_return 1983%Z)).

Definition task1 : NestedTask.prog Z Z :=
  NestedTask.p_await task2 (fun _ => NestedTask.p_return 0%Z).

(** [sum()] of examples/task.cpp:
    [const auto a = co_await task1(); const auto b = co_await task2();
     co_return a + b;] where [task1()] returns 123 and [task2()] 456. *)
Definition sum : NestedTask.prog Z unit :=
  NestedTask.p_await (NestedTask.p_return 123%Z) (fun a =>
  NestedTask.p_await (NestedTask.p_return 456%Z) (fun b =>
  NestedTask.p_return (a + b)%Z)).

End Bodies.

(** ** What it means for a body to yield a sequence

    [yields run b l]: resumed again and again from [b], the body yields the
    elements of [l] in order and then ends. *)

Inductive yields {T B E : Type} (run : B -> list E * suspension B T)
  : B -> list T -> Prop :=
| yields_end b :
    snd (run b) = co_return -> yields run b []
| yields_more b v b' l :
    snd (run b) = co_yield v b' -> yields run b' l -> yields run b (v :: l).

(** [yields_then_throws run b l e]: resumed again and again from [b], the
    body yields the elements of [l] in order and then lets the exception
    [e] escape. *)

Inductive yields_then_throws {T B E : Type} (run : B -> list E * suspension B T)
  : B -> list T -> exn -> Prop :=
| throws_now b e :
    snd (run b) = co_throw e -> yields_then_throws run b [] e
| throws_later b v b' l e :
    snd (run b) = co_yield v b' ->
    yields_then_throws run b' l e ->
    yields_then_throws run b (v :: l) e.

(** The same for the body of an asynchronous generator.
    [async_yields run b l]: resumed again and again from [b], the body
    yields the elements of [l] in order and then returns, and stops at no
    [co_await] on the way. *)

Inductive async_yields {T B E : Type} (run : B -> list E * production B T)
  : B -> list T -> Prop :=
| async_yields_end b :
    snd (run b) = produced co_return -> async_yields run b []
| async_yields_more b v b' l :
    snd (run b) = produced (co_yield v b') ->
    async_yields run b' l ->
    async_yields run b (v :: l).

Inductive async_yields_then_throws {T B E : Type}
    (run : B -> list E * production B T)
  : B -> list T -> exn -> Prop :=
| async_throws_now b e :
    snd (run b) = produced (co_throw e) -> async_yields_then_throws run b [] e
| async_throws_later b v b' l e :
    snd (run b) = produced (co_yield v b') ->
    async_yields_then_throws run b' l e ->
    async_yields_then_throws run b (v :: l) e.

(** [eventually_yields run b l]: the same sequence, from a body that may
    stop at [co_await]s on the way and goes on when it is resumed. *)

Inductive eventually_yields {T B E : Type} (run : B -> list E * production B T)
  : B -> list T -> Prop :=
| eventually_end b :
    snd (run b) = produced co_return -> eventually_yields run b []
| eventually_more b v b' l :
    snd (run b) = produced (co_yield v b') ->
    eventually_yields run b' l ->
    eventually_yields run b (v :: l)
| eventually_resumed b b' l :
    snd (run b) = stalled b' ->
    eventually_yields run b' l ->
    eventually_yields run b l.

(** [returns_after run b n r]: resumed again and again from [b], the body
    of a task stops [n] times at a [co_await] of its own and then returns
    [r]. *)

Inductive returns_after {B R E : Type} (run : B -> list E * Task.step B R)
  : B -> nat -> R -> Prop :=
| returns_now b r :
    snd (run b) = Task.returned r -> returns_after run b 0 r
| returns_later b k n r :
    snd (run b) = Task.suspended k ->
    returns_after run k n r ->
    returns_after run b (S n) r.

(** * Properties *)

(** Lookups in a heap that was just written to. *)
Ltac heap_simpl :=
  repeat (first [ rewrite lookup_insert_eq
                | rewrite insert_insert_eq
                | rewrite lookup_delete_eq ];
          simpl).

(** ** Handles *)

Section HandleFacts.
Context {P B E : Type}.
Implicit Types (w : coro.world P B E) (f : coro.frame P B).

Lemma done_lookup w a f :
  coro.heap w !! a = Some f -> coro.done w a = coro.at_final_suspend f.
Proof. intros H. unfold coro.done. now rewrite H. Qed.

Lemma is_good_handle_null w : detail.is_good_handle w None = false.
Proof. reflexivity. Qed.

Lemma is_good_handle_lookup w a f :
  coro.heap w !! a = Some f ->
  detail.is_good_handle w (Some a) = negb (coro.at_final_suspend f).
Proof. intros H. unfold detail.is_good_handle. simpl. now rewrite (done_lookup _ _ _ H). Qed.

Lemma is_good_handle_done w a :
  coro.done w a = true -> detail.is_good_handle w (Some a) = false.
Proof. intros H. unfold detail.is_good_handle. simpl. now rewrite H. Qed.

(** A handle is not good exactly when it is empty or its coroutine has
    finished. *)
Lemma not_good_handle w h :
  detail.is_good_handle w h = false <->
  h = None \/ exists a, h = Some a /\ coro.done w a = true.
Proof.
  destruct h as [a|]; unfold detail.is_good_handle; simpl.
  - rewrite negb_false_iff. split.
    + intros H. right. now exists a.
    + intros [H | (a' & [= <-] & H)]; [discriminate | exact H].
  - split; [now left | reflexivity].
Qed.

Lemma is_ready_not_good w h :
  detail.is_ready w h = negb (detail.is_good_handle w h).
Proof.
  unfold detail.is_ready, detail.is_good_handle.
  now rewrite negb_andb, negb_involutive.
Qed.

Lemma bind_ok {A A'} (m : cmd (coro.world P B E) A) (k : A -> cmd (coro.world P B E) A')
    w a w' :
  m w = (Ok a, w') -> bind m k w = k a w'.
Proof. intros H. unfold bind. now rewrite H. Qed.

Lemma bind_throw {A A'} (m : cmd (coro.world P B E) A)
    (k : A -> cmd (coro.world P B E) A') w e w' :
  m w = (Throw e, w') -> bind m k w = (Throw e, w').
Proof. intros H. unfold bind. now rewrite H. Qed.

Lemma get_promise_lookup w a f :
  coro.heap w !! a = Some f -> coro.get_promise a w = (Ok (coro.promise f), w).
Proof. intros H. unfold coro.get_promise. now rewrite H. Qed.

Lemma set_promise_lookup w a f p :
  coro.heap w !! a = Some f ->
  coro.set_promise a p w =
    (Ok tt,
     coro.World (<[a := coro.Frame p (coro.body f) (coro.at_final_suspend f)]> (coro.heap w))
       (coro.next w) (coro.log w)).
Proof. intros H. unfold coro.set_promise. now rewrite H. Qed.

Lemma lookup_world_insert (m : gmap nat (coro.frame P B)) a f n (l : list E) :
  coro.heap (coro.World (<[a := f]> m) n l) !! a = Some f.
Proof. apply lookup_insert_eq. Qed.

Lemma done_insert (m : gmap nat (coro.frame P B)) a f n (l : list E) :
  coro.done (coro.World (<[a := f]> m) n l) a = coro.at_final_suspend f.
Proof. unfold coro.done. simpl. now rewrite lookup_insert_eq. Qed.

End HandleFacts.

(** ** Generator *)

Section GeneratorFacts.
Context {T B E : Type} (run : B -> list E * suspension B T).
Implicit Types (w : coro.world (Generator.promise_type T) B E).
Implicit Types (f : coro.frame (Generator.promise_type T) B).

(** The frame of a generator after one run of its body. *)
Lemma resume_live w a f :
  coro.heap w !! a = Some f ->
  coro.at_final_suspend f = false ->
  Generator.resume run a w =
    (Ok tt,
     coro.World
       (<[a := match snd (run (coro.body f)) with
               | co_yield v k =>
                   coro.Frame (Generator.Promise (Some v)
                                 (Generator.m_exception (coro.promise f))) k false
               | co_return => coro.Frame (coro.promise f) (coro.body f) true
               | co_throw e =>
                   coro.Frame (Generator.Promise (Generator.m_value (coro.promise f))
                                 (Some e)) (coro.body f) true
               end]> (coro.heap w))
       (coro.next w) (coro.log w ++ fst (run (coro.body f)))).
Proof.
  intros Hf Hfin. unfold Generator.resume. rewrite Hf, Hfin.
  destruct (run (coro.body f)) as [evs [v k| |e]]; reflexivity.
Qed.

Lemma advance_not_good w g :
  detail.is_good_handle w (Generator.m_coroutine g) = false ->
  Generator.advance run g w = (Ok tt, w).
Proof. intros H. unfold Generator.advance. now rewrite H. Qed.

Lemma advance_yield w a f v k :
  coro.heap w !! a = Some f ->
  coro.at_final_suspend f = false ->
  snd (run (coro.body f)) = co_yield v k ->
  Generator.advance run (Generator.Gen (Some a)) w =
    (Ok tt,
     coro.World
       (<[a := coro.Frame (Generator.Promise (Some v)
                             (Generator.m_exception (coro.promise f))) k false]>
          (coro.heap w))
       (coro.next w) (coro.log w ++ fst (run (coro.body f)))).
Proof.
  intros Hf Hfin Hrun. unfold Generator.advance. simpl.
  rewrite (is_good_handle_lookup _ _ _ Hf), Hfin. simpl.
  unfold bind. rewrite (resume_live _ _ _ Hf Hfin), Hrun.
  now rewrite done_insert.
Qed.

Lemma advance_return w a f :
  coro.heap w !! a = Some f ->
  coro.at_final_suspend f = false ->
  Generator.m_exception (coro.promise f) = None ->
  snd (run (coro.body f)) = co_return ->
  Generator.advance run (Generator.Gen (Some a)) w =
    (Ok tt,
     coro.World (<[a := coro.Frame (coro.promise f) (coro.body f) true]> (coro.heap w))
       (coro.next w) (coro.log w ++ fst (run (coro.body f)))).
Proof.
  intros Hf Hfin Hex Hrun. unfold Generator.advance. simpl.
  rewrite (is_good_handle_lookup _ _ _ Hf), Hfin. simpl.
  unfold bind. rewrite (resume_live _ _ _ Hf Hfin), Hrun.
  rewrite done_insert. simpl.
  unfold Generator.promise_rethrow, bind, coro.get_promise, coro.set_promise. simpl.
  heap_simpl. unfold Generator.rethrow_if_exception. rewrite Hex.
  now heap_simpl.
Qed.

Lemma advance_throw w a f e :
  coro.heap w !! a = Some f ->
  coro.at_final_suspend f = false ->
  snd (run (coro.body f)) = co_throw e ->
  Generator.advance run (Generator.Gen (Some a)) w =
    (Throw e,
     coro.World
       (<[a := coro.Frame (Generator.Promise (Generator.m_value (coro.promise f)) None)
                 (coro.body f) true]> (coro.heap w))
       (coro.next w) (coro.log w ++ fst (run (coro.body f)))).
Proof.
  intros Hf Hfin Hrun. unfold Generator.advance. simpl.
  rewrite (is_good_handle_lookup _ _ _ Hf), Hfin. simpl.
  unfold bind. rewrite (resume_live _ _ _ Hf Hfin), Hrun.
  rewrite done_insert. simpl.
  unfold Generator.promise_rethrow, bind, coro.get_promise, coro.set_promise. simpl.
  now heap_simpl.
Qed.

Lemma advance_live w a f :
  coro.heap w !! a = Some f ->
  coro.at_final_suspend f = false ->
  Generator.m_exception (coro.promise f) = None ->
  Generator.advance run (Generator.Gen (Some a)) w = Generator.one_step run a f w.
Proof.
  intros Hf Hfin Hex. unfold Generator.one_step.
  destruct (snd (run (coro.body f))) as [v k| |e] eqn:Hrun.
  - rewrite (advance_yield _ _ _ _ _ Hf Hfin Hrun). now rewrite Hex.
  - now apply advance_return.
  - now apply advance_throw.
Qed.

Lemma begin_live w a f :
  coro.heap w !! a = Some f ->
  coro.at_final_suspend f = false ->
  Generator.m_exception (coro.promise f) = None ->
  Generator.begin run (Generator.Gen (Some a)) w =
    match Generator.one_step run a f w with
    | (Ok _, w') => (Ok (Generator.Iter (Some a)), w')
    | (Throw e, w') => (Throw e, w')
    | (Terminate, w') => (Terminate, w')
    | (Undefined, w') => (Undefined, w')
    end.
Proof.
  intros Hf Hfin Hex. unfold Generator.begin, bind.
  rewrite (advance_live _ _ _ Hf Hfin Hex).
  destruct (Generator.one_step run a f w) as [[]]; reflexivity.
Qed.

Lemma begin_not_good w g :
  detail.is_good_handle w (Generator.m_coroutine g) = false ->
  Generator.begin run g w = (Ok (Generator.Iter (Generator.m_coroutine g)), w).
Proof.
  intros H. unfold Generator.begin, bind. now rewrite (advance_not_good _ _ H).
Qed.

Lemma iterator_incr_good w a :
  detail.is_good_handle w (Some a) = true ->
  Generator.iterator_incr run (Generator.Iter (Some a)) w =
    (Generator.advance run (Generator.Gen (Some a)) ;;; ret (Generator.Iter (Some a))) w.
Proof.
  intros H. unfold Generator.iterator_incr, Generator.advance, bind. simpl.
  rewrite H. destruct (Generator.resume run a w) as [[] w1]; try reflexivity.
Qed.

Lemma iterator_incr_live w a f :
  coro.heap w !! a = Some f ->
  coro.at_final_suspend f = false ->
  Generator.m_exception (coro.promise f) = None ->
  Generator.iterator_incr run (Generator.Iter (Some a)) w =
    match Generator.one_step run a f w with
    | (Ok _, w') => (Ok (Generator.Iter (Some a)), w')
    | (Throw e, w') => (Throw e, w')
    | (Terminate, w') => (Terminate, w')
    | (Undefined, w') => (Undefined, w')
    end.
Proof.
  intros Hf Hfin Hex. rewrite iterator_incr_good.
  - apply (begin_live _ _ _ Hf Hfin Hex).
  - now rewrite (is_good_handle_lookup _ _ _ Hf), Hfin.
Qed.

Lemma iterator_incr_not_good w i :
  detail.is_good_handle w (Generator.it_coroutine i) = false ->
  Generator.iterator_incr run i w = (Throw bad_result_access, w).
Proof. intros H. unfold Generator.iterator_incr. now rewrite H. Qed.

Lemma iterator_deref_not_good w (i : Generator.iterator) :
  detail.is_good_handle w (Generator.it_coroutine i) = false ->
  Generator.iterator_deref i w = (Throw bad_result_access, w).
Proof. intros H. unfold Generator.iterator_deref. now rewrite H. Qed.

Lemma iterator_deref_live w a f v :
  coro.heap w !! a = Some f ->
  coro.at_final_suspend f = false ->
  Generator.m_value (coro.promise f) = Some v ->
  Generator.iterator_deref (Generator.Iter (Some a)) w = (Ok v, w).
Proof.
  intros Hf Hfin Hv. unfold Generator.iterator_deref. simpl.
  rewrite (is_good_handle_lookup _ _ _ Hf), Hfin. simpl.
  unfold bind, coro.get_promise. rewrite Hf. unfold Generator.value. now rewrite Hv.
Qed.

Lemma iterator_eq_end w (i : Generator.iterator) g :
  Generator.iterator_eq w i (Generator.end_ g) =
  negb (detail.is_good_handle w (Generator.it_coroutine i)).
Proof.
  unfold Generator.iterator_eq. simpl. rewrite andb_true_r.
  destruct i as [[a|]]; reflexivity.
Qed.

(** The range-based [for] stops at once on a finished generator. *)
Lemma iterate_done w g i acc n :
  detail.is_good_handle w (Generator.it_coroutine i) = false ->
  Generator.iterate run (S n) g i acc w = (Ok (Some acc), w).
Proof. intros H. simpl. now rewrite iterator_eq_end, H. Qed.

(** One turn of the loop on a live generator: the value is read, the
    iterator is incremented. *)
Lemma iterate_live a g n w f v acc :
  coro.heap w !! a = Some f ->
  coro.at_final_suspend f = false ->
  coro.promise f = Generator.Promise (Some v) None ->
  Generator.iterate run (S n) g (Generator.Iter (Some a)) acc w =
    match Generator.one_step run a f w with
    | (Ok _, w') => Generator.iterate run n g (Generator.Iter (Some a)) (acc ++ [v]) w'
    | (Throw e, w') => (Throw e, w')
    | (Terminate, w') => (Terminate, w')
    | (Undefined, w') => (Undefined, w')
    end.
Proof.
  intros Hf Hfin Hp. cbn [Generator.iterate]. rewrite iterator_eq_end. simpl.
  rewrite (is_good_handle_lookup _ _ _ Hf), Hfin. simpl. unfold bind at 1.
  rewrite (iterator_deref_live _ _ _ v Hf Hfin) by now rewrite Hp.
  unfold bind at 1.
  rewrite (iterator_incr_live _ _ _ Hf Hfin) by now rewrite Hp.
  destruct (Generator.one_step run a f w) as [[] w']; reflexivity.
Qed.

(** With the iterator at a value [v] and the body about to yield [l], the
    loop collects [v] and then [l]. *)
Lemma iterate_yields a g b l :
  yields run b l ->
  forall fuel w v acc,
    length l + 2 <= fuel ->
    coro.heap w !! a = Some (coro.Frame (Generator.Promise (Some v) None) b false) ->
    fst (Generator.iterate run fuel g (Generator.Iter (Some a)) acc w)
    = Ok (Some (acc ++ v :: l)).
Proof.
  induction 1 as [b Hend | b v' b' l Hrun Hyl IH];
    intros fuel w v acc Hfuel Hf;
    (destruct fuel as [|n]; [simpl in Hfuel; lia | ]);
    rewrite (iterate_live _ _ _ _ _ v _ Hf) by reflexivity;
    unfold Generator.one_step; cbn [coro.body].
  - rewrite Hend. destruct n as [|n]; [simpl in Hfuel; lia | ].
    rewrite iterate_done; [reflexivity | ].
    simpl. apply is_good_handle_done. apply done_insert.
  - rewrite Hrun.
    rewrite (IH n _ v' (acc ++ [v]));
      [ now rewrite <- app_assoc | simpl in Hfuel; lia | apply lookup_insert_eq ].
Qed.

(** A generator that has not started and whose body yields [l]: the loop
    collects [l], given fuel for [length l + 1] comparisons with [end()]. *)
Lemma collect_yields a b l fuel w :
  yields run b l ->
  length l < fuel ->
  coro.heap w !! a = Some (coro.Frame Generator.promise_init b false) ->
  fst (Generator.collect run fuel (Generator.Gen (Some a)) w) = Ok (Some l).
Proof.
  intros Hy Hfuel Hf. unfold Generator.collect, bind at 1.
  rewrite (begin_live _ _ _ Hf) by reflexivity.
  unfold Generator.one_step. simpl.
  destruct Hy as [b Hend | b v b' l Hrun Hyl].
  - rewrite Hend. destruct fuel; [simpl in Hfuel; lia | ].
    rewrite iterate_done; [reflexivity | ].
    simpl. apply is_good_handle_done. apply done_insert.
  - rewrite Hrun.
    erewrite iterate_yields; [ reflexivity | exact Hyl | simpl in Hfuel; lia
                             | apply lookup_insert_eq ].
Qed.

(** [begin()] observed. *)
Lemma begin_observe_not_good w g :
  detail.is_good_handle w (Generator.m_coroutine g) = false ->
  Generator.begin_observe run g w = (Ok None, w).
Proof.
  intros H. unfold Generator.begin_observe.
  rewrite (bind_ok _ _ _ _ _ (begin_not_good _ _ H)).
  rewrite iterator_eq_end. cbn [Generator.it_coroutine]. now rewrite H.
Qed.

Lemma begin_observe_yield w a f v k :
  coro.heap w !! a = Some f ->
  coro.at_final_suspend f = false ->
  Generator.m_exception (coro.promise f) = None ->
  snd (run (coro.body f)) = co_yield v k ->
  Generator.begin_observe run (Generator.Gen (Some a)) w =
    (Ok (Some v),
     coro.World
       (<[a := coro.Frame (Generator.Promise (Some v) None) k false]> (coro.heap w))
       (coro.next w) (coro.log w ++ fst (run (coro.body f)))).
Proof.
  intros Hf Hfin Hex Hrun. unfold Generator.begin_observe, bind at 1.
  rewrite (begin_live _ _ _ Hf Hfin Hex). unfold Generator.one_step. rewrite Hrun.
  rewrite iterator_eq_end. cbn [Generator.it_coroutine].
  erewrite is_good_handle_lookup by apply lookup_world_insert. simpl.
  erewrite bind_ok;
    [ reflexivity
    | eapply iterator_deref_live; [apply lookup_world_insert | | ]; reflexivity ].
Qed.

Lemma begin_observe_return w a f :
  coro.heap w !! a = Some f ->
  coro.at_final_suspend f = false ->
  Generator.m_exception (coro.promise f) = None ->
  snd (run (coro.body f)) = co_return ->
  Generator.begin_observe run (Generator.Gen (Some a)) w =
    (Ok None,
     coro.World (<[a := coro.Frame (coro.promise f) (coro.body f) true]> (coro.heap w))
       (coro.next w) (coro.log w ++ fst (run (coro.body f)))).
Proof.
  intros Hf Hfin Hex Hrun. unfold Generator.begin_observe, bind at 1.
  rewrite (begin_live _ _ _ Hf Hfin Hex). unfold Generator.one_step. rewrite Hrun.
  rewrite iterator_eq_end. cbn [Generator.it_coroutine].
  erewrite is_good_handle_lookup by apply lookup_world_insert. reflexivity.
Qed.

Lemma begin_times_not_good w g k :
  detail.is_good_handle w (Generator.m_coroutine g) = false ->
  Generator.begin_times run k g w = (Ok (replicate k None), w).
Proof.
  intros H. induction k as [|k IH]; [reflexivity | ].
  cbn [Generator.begin_times].
  rewrite (bind_ok _ _ _ _ _ (begin_observe_not_good _ _ H)).
  now rewrite (bind_ok _ _ _ _ _ IH).
Qed.

(** Calls of [begin()] on a generator whose body is about to yield [l]:
    the first [length l] calls see the elements of [l] in order, every
    later call sees [end()]. *)
Lemma begin_times_yields a b l :
  yields run b l ->
  forall n w p,
    coro.heap w !! a = Some (coro.Frame p b false) ->
    Generator.m_exception p = None ->
    fst (Generator.begin_times run (length l + n) (Generator.Gen (Some a)) w)
    = Ok (map Some l ++ replicate n None).
Proof.
  induction 1 as [b Hend | b v b' l Hrun Hyl IH]; intros n w p Hf Hex.
  - destruct n as [|n]; [reflexivity | ]. cbn [length Nat.add Generator.begin_times].
    rewrite (bind_ok _ _ _ _ _ (begin_observe_return _ _ _ Hf eq_refl Hex Hend)).
    erewrite bind_ok;
      [ reflexivity | apply begin_times_not_good, is_good_handle_done, done_insert ].
  - cbn [length Nat.add Generator.begin_times].
    rewrite (bind_ok _ _ _ _ _ (begin_observe_yield _ _ _ _ _ Hf eq_refl Hex Hrun)).
    unfold bind.
    match goal with
    | |- context [Generator.begin_times run _ _ ?w1] =>
        assert (IH' := IH n w1 _ (lookup_world_insert _ _ _ _ _) eq_refl)
    end.
    destruct (Generator.begin_times run _ _ _) as [[os| | |] w'];
      simpl in IH'; try discriminate.
    injection IH' as ->. reflexivity.
Qed.

(** The loop that calls [begin()] where it would increment. *)
Lemma begin_loop_done w g i seen idx n :
  detail.is_good_handle w (Generator.it_coroutine i) = false ->
  Generator.begin_loop run (S n) g i seen idx w = (Ok (Some (seen, idx)), w).
Proof. intros H. simpl. now rewrite iterator_eq_end, H. Qed.

Lemma begin_loop_yields a b l :
  yields run b l ->
  forall fuel w v seen idx,
    length l + 2 <= fuel ->
    coro.heap w !! a = Some (coro.Frame (Generator.Promise (Some v) None) b false) ->
    fst (Generator.begin_loop run fuel (Generator.Gen (Some a))
           (Generator.Iter (Some a)) seen idx w)
    = Ok (Some (seen ++ v :: l, idx + S (length l))).
Proof.
  induction 1 as [b Hend | b v' b' l Hrun Hyl IH];
    intros fuel w v seen idx Hfuel Hf;
    (destruct fuel as [|n]; [simpl in Hfuel; lia | ]);
    cbn [Generator.begin_loop]; rewrite iterator_eq_end; cbn [Generator.it_coroutine];
    rewrite (is_good_handle_lookup _ _ _ Hf); cbn [coro.at_final_suspend negb];
    rewrite (bind_ok _ _ _ _ _ (iterator_deref_live _ _ _ v Hf eq_refl eq_refl));
    unfold bind at 1; rewrite (begin_live _ _ _ Hf eq_refl eq_refl);
    unfold Generator.one_step; cbn [coro.body].
  - rewrite Hend. destruct n as [|n]; [simpl in Hfuel; lia | ].
    rewrite begin_loop_done.
    + simpl. do 3 f_equal. lia.
    + apply is_good_handle_done, done_insert.
  - rewrite Hrun.
    rewrite (IH n _ v' (seen ++ [v]) (S idx));
      [ | simpl in Hfuel; lia | apply lookup_insert_eq ].
    rewrite <- app_assoc. simpl. do 3 f_equal. lia.
Qed.

Lemma advance_with_begin_yields a b l fuel w :
  yields run b l ->
  length l < fuel ->
  coro.heap w !! a = Some (coro.Frame Generator.promise_init b false) ->
  fst (Generator.advance_with_begin run fuel (Generator.Gen (Some a)) w)
  = Ok (Some (l, length l)).
Proof.
  intros Hy Hfuel Hf. unfold Generator.advance_with_begin, bind at 1.
  rewrite (begin_live _ _ _ Hf) by reflexivity.
  unfold Generator.one_step. simpl.
  destruct Hy as [b Hend | b v b' l Hrun Hyl].
  - rewrite Hend. destruct fuel; [simpl in Hfuel; lia | ].
    rewrite begin_loop_done; [reflexivity | ].
    apply is_good_handle_done, done_insert.
  - rewrite Hrun.
    erewrite begin_loop_yields; [ reflexivity | exact Hyl | simpl in Hfuel; lia
                                | apply lookup_insert_eq ].
Qed.

End GeneratorFacts.

(** ** Asynchronous generator *)

Section AsyncGeneratorFacts.
Context {T B E : Type} (run : B -> list E * production B T).
Implicit Types (w : coro.world (AsyncGenerator.promise_type T) B E).
Implicit Types (f : coro.frame (AsyncGenerator.promise_type T) B).

Lemma co_await_default c w :
  AsyncGenerator.co_await run c AsyncGenerator.advance_op_default w
  = (Ok (Some (AsyncGenerator.Iter None)), w).
Proof. reflexivity. Qed.

Lemma await_suspend_lookup c w a f :
  coro.heap w !! a = Some f ->
  AsyncGenerator.await_suspend (Some c) (AsyncGenerator.advance_op_of (Some a)) w =
    (Ok (Some a),
     coro.World
       (<[a := coro.Frame (AsyncGenerator.set_consumer T (Some c) (coro.promise f))
                 (coro.body f) (coro.at_final_suspend f)]> (coro.heap w))
       (coro.next w) (coro.log w)).
Proof.
  intros Hf. unfold AsyncGenerator.await_suspend. simpl.
  rewrite (bind_ok _ _ _ _ _ (get_promise_lookup _ _ _ Hf)).
  now rewrite (bind_ok _ _ _ _ _ (set_promise_lookup _ _ _ _ Hf)).
Qed.

Lemma async_resume_live w a f :
  coro.heap w !! a = Some f ->
  coro.at_final_suspend f = false ->
  AsyncGenerator.resume run a w =
    (Ok match snd (run (coro.body f)) with
        | produced _ => AsyncGenerator.m_consumer (coro.promise f)
        | stalled _ => None
        end,
     coro.World
       (<[a := match snd (run (coro.body f)) with
               | produced (co_yield v k) =>
                   coro.Frame
                     (AsyncGenerator.Promise (Some v)
                        (AsyncGenerator.m_consumer (coro.promise f))
                        (AsyncGenerator.m_exception (coro.promise f))) k false
               | produced co_return =>
                   coro.Frame
                     (AsyncGenerator.Promise None
                        (AsyncGenerator.m_consumer (coro.promise f))
                        (AsyncGenerator.m_exception (coro.promise f)))
                     (coro.body f) true
               | produced (co_throw e) =>
                   coro.Frame
                     (AsyncGenerator.Promise None
                        (AsyncGenerator.m_consumer (coro.promise f)) (Some e))
                     (coro.body f) true
               | stalled k => coro.Frame (coro.promise f) k false
               end]> (coro.heap w))
       (coro.next w) (coro.log w ++ fst (run (coro.body f)))).
Proof.
  intros Hf Hfin. unfold AsyncGenerator.resume. rewrite Hf, Hfin.
  destruct (run (coro.body f)) as [evs [[v k| |e] | k]]; reflexivity.
Qed.

Lemma await_resume_lookup w a f :
  coro.heap w !! a = Some f ->
  AsyncGenerator.await_resume (AsyncGenerator.advance_op_of (Some a)) w =
    match AsyncGenerator.m_current_value (coro.promise f),
          AsyncGenerator.m_exception (coro.promise f) with
    | Some _, _ => (Ok (AsyncGenerator.Iter (Some a)), w)
    | None, None =>
        (Ok (AsyncGenerator.Iter None),
         coro.World (<[a := f]> (coro.heap w)) (coro.next w) (coro.log w))
    | None, Some e =>
        (Throw e,
         coro.World
           (<[a := coro.Frame
                     (AsyncGenerator.Promise None
                        (AsyncGenerator.m_consumer (coro.promise f)) None)
                     (coro.body f) (coro.at_final_suspend f)]> (coro.heap w))
           (coro.next w) (coro.log w))
    end.
Proof.
  intros Hf. unfold AsyncGenerator.await_resume. simpl.
  rewrite (bind_ok _ _ _ _ _ (get_promise_lookup _ _ _ Hf)).
  unfold AsyncGenerator.finished, AsyncGenerator.rethrow_if_unhandled_exception.
  destruct f as [[[v|] c [e|]] b fin]; simpl; try reflexivity.
  - now rewrite (bind_ok _ _ _ _ _ (set_promise_lookup _ _ _ _ Hf)).
  - now rewrite (bind_ok _ _ _ _ _ (set_promise_lookup _ _ _ _ Hf)).
Qed.

Lemma co_await_live c w a f :
  coro.heap w !! a = Some f ->
  coro.at_final_suspend f = false ->
  AsyncGenerator.m_exception (coro.promise f) = None ->
  AsyncGenerator.co_await run c (AsyncGenerator.advance_op_of (Some a)) w
  = AsyncGenerator.one_step run c a f w.
Proof.
  intros Hf Hfin Hex.
  unfold AsyncGenerator.co_await, AsyncGenerator.one_step.
  cbn [AsyncGenerator.await_ready AsyncGenerator.advance_op_of
       AsyncGenerator.addressof_promise AsyncGenerator.m_promise].
  rewrite (bind_ok _ _ _ _ _ (await_suspend_lookup c _ _ _ Hf)).
  erewrite bind_ok;
    [ | apply async_resume_live; [apply lookup_world_insert | exact Hfin] ].
  cbn [coro.promise coro.body AsyncGenerator.set_consumer AsyncGenerator.m_consumer
       AsyncGenerator.m_exception AsyncGenerator.m_current_value coro.heap coro.next
       coro.log].
  rewrite Hex.
  destruct (snd (run (coro.body f))) as [[v k| |e] | k];
    [ rewrite bool_decide_eq_true_2 by reflexivity;
      unfold bind at 1;
      erewrite await_resume_lookup by apply lookup_world_insert;
      now heap_simpl .. | ].
  unfold AsyncGenerator.set_consumer. rewrite Hex. cbn [ret]. now heap_simpl.
Qed.

Lemma await_begin_not_good c w g :
  detail.is_good_handle w (AsyncGenerator.m_coroutine g) = false ->
  AsyncGenerator.await_begin run c g w = (Ok (Some (AsyncGenerator.Iter None)), w).
Proof.
  intros H. unfold AsyncGenerator.await_begin, AsyncGenerator.begin. now rewrite H.
Qed.

Lemma await_begin_live c w a f :
  coro.heap w !! a = Some f ->
  coro.at_final_suspend f = false ->
  AsyncGenerator.m_exception (coro.promise f) = None ->
  AsyncGenerator.await_begin run c (AsyncGenerator.Gen (Some a)) w
  = AsyncGenerator.one_step run c a f w.
Proof.
  intros Hf Hfin Hex. unfold AsyncGenerator.await_begin, AsyncGenerator.begin. simpl.
  rewrite (is_good_handle_lookup _ _ _ Hf), Hfin. simpl.
  now apply co_await_live.
Qed.

Lemma async_iterator_deref_live w a f v :
  coro.heap w !! a = Some f ->
  coro.at_final_suspend f = false ->
  AsyncGenerator.m_current_value (coro.promise f) = Some v ->
  AsyncGenerator.iterator_deref (AsyncGenerator.Iter (Some a)) w = (Ok v, w).
Proof.
  intros Hf Hfin Hv. unfold AsyncGenerator.iterator_deref. simpl.
  rewrite (is_good_handle_lookup _ _ _ Hf), Hfin. simpl.
  unfold bind, coro.get_promise. rewrite Hf. unfold AsyncGenerator.value. now rewrite Hv.
Qed.

End AsyncGeneratorFacts.

(** A body that awaits nothing that stalls yields as an asynchronous body
    what it yields as a generator body. *)
Lemma async_yields_steady {T B E : Type} (run : B -> list E * suspension B T) b l :
  yields run b l -> async_yields (steady run) b l.
Proof.
  induction 1 as [b Hend | b v b' l Hrun _ IH].
  - apply async_yields_end. unfold steady. cbn [snd]. now rewrite Hend.
  - apply (async_yields_more _ _ _ b'); [ | exact IH ].
    unfold steady. cbn [snd]. now rewrite Hrun.
Qed.

Lemma async_throws_steady {T B E : Type} (run : B -> list E * suspension B T) b l e :
  yields_then_throws run b l e -> async_yields_then_throws (steady run) b l e.
Proof.
  induction 1 as [b e Hthrow | b v b' l e Hrun _ IH].
  - apply async_throws_now. unfold steady. cbn [snd]. now rewrite Hthrow.
  - apply (async_throws_later _ _ _ b'); [ | exact IH ].
    unfold steady. cbn [snd]. now rewrite Hrun.
Qed.

(** A body that stops at no [co_await] on the way yields its sequence in
    the weaker sense too. *)
Lemma async_yields_eventually {T B E : Type} (run : B -> list E * production B T) b l :
  async_yields run b l -> eventually_yields run b l.
Proof.
  induction 1 as [b Hend | b v b' l Hrun _ IH].
  - now apply eventually_end.
  - now apply (eventually_more _ _ _ b').
Qed.

(** ** Synchronous adapter *)

Section AdapterFacts.
Context {T B E : Type} (run : B -> list E * production B T).
Implicit Types (w : coro.world (AsyncGenerator.promise_type T) B E).
Implicit Types (f : coro.frame (AsyncGenerator.promise_type T) B).

(** The eager coroutine of [advance()] takes the next address and awaits
    the stored operation; a failure that the operation rethrows ends in
    [std::terminate]; when the producer stops on the way, [m_it] keeps its
    value. *)
Lemma adapter_advance_live w a f it0 :
  coro.heap w !! a = Some f ->
  coro.at_final_suspend f = false ->
  AsyncGenerator.m_exception (coro.promise f) = None ->
  SyncGeneratorAdapter.advance run
    (SyncGeneratorAdapter.Iter (AsyncGenerator.advance_op_of (Some a)) it0) w =
    match AsyncGenerator.one_step run (coro.next w) a f
            (coro.World (coro.heap w) (S (coro.next w)) (coro.log w)) with
    | (Ok (Some it), w') =>
        (Ok (SyncGeneratorAdapter.Iter (AsyncGenerator.advance_op_of (Some a)) it), w')
    | (Ok None, w') =>
        (Ok (SyncGeneratorAdapter.Iter (AsyncGenerator.advance_op_of (Some a)) it0), w')
    | (Throw e, w') => (Terminate, w')
    | (Terminate, w') => (Terminate, w')
    | (Undefined, w') => (Undefined, w')
    end.
Proof.
  intros Hf Hfin Hex. unfold SyncGeneratorAdapter.advance, EagerTask.call.
  cbn [SyncGeneratorAdapter.m_op]. unfold bind at 1.
  rewrite (co_await_live run _ _ a f) by assumption.
  destruct (AsyncGenerator.one_step _ _ _ _ _) as [[[it|]| | |] w']; reflexivity.
Qed.

Lemma adapter_begin_live w a f :
  coro.heap w !! a = Some f ->
  coro.at_final_suspend f = false ->
  AsyncGenerator.m_exception (coro.promise f) = None ->
  SyncGeneratorAdapter.begin run
    (SyncGeneratorAdapter.Adapter (AsyncGenerator.Gen (Some a))) w =
    match AsyncGenerator.one_step run (coro.next w) a f
            (coro.World (coro.heap w) (S (coro.next w)) (coro.log w)) with
    | (Ok (Some it), w') =>
        (Ok (SyncGeneratorAdapter.Iter (AsyncGenerator.advance_op_of (Some a)) it), w')
    | (Ok None, w') =>
        (Ok (SyncGeneratorAdapter.Iter (AsyncGenerator.advance_op_of (Some a))
               (AsyncGenerator.Iter None)), w')
    | (Throw e, w') => (Terminate, w')
    | (Terminate, w') => (Terminate, w')
    | (Undefined, w') => (Undefined, w')
    end.
Proof.
  intros Hf Hfin Hex.
  unfold SyncGeneratorAdapter.begin, SyncGeneratorAdapter.iterator_of_op,
    AsyncGenerator.begin. simpl.
  rewrite (is_good_handle_lookup _ _ _ Hf), Hfin. simpl.
  now apply adapter_advance_live.
Qed.

Lemma adapter_begin_not_good w s :
  detail.is_good_handle w
    (AsyncGenerator.m_coroutine (SyncGeneratorAdapter.m_gen s)) = false ->
  SyncGeneratorAdapter.begin run s w =
    (Ok (SyncGeneratorAdapter.Iter AsyncGenerator.advance_op_default
           (AsyncGenerator.Iter None)),
     coro.World (coro.heap w) (S (coro.next w)) (coro.log w)).
Proof.
  intros H.
  unfold SyncGeneratorAdapter.begin, SyncGeneratorAdapter.iterator_of_op,
    AsyncGenerator.begin.
  now rewrite H.
Qed.

Lemma adapter_iterator_eq_end w it s :
  SyncGeneratorAdapter.iterator_eq w it (SyncGeneratorAdapter.end_ s) =
  negb (detail.is_good_handle w
          (AsyncGenerator.it_coroutine (SyncGeneratorAdapter.m_it it))).
Proof.
  unfold SyncGeneratorAdapter.iterator_eq, AsyncGenerator.iterator_eq. simpl.
  rewrite andb_true_r.
  destruct it as [op [[a|]]]; reflexivity.
Qed.

Lemma adapter_iterate_done w s it acc n :
  detail.is_good_handle w
    (AsyncGenerator.it_coroutine (SyncGeneratorAdapter.m_it it)) = false ->
  SyncGeneratorAdapter.iterate run (S n) s it acc w = (Ok (Some acc), w).
Proof. intros H. simpl. now rewrite adapter_iterator_eq_end, H. Qed.

(** One turn of the loop over the adapter on a live producer. *)
Lemma adapter_iterate_live a s n w f v acc :
  coro.heap w !! a = Some f ->
  coro.at_final_suspend f = false ->
  AsyncGenerator.m_current_value (coro.promise f) = Some v ->
  AsyncGenerator.m_exception (coro.promise f) = None ->
  SyncGeneratorAdapter.iterate run (S n) s
    (SyncGeneratorAdapter.Iter (AsyncGenerator.advance_op_of (Some a))
       (AsyncGenerator.Iter (Some a))) acc w =
    match AsyncGenerator.one_step run (coro.next w) a f
            (coro.World (coro.heap w) (S (coro.next w)) (coro.log w)) with
    | (Ok (Some it), w') =>
        SyncGeneratorAdapter.iterate run n s
          (SyncGeneratorAdapter.Iter (AsyncGenerator.advance_op_of (Some a)) it)
          (acc ++ [v]) w'
    | (Ok None, w') =>
        SyncGeneratorAdapter.iterate run n s
          (SyncGeneratorAdapter.Iter (AsyncGenerator.advance_op_of (Some a))
             (AsyncGenerator.Iter (Some a)))
          (acc ++ [v]) w'
    | (Throw e, w') => (Terminate, w')
    | (Terminate, w') => (Terminate, w')
    | (Undefined, w') => (Undefined, w')
    end.
Proof.
  intros Hf Hfin Hv Hex. cbn [SyncGeneratorAdapter.iterate].
  rewrite adapter_iterator_eq_end. simpl.
  rewrite (is_good_handle_lookup _ _ _ Hf), Hfin. simpl. unfold bind at 1.
  unfold SyncGeneratorAdapter.iterator_deref. simpl.
  rewrite (async_iterator_deref_live _ _ _ v Hf Hfin Hv).
  unfold bind at 1. unfold SyncGeneratorAdapter.iterator_incr.
  rewrite (adapter_advance_live _ _ _ _ Hf Hfin Hex).
  destruct (AsyncGenerator.one_step _ _ _ _ _) as [[[it|]| | |] w']; reflexivity.
Qed.

Lemma adapter_iterate_yields a s b l :
  async_yields run b l ->
  forall fuel w c v acc,
    length l + 2 <= fuel ->
    coro.heap w !! a
      = Some (coro.Frame (AsyncGenerator.Promise (Some v) c None) b false) ->
    fst (SyncGeneratorAdapter.iterate run fuel s
           (SyncGeneratorAdapter.Iter (AsyncGenerator.advance_op_of (Some a))
              (AsyncGenerator.Iter (Some a))) acc w)
    = Ok (Some (acc ++ v :: l)).
Proof.
  induction 1 as [b Hend | b v' b' l Hrun Hyl IH];
    intros fuel w c v acc Hfuel Hf;
    (destruct fuel as [|n]; [simpl in Hfuel; lia | ]);
    rewrite (adapter_iterate_live _ _ _ _ _ v _ Hf) by reflexivity;
    unfold AsyncGenerator.one_step; cbn [coro.body].
  - rewrite Hend. destruct n as [|n]; [simpl in Hfuel; lia | ].
    now rewrite adapter_iterate_done.
  - rewrite Hrun.
    rewrite (IH n _ (Some (coro.next w)) v' (acc ++ [v]));
      [ now rewrite <- app_assoc | simpl in Hfuel; lia | apply lookup_insert_eq ].
Qed.

Lemma adapter_collect_yields a b l fuel w :
  async_yields run b l ->
  length l < fuel ->
  coro.heap w !! a = Some (coro.Frame AsyncGenerator.promise_init b false) ->
  fst (SyncGeneratorAdapter.collect run fuel
         (SyncGeneratorAdapter.Adapter (AsyncGenerator.Gen (Some a))) w)
  = Ok (Some l).
Proof.
  intros Hy Hfuel Hf. unfold SyncGeneratorAdapter.collect, bind at 1.
  rewrite (adapter_begin_live _ _ _ Hf) by reflexivity.
  unfold AsyncGenerator.one_step. simpl.
  destruct Hy as [b Hend | b v b' l Hrun Hyl].
  - rewrite Hend. destruct fuel; [simpl in Hfuel; lia | ].
    now rewrite adapter_iterate_done.
  - rewrite Hrun.
    erewrite adapter_iterate_yields; [ reflexivity | exact Hyl | simpl in Hfuel; lia
                                     | apply lookup_insert_eq ].
Qed.

(** [begin()] of the adapter observed. *)
Lemma adapter_begin_observe_not_good w s :
  detail.is_good_handle w
    (AsyncGenerator.m_coroutine (SyncGeneratorAdapter.m_gen s)) = false ->
  SyncGeneratorAdapter.begin_observe run s w =
    (Ok None, coro.World (coro.heap w) (S (coro.next w)) (coro.log w)).
Proof.
  intros H. unfold SyncGeneratorAdapter.begin_observe.
  now rewrite (bind_ok _ _ _ _ _ (adapter_begin_not_good _ _ H)).
Qed.

Lemma adapter_begin_observe_yield w a f v k :
  coro.heap w !! a = Some f ->
  coro.at_final_suspend f = false ->
  AsyncGenerator.m_exception (coro.promise f) = None ->
  snd (run (coro.body f)) = produced (co_yield v k) ->
  SyncGeneratorAdapter.begin_observe run
    (SyncGeneratorAdapter.Adapter (AsyncGenerator.Gen (Some a))) w =
    (Ok (Some v),
     coro.World
       (<[a := coro.Frame (AsyncGenerator.Promise (Some v) (Some (coro.next w)) None)
                 k false]> (coro.heap w))
       (S (coro.next w)) (coro.log w ++ fst (run (coro.body f)))).
Proof.
  intros Hf Hfin Hex Hrun. unfold SyncGeneratorAdapter.begin_observe, bind at 1.
  rewrite (adapter_begin_live _ _ _ Hf Hfin Hex).
  unfold AsyncGenerator.one_step. rewrite Hrun.
  rewrite adapter_iterator_eq_end.
  cbn [SyncGeneratorAdapter.m_it AsyncGenerator.it_coroutine coro.heap coro.next coro.log].
  erewrite is_good_handle_lookup by apply lookup_world_insert.
  cbn [coro.at_final_suspend negb]. unfold SyncGeneratorAdapter.iterator_deref.
  erewrite bind_ok;
    [ reflexivity
    | eapply async_iterator_deref_live; [apply lookup_world_insert | | ]; reflexivity ].
Qed.

Lemma adapter_begin_observe_return w a f :
  coro.heap w !! a = Some f ->
  coro.at_final_suspend f = false ->
  AsyncGenerator.m_exception (coro.promise f) = None ->
  snd (run (coro.body f)) = produced co_return ->
  SyncGeneratorAdapter.begin_observe run
    (SyncGeneratorAdapter.Adapter (AsyncGenerator.Gen (Some a))) w =
    (Ok None,
     coro.World
       (<[a := coro.Frame (AsyncGenerator.Promise None (Some (coro.next w)) None)
                 (coro.body f) true]> (coro.heap w))
       (S (coro.next w)) (coro.log w ++ fst (run (coro.body f)))).
Proof.
  intros Hf Hfin Hex Hrun. unfold SyncGeneratorAdapter.begin_observe, bind at 1.
  rewrite (adapter_begin_live _ _ _ Hf Hfin Hex).
  unfold AsyncGenerator.one_step. rewrite Hrun.
  now rewrite adapter_iterator_eq_end.
Qed.

Lemma adapter_begin_times_not_good s k :
  forall w,
    detail.is_good_handle w
      (AsyncGenerator.m_coroutine (SyncGeneratorAdapter.m_gen s)) = false ->
    SyncGeneratorAdapter.begin_times run k s w =
      (Ok (replicate k None),
       coro.World (coro.heap w) (k + coro.next w) (coro.log w)).
Proof.
  induction k as [|k IH]; intros w H; [now destruct w | ].
  cbn [SyncGeneratorAdapter.begin_times].
  rewrite (bind_ok _ _ _ _ _ (adapter_begin_observe_not_good _ _ H)).
  erewrite bind_ok by (apply IH; exact H). unfold ret. simpl.
  do 2 f_equal. lia.
Qed.

(** Calls of [begin()] on an adapter whose producer is about to yield [l]:
    the first [length l] calls see the elements of [l] in order, every
    later call sees [end()]. *)
Lemma adapter_begin_times_yields a b l :
  async_yields run b l ->
  forall n w p,
    coro.heap w !! a = Some (coro.Frame p b false) ->
    AsyncGenerator.m_exception p = None ->
    fst (SyncGeneratorAdapter.begin_times run (length l + n)
           (SyncGeneratorAdapter.Adapter (AsyncGenerator.Gen (Some a))) w)
    = Ok (map Some l ++ replicate n None).
Proof.
  induction 1 as [b Hend | b v b' l Hrun Hyl IH]; intros n w p Hf Hex.
  - destruct n as [|n]; [reflexivity | ].
    cbn [length Nat.add SyncGeneratorAdapter.begin_times].
    rewrite (bind_ok _ _ _ _ _ (adapter_begin_observe_return _ _ _ Hf eq_refl Hex Hend)).
    erewrite bind_ok;
      [ reflexivity
      | apply adapter_begin_times_not_good, is_good_handle_done, done_insert ].
  - cbn [length Nat.add SyncGeneratorAdapter.begin_times].
    rewrite (bind_ok _ _ _ _ _ (adapter_begin_observe_yield _ _ _ _ _ Hf eq_refl Hex Hrun)).
    unfold bind.
    match goal with
    | |- context [SyncGeneratorAdapter.begin_times run _ _ ?w1] =>
        assert (IH' := IH n w1 _ (lookup_world_insert _ _ _ _ _) eq_refl)
    end.
    destruct (SyncGeneratorAdapter.begin_times run _ _ _) as [[os| | |] w'];
      simpl in IH'; try discriminate.
    injection IH' as ->. reflexivity.
Qed.

End AdapterFacts.

(** ** Task *)

Section TaskFacts.
Context {S R B E : Type} {PT : Task.promise_type S R}.
Context (run : B -> list E * Task.step B R).
Implicit Types (w : coro.world (Task.promise S) B E).
Implicit Types (f : coro.frame (Task.promise S) B).

Lemma task_resume_frame w a f :
  coro.heap w !! a = Some f ->
  coro.at_final_suspend f = false ->
  Task.resume run a w =
    (Ok match snd (run (coro.body f)) with
        | Task.suspended _ => None
        | _ => Task.m_next (Task.base (coro.promise f))
        end,
     coro.World
       (<[a := match snd (run (coro.body f)) with
               | Task.suspended k => coro.Frame (coro.promise f) k false
               | Task.returned r =>
                   coro.Frame
                     (Task.Promise (Task.base (coro.promise f))
                        (Task.return_value r (Task.m_result (coro.promise f))))
                     (coro.body f) true
               | Task.threw e =>
                   coro.Frame
                     (Task.Promise
                        (Task.Base (Task.m_next (Task.base (coro.promise f))) (Some e))
                        (Task.m_result (coro.promise f)))
                     (coro.body f) true
               end]> (coro.heap w))
       (coro.next w) (coro.log w ++ fst (run (coro.body f)))).
Proof.
  intros Hf Hfin. unfold Task.resume. rewrite Hf, Hfin.
  destruct (run (coro.body f)) as [evs [k|r|e]]; simpl; try reflexivity;
    unfold Task.final_suspend_await_suspend, Task.unhandled_exception; simpl;
    destruct (Task.m_next (Task.base (coro.promise f))); reflexivity.
Qed.

(** [task::resume()] on an unfinished task runs the body once and tells
    whether the task is still unfinished. *)
Lemma task_resume_live w a f :
  coro.heap w !! a = Some f ->
  coro.at_final_suspend f = false ->
  Task.task_resume run (Task.Task (Some a)) w =
    (Ok match snd (run (coro.body f)) with
        | Task.suspended _ => true
        | _ => false
        end,
     snd (Task.resume run a w)).
Proof.
  intros Hf Hfin. unfold Task.task_resume, Task.is_ready. simpl.
  unfold bind at 1. rewrite is_ready_not_good, (is_good_handle_lookup _ _ _ Hf), Hfin.
  simpl. unfold bind at 1. rewrite (task_resume_frame _ _ _ Hf Hfin). simpl.
  rewrite is_ready_not_good. unfold detail.is_good_handle. simpl.
  rewrite done_insert.
  destruct (snd (run (coro.body f))); reflexivity.
Qed.

Lemma task_resume_ready w t :
  Task.is_ready w t = true -> Task.task_resume run t w = (Ok false, w).
Proof.
  intros H. unfold Task.task_resume, bind. rewrite H. simpl. now rewrite H.
Qed.

Lemma result_value_empty w :
  Task.result_value (Task.Task None) w = (Throw bad_task, w).
Proof. reflexivity. Qed.

Lemma result_value_lookup w a f :
  coro.heap w !! a = Some f ->
  Task.result_value (Task.Task (Some a)) w =
    (Task.promise_result_value (coro.promise f), w).
Proof.
  intros Hf. unfold Task.result_value. simpl. unfold bind at 1. simpl.
  now rewrite (bind_ok _ _ _ _ _ (get_promise_lookup _ _ _ Hf)).
Qed.

(** A stored exception is what every access to the result throws. *)
Lemma promise_result_value_exception (p : Task.promise S) e :
  Task.m_exception (Task.base p) = Some e ->
  Task.promise_result_value p = Throw e.
Proof.
  intros H. unfold Task.promise_result_value, Task.rethrow_if_exception. now rewrite H.
Qed.

Lemma promise_result_value_stored (p : Task.promise S) :
  Task.m_exception (Task.base p) = None ->
  Task.promise_result_value p = Task.stored_result (Task.m_result p).
Proof.
  intros H. unfold Task.promise_result_value, Task.rethrow_if_exception. now rewrite H.
Qed.

(** Awaiting a task that is ready does not suspend: the result of the
    [co_await] is that of [await_resume()]. *)
Lemma task_co_await_ready c w t :
  Task.is_ready w t = true ->
  Task.co_await run c t w =
    (r <- Task.await_resume (Task.operator_co_await t) ;; ret (Some r)) w.
Proof.
  intros H. unfold Task.co_await, Task.await_ready. simpl.
  unfold Task.is_ready in H. now rewrite H.
Qed.

Lemma task_co_await_empty c w :
  Task.co_await run c (Task.Task None) w = (Throw bad_task, w).
Proof. reflexivity. Qed.

Lemma task_co_await_done c w a f :
  coro.heap w !! a = Some f ->
  coro.at_final_suspend f = true ->
  Task.co_await run c (Task.Task (Some a)) w =
    match Task.promise_result_value (coro.promise f) with
    | Ok r => (Ok (Some r), w)
    | Throw e => (Throw e, w)
    | Terminate => (Terminate, w)
    | Undefined => (Undefined, w)
    end.
Proof.
  intros Hf Hfin. rewrite task_co_await_ready.
  - unfold Task.await_resume. simpl. unfold bind at 1. unfold bind at 1. simpl.
    rewrite (bind_ok _ _ _ _ _ (get_promise_lookup _ _ _ Hf)).
    destruct (Task.promise_result_value (coro.promise f)); reflexivity.
  - unfold Task.is_ready. rewrite is_ready_not_good. simpl.
    now rewrite (is_good_handle_lookup _ _ _ Hf), Hfin.
Qed.

(** Awaiting an unfinished task: the continuation is recorded, the task
    runs, and the awaiting coroutine goes on when the task has ended. *)
Lemma task_co_await_live c w a f :
  coro.heap w !! a = Some f ->
  coro.at_final_suspend f = false ->
  Task.m_exception (Task.base (coro.promise f)) = None ->
  Task.co_await run c (Task.Task (Some a)) w =
    match snd (run (coro.body f)) with
    | Task.suspended k =>
        (Ok None,
         coro.World
           (<[a := coro.Frame (Task.set_next (Some c) (coro.promise f)) k false]>
              (coro.heap w))
           (coro.next w) (coro.log w ++ fst (run (coro.body f))))
    | Task.returned r =>
        (match Task.stored_result (Task.return_value r (Task.m_result (coro.promise f))) with
         | Ok r' => Ok (Some r')
         | Throw e => Throw e
         | Terminate => Terminate
         | Undefined => Undefined
         end,
         coro.World
           (<[a := coro.Frame
                     (Task.Promise (Task.Base (Some c) None)
                        (Task.return_value r (Task.m_result (coro.promise f))))
                     (coro.body f) true]> (coro.heap w))
           (coro.next w) (coro.log w ++ fst (run (coro.body f))))
    | Task.threw e =>
        (Throw e,
         coro.World
           (<[a := coro.Frame
                     (Task.Promise (Task.Base (Some c) (Some e))
                        (Task.m_result (coro.promise f)))
                     (coro.body f) true]> (coro.heap w))
           (coro.next w) (coro.log w ++ fst (run (coro.body f))))
    end.
Proof.
  intros Hf Hfin Hex. unfold Task.co_await, Task.await_ready. simpl.
  rewrite is_ready_not_good, (is_good_handle_lookup _ _ _ Hf), Hfin. simpl.
  unfold Task.await_suspend. simpl.
  unfold bind at 1. unfold bind at 1.
  rewrite (get_promise_lookup _ _ _ Hf).
  unfold bind at 1. rewrite (set_promise_lookup _ _ _ _ Hf). unfold ret at 1.
  erewrite bind_ok;
    [ | apply task_resume_frame; [apply lookup_world_insert | exact Hfin] ].
  cbn [coro.promise coro.body coro.heap coro.next coro.log Task.set_next Task.base
       Task.m_next Task.m_result Task.m_exception].
  rewrite Hex.
  destruct (snd (run (coro.body f))) as [k|r|e].
  - rewrite bool_decide_eq_false_2 by discriminate. unfold ret. now heap_simpl.
  - rewrite bool_decide_eq_true_2 by reflexivity.
    unfold Task.await_resume. simpl. unfold bind at 1. unfold bind at 1. simpl.
    erewrite bind_ok by (apply get_promise_lookup, lookup_world_insert).
    cbn [coro.promise]. rewrite promise_result_value_stored by reflexivity.
    cbn [Task.m_result]. unfold ret.
    destruct (Task.stored_result _); now heap_simpl.
  - rewrite bool_decide_eq_true_2 by reflexivity.
    unfold Task.await_resume. simpl. unfold bind at 1. unfold bind at 1. simpl.
    erewrite bind_ok by (apply get_promise_lookup, lookup_world_insert).
    cbn [coro.promise]. rewrite (promise_result_value_exception _ e) by reflexivity.
    now heap_simpl.
Qed.

End TaskFacts.

(** ** The states that can be reached

    The theorems below ask of a live frame that its promise holds no
    exception. That is so in every state that the operations can reach
    from the empty state. *)

Section Reachable.
Context {T B E : Type} (run : B -> list E * suspension B T).
Context (arun : B -> list E * production B T).

Lemma insert_keeps {P : Type} (Q : coro.frame P B -> Prop)
    (m : gmap nat (coro.frame P B)) a f :
  (forall a' f', m !! a' = Some f' -> Q f') ->
  Q f ->
  forall a' f', <[a := f]> m !! a' = Some f' -> Q f'.
Proof.
  intros Hm Hf a' f'. destruct (decide (a = a')) as [<- | Hne].
  - rewrite lookup_insert_eq. now intros [= <-].
  - rewrite lookup_insert_ne by exact Hne. apply Hm.
Qed.

Lemma generator_settled_empty :
  Generator.settled (coro.empty : coro.world (Generator.promise_type T) B E).
Proof. intros a f H. simpl in H. now rewrite lookup_empty in H. Qed.

Lemma generator_settled_create b (w : coro.world (Generator.promise_type T) B E) :
  Generator.settled w -> Generator.settled (snd (Generator.create run b w)).
Proof.
  intros Hw. unfold Generator.settled. simpl.
  apply (insert_keeps
           (fun f => coro.at_final_suspend f = false ->
                     Generator.m_exception (coro.promise f) = None));
    [exact Hw | reflexivity].
Qed.

Lemma generator_settled_advance g (w : coro.world (Generator.promise_type T) B E) :
  Generator.settled w -> Generator.settled (snd (Generator.advance run g w)).
Proof.
  intros Hw.
  destruct (detail.is_good_handle w (Generator.m_coroutine g)) eqn:Hgood.
  - destruct g as [[a|]]; [ | discriminate Hgood ].
    simpl in Hgood. destruct (coro.heap w !! a) as [f|] eqn:Hf.
    + rewrite (is_good_handle_lookup _ _ _ Hf) in Hgood.
      apply negb_true_iff in Hgood.
      rewrite (advance_live run _ _ _ Hf Hgood (Hw _ _ Hf Hgood)).
      unfold Generator.one_step, Generator.settled.
      destruct (snd (run (coro.body f))); simpl;
        apply (insert_keeps
                 (fun f => coro.at_final_suspend f = false ->
                           Generator.m_exception (coro.promise f) = None));
        try exact Hw; try reflexivity; discriminate.
    + unfold Generator.advance. simpl. rewrite Hgood.
      unfold bind, Generator.resume. now rewrite Hf.
  - now rewrite (advance_not_good run _ _ Hgood).
Qed.

Lemma generator_settled_begin g (w : coro.world (Generator.promise_type T) B E) :
  Generator.settled w -> Generator.settled (snd (Generator.begin run g w)).
Proof.
  intros Hw. pose proof (generator_settled_advance g w Hw) as H.
  unfold Generator.begin, bind.
  destruct (Generator.advance run g w) as [[] w']; exact H.
Qed.

Lemma generator_settled_incr i (w : coro.world (Generator.promise_type T) B E) :
  Generator.settled w -> Generator.settled (snd (Generator.iterator_incr run i w)).
Proof.
  intros Hw.
  destruct (detail.is_good_handle w (Generator.it_coroutine i)) eqn:Hgood.
  - destruct i as [[a|]]; [ | discriminate Hgood ].
    rewrite (iterator_incr_good run _ _ Hgood).
    pose proof (generator_settled_advance (Generator.Gen (Some a)) w Hw) as H.
    unfold bind. destruct (Generator.advance run _ w) as [[] w']; exact H.
  - now rewrite (iterator_incr_not_good run _ _ Hgood).
Qed.

Lemma async_settled_empty :
  AsyncGenerator.settled (coro.empty : coro.world (AsyncGenerator.promise_type T) B E).
Proof. intros a f H. simpl in H. now rewrite lookup_empty in H. Qed.

Lemma async_settled_create b (w : coro.world (AsyncGenerator.promise_type T) B E) :
  AsyncGenerator.settled w -> AsyncGenerator.settled (snd (AsyncGenerator.create arun b w)).
Proof.
  intros Hw. unfold AsyncGenerator.settled. simpl.
  apply (insert_keeps
           (fun f => coro.at_final_suspend f = false ->
                     AsyncGenerator.m_exception (coro.promise f) = None));
    [exact Hw | reflexivity].
Qed.

Lemma async_settled_await_begin c g (w : coro.world (AsyncGenerator.promise_type T) B E) :
  AsyncGenerator.settled w ->
  AsyncGenerator.settled (snd (AsyncGenerator.await_begin arun c g w)).
Proof.
  intros Hw.
  destruct (detail.is_good_handle w (AsyncGenerator.m_coroutine g)) eqn:Hgood.
  - destruct g as [[a|]]; [ | discriminate Hgood ].
    simpl in Hgood. destruct (coro.heap w !! a) as [f|] eqn:Hf.
    + rewrite (is_good_handle_lookup _ _ _ Hf) in Hgood.
      apply negb_true_iff in Hgood.
      rewrite (await_begin_live arun c _ _ _ Hf Hgood (Hw _ _ Hf Hgood)).
      unfold AsyncGenerator.one_step, AsyncGenerator.settled.
      destruct (snd (arun (coro.body f))) as [[v k| |e] | k]; simpl;
        apply (insert_keeps
                 (fun f => coro.at_final_suspend f = false ->
                           AsyncGenerator.m_exception (coro.promise f) = None));
        try exact Hw; try reflexivity; discriminate.
    + unfold AsyncGenerator.await_begin, AsyncGenerator.begin. simpl. rewrite Hgood.
      unfold AsyncGenerator.co_await. simpl.
      unfold bind, AsyncGenerator.await_suspend. simpl.
      unfold bind, coro.get_promise. now rewrite Hf.
  - now rewrite (await_begin_not_good arun c _ _ Hgood).
Qed.

End Reachable.

Section ReachableTask.
Context {St R B E : Type} {PT : Task.promise_type St R}.
Context (run : B -> list E * Task.step B R).

Lemma task_settled_empty :
  Task.settled (coro.empty : coro.world (Task.promise St) B E).
Proof. intros a f H. simpl in H. now rewrite lookup_empty in H. Qed.

Lemma task_settled_create b (w : coro.world (Task.promise St) B E) :
  Task.settled w -> Task.settled (snd (Task.create run b w)).
Proof.
  intros Hw. unfold Task.settled. simpl.
  apply (insert_keeps
           (fun f => coro.at_final_suspend f = false ->
                     Task.m_exception (Task.base (coro.promise f)) = None
                     /\ Task.m_result (coro.promise f) = Task.m_result_init));
    [exact Hw | now split].
Qed.

Lemma task_settled_resume t (w : coro.world (Task.promise St) B E) :
  Task.settled w -> Task.settled (snd (Task.task_resume run t w)).
Proof.
  intros Hw. destruct (Task.is_ready w t) eqn:Hready.
  - now rewrite (task_resume_ready run _ _ Hready).
  - destruct t as [[a|]]; [ | discriminate Hready ].
    destruct (coro.heap w !! a) as [f|] eqn:Hf.
    + unfold Task.is_ready in Hready. rewrite is_ready_not_good in Hready.
      simpl in Hready. rewrite (is_good_handle_lookup _ _ _ Hf) in Hready.
      rewrite negb_involutive in Hready.
      rewrite (task_resume_live run _ _ _ Hf Hready),
        (task_resume_frame run _ _ _ Hf Hready).
      unfold Task.settled. cbn [snd coro.heap].
      apply (insert_keeps
               (fun f => coro.at_final_suspend f = false ->
                         Task.m_exception (Task.base (coro.promise f)) = None
                         /\ Task.m_result (coro.promise f) = Task.m_result_init));
        [exact Hw | ].
      destruct (snd (run (coro.body f))); simpl; try discriminate.
      intros _. exact (Hw _ _ Hf Hready).
    + unfold Task.task_resume, bind. rewrite Hready. simpl.
      unfold bind, Task.resume. now rewrite Hf.
Qed.

End ReachableTask.

(** * The claims *)

(** C4. Laziness: calling a function that returns a [generator], an
    [async_generator] or a [task] allocates the frame and suspends it at
    [initial_suspend()], before the first statement of the body: the body
    has performed no effect (the log is as before), its position is the
    initial one, and the promise holds neither value nor exception.
    Releasing the object right away does not run the body either. *)
Theorem laziness :
  (forall (T B E : Type) (run : B -> list E * suspension B T) b
          (w : coro.world (Generator.promise_type T) B E),
      Generator.create run b w =
        (Ok (Generator.Gen (Some (coro.next w))),
         coro.World
           (<[coro.next w := coro.Frame Generator.promise_init b false]> (coro.heap w))
           (S (coro.next w)) (coro.log w)))
  /\ (forall (T B E : Type) (run : B -> list E * production B T) b
             (w : coro.world (AsyncGenerator.promise_type T) B E),
      AsyncGenerator.create run b w =
        (Ok (AsyncGenerator.Gen (Some (coro.next w))),
         coro.World
           (<[coro.next w := coro.Frame AsyncGenerator.promise_init b false]> (coro.heap w))
           (S (coro.next w)) (coro.log w))
      /\ coro.log (snd ((g <- AsyncGenerator.create run b ;;
                         AsyncGenerator.destructor g) w)) = coro.log w)
  /\ (forall (St R B E : Type) (PT : Task.promise_type St R)
             (run : B -> list E * Task.step B R) b
             (w : coro.world (Task.promise St) B E),
      Task.create run b w =
        (Ok (Task.Task (Some (coro.next w))),
         coro.World
           (<[coro.next w := coro.Frame Task.promise_init b false]> (coro.heap w))
           (S (coro.next w)) (coro.log w))
      /\ Task.is_ready (snd (Task.create run b w)) (Task.Task (Some (coro.next w)))
         = false).
Proof.
  split; [ | split ].
  - reflexivity.
  - intros. split; [reflexivity | ].
    unfold bind, AsyncGenerator.create, AsyncGenerator.destructor, coro.destroy. simpl.
    now heap_simpl.
  - intros. split; [reflexivity | ].
    unfold Task.is_ready. rewrite is_ready_not_good. simpl.
    now erewrite is_good_handle_lookup by apply lookup_world_insert.
Qed.

(** Tests TaskTest.DoesNotStartUntilAwaited and
    AsyncGeneratorTest.DoesNotStartWithoutBegin: the body sets a flag with
    its first statement. The flag is not set after the call that creates
    the coroutine; it is set after the first advance or await. *)
Example flag_set_by_first_advance :
  let flag := tt in
  let run_g := @Bodies.run_script Z unit in
  let run_t := @Bodies.run_task unit unit in
  let body_g := [Bodies.effect flag; Bodies.yield 1983%Z] in
  let body_t := Bodies.t_effect flag (Bodies.t_return tt) in
  let wg := snd (Generator.create run_g body_g coro.empty) in
  let wa := snd (AsyncGenerator.create (steady run_g) body_g coro.empty) in
  let wt := snd (Task.create (PT := Task.promise_type_void) run_t body_t coro.empty) in
  (coro.log wg = []
   /\ coro.log (snd (Generator.begin run_g (Generator.Gen (Some 0)) wg)) = [flag])
  /\ (coro.log wa = []
      /\ coro.log (snd (AsyncGenerator.await_begin (steady run_g) 1
                          (AsyncGenerator.Gen (Some 0)) wa)) = [flag])
  /\ (coro.log wt = []
      /\ coro.log (snd (Task.co_await run_t 1 (Task.Task (Some 0)) wt)) = [flag]).
Proof. repeat split; reflexivity. Qed.

(** C5. Idempotent end: on a generator whose coroutine has finished, any
    number of calls of [begin()] return iterators equal to [end()] and
    leave the state as it is (nothing is resumed, no effect is logged); on
    an asynchronous generator whose coroutine has finished, awaiting
    [begin()] gives an iterator equal to [end()] and leaves the state as
    it is, for every awaiting coroutine. *)
Theorem idempotent_end :
  (forall (T B E : Type) (run : B -> list E * suspension B T)
          (w : coro.world (Generator.promise_type T) B E) a,
      coro.done w a = true ->
      let g := Generator.Gen (Some a) in
      Generator.advance run g w = (Ok tt, w)
      /\ Generator.begin run g w = (Ok (Generator.Iter (Some a)), w)
      /\ Generator.iterator_eq w (Generator.Iter (Some a)) (Generator.end_ g) = true
      /\ forall k, Generator.begin_times run k g w = (Ok (replicate k None), w))
  /\ (forall (T B E : Type) (run : B -> list E * production B T)
             (w : coro.world (AsyncGenerator.promise_type T) B E) a c,
      coro.done w a = true ->
      let g := AsyncGenerator.Gen (Some a) in
      AsyncGenerator.await_begin run c g w = (Ok (Some (AsyncGenerator.Iter None)), w)
      /\ AsyncGenerator.iterator_is_end w (AsyncGenerator.Iter None) = true).
Proof.
  split.
  - intros T B E run w a Hdone g.
    pose proof (is_good_handle_done _ _ Hdone) as Hng.
    repeat split.
    + now apply advance_not_good.
    + now apply (begin_not_good run w g).
    + rewrite iterator_eq_end. simpl. now rewrite Hng.
    + intros k. now apply begin_times_not_good.
  - intros T B E run w a c Hdone g. split; [ | reflexivity ].
    apply await_begin_not_good. simpl. now apply is_good_handle_done.
Qed.

Lemma idempotent_end_witness :
  let run := @Bodies.run_script Z unit in
  let wg := snd ((g <- Generator.create run [] ;; Generator.begin run g) coro.empty) in
  let wa := snd ((g <- AsyncGenerator.create (steady run) [] ;;
                  AsyncGenerator.await_begin (steady run) 7 g) coro.empty) in
  Generator.begin_times run 3 (Generator.Gen (Some 0)) wg = (Ok [None; None; None], wg)
  /\ AsyncGenerator.await_begin (steady run) 7 (AsyncGenerator.Gen (Some 0)) wa
     = (Ok (Some (AsyncGenerator.Iter None)), wa).
Proof.
  intros run wg wa. destruct idempotent_end as [Hg Ha]. split.
  - destruct (Hg Z (list (Bodies.stmt Z unit)) unit run wg 0) as (_ & _ & _ & Hk).
    + reflexivity.
    + exact (Hk 3).
  - destruct (Ha Z (list (Bodies.stmt Z unit)) unit (steady run) wa 0 7) as [H _].
    + reflexivity.
    + exact H.
Defined.

(** C6. Two generator iterators, and two asynchronous generator iterators,
    are equal exactly when they hold the same handle or both hold a handle
    that is not good, that is, one that is empty or whose coroutine has
    finished. So equality is symmetric, and iterators of two different
    generators that have both finished are equal. *)
Theorem iterator_equality :
  (forall (T B E : Type) (w : coro.world (Generator.promise_type T) B E) i j,
      (Generator.iterator_eq w i j = true <->
       Generator.it_coroutine i = Generator.it_coroutine j
       \/ (detail.is_good_handle w (Generator.it_coroutine i) = false
           /\ detail.is_good_handle w (Generator.it_coroutine j) = false))
      /\ Generator.iterator_eq w i j = Generator.iterator_eq w j i)
  /\ (forall (T B E : Type) (w : coro.world (AsyncGenerator.promise_type T) B E) i j,
      (AsyncGenerator.iterator_eq w i j = true <->
       AsyncGenerator.it_coroutine i = AsyncGenerator.it_coroutine j
       \/ (detail.is_good_handle w (AsyncGenerator.it_coroutine i) = false
           /\ detail.is_good_handle w (AsyncGenerator.it_coroutine j) = false))
      /\ AsyncGenerator.iterator_eq w i j = AsyncGenerator.iterator_eq w j i)
  /\ (forall (P B E : Type) (w : coro.world P B E) h,
      detail.is_good_handle w h = false <->
      h = None \/ exists a, h = Some a /\ coro.done w a = true)
  /\ (forall (T B E : Type) (w : coro.world (Generator.promise_type T) B E) a1 a2,
      coro.done w a1 = true -> coro.done w a2 = true ->
      Generator.iterator_eq w (Generator.Iter (Some a1)) (Generator.Iter (Some a2)) = true)
  /\ (forall (T B E : Type) (w : coro.world (AsyncGenerator.promise_type T) B E) a1 a2,
      coro.done w a1 = true -> coro.done w a2 = true ->
      AsyncGenerator.iterator_eq w (AsyncGenerator.Iter (Some a1))
        (AsyncGenerator.Iter (Some a2)) = true).
Proof.
  assert (Hiff : forall (b1 b2 : bool) (h1 h2 : option nat),
             bool_decide (h1 = h2) || (negb b1 && negb b2) = true <->
             h1 = h2 \/ (b1 = false /\ b2 = false)).
  { intros b1 b2 h1 h2. rewrite orb_true_iff, andb_true_iff, !negb_true_iff.
    now rewrite bool_decide_eq_true. }
  assert (Hsym : forall (b1 b2 : bool) (h1 h2 : option nat),
             bool_decide (h1 = h2) || (negb b1 && negb b2)
             = bool_decide (h2 = h1) || (negb b2 && negb b1)).
  { intros b1 b2 h1 h2. rewrite (andb_comm (negb b1)). f_equal.
    apply bool_decide_ext. split; intros ->; reflexivity. }
  split; [ | split; [ | split; [ | split ] ] ].
  - intros T B E w i j. split; [apply Hiff | apply Hsym].
  - intros T B E w i j. split; [apply Hiff | apply Hsym].
  - intros P B E w h. apply not_good_handle.
  - intros T B E w a1 a2 H1 H2. apply Hiff. right.
    split; now apply is_good_handle_done.
  - intros T B E w a1 a2 H1 H2. apply Hiff. right.
    split; now apply is_good_handle_done.
Qed.

(** Test GeneratorIteratorTest.CompareDifferentIterators: two generators
    of one value each, both run to their end. *)
Lemma iterator_equality_witness :
  let run := @Bodies.run_script Z unit in
  let w := snd ((g1 <- Generator.create run [Bodies.yield 1%Z] ;;
                 g2 <- Generator.create run [Bodies.yield 2%Z] ;;
                 Generator.begin_times run 2 g1 ;;;
                 Generator.begin_times run 2 g2) coro.empty) in
  let wa := snd ((g1 <- AsyncGenerator.create (steady run) [Bodies.yield 1%Z] ;;
                  g2 <- AsyncGenerator.create (steady run) [] ;;
                  AsyncGenerator.await_begin (steady run) 5 g1 ;;;
                  AsyncGenerator.await_begin (steady run) 5 g1 ;;;
                  AsyncGenerator.await_begin (steady run) 5 g2) coro.empty) in
  Generator.iterator_eq w (Generator.Iter (Some 0)) (Generator.Iter (Some 1)) = true
  /\ AsyncGenerator.iterator_eq wa (AsyncGenerator.Iter (Some 0))
       (AsyncGenerator.Iter (Some 1)) = true.
Proof.
  intros run w wa. destruct iterator_equality as (_ & _ & _ & Hg & Ha). split.
  - apply Hg; reflexivity.
  - apply Ha; reflexivity.
Defined.

(** C7. On a generator iterator whose handle is empty or whose coroutine
    has finished, such as the iterator that [end()] returns, [++it] and
    [*it] throw [bad_result_access] and change nothing. On an iterator
    with a live handle, [++it] runs the body once from its current
    position: it returns the iterator when the body reaches a [co_yield]
    or its end, and rethrows the exception when the body raised one. *)
Theorem iterator_past_end :
  forall (T B E : Type) (run : B -> list E * suspension B T)
         (w : coro.world (Generator.promise_type T) B E) (i : Generator.iterator),
    (detail.is_good_handle w (Generator.it_coroutine i) = false ->
     Generator.iterator_incr run i w = (Throw bad_result_access, w)
     /\ Generator.iterator_deref i w = (Throw bad_result_access, w))
    /\ (forall g,
         Generator.iterator_incr run (Generator.end_ g) w = (Throw bad_result_access, w)
         /\ Generator.iterator_deref (Generator.end_ g) w = (Throw bad_result_access, w))
    /\ (forall a f,
         Generator.it_coroutine i = Some a ->
         coro.heap w !! a = Some f ->
         coro.at_final_suspend f = false ->
         Generator.m_exception (coro.promise f) = None ->
         let log' := coro.log w ++ fst (run (coro.body f)) in
         Generator.iterator_incr run i w =
           match snd (run (coro.body f)) with
           | co_yield v k =>
               (Ok i,
                coro.World
                  (<[a := coro.Frame (Generator.Promise (Some v) None) k false]>
                     (coro.heap w))
                  (coro.next w) log')
           | co_return =>
               (Ok i,
                coro.World
                  (<[a := coro.Frame (coro.promise f) (coro.body f) true]> (coro.heap w))
                  (coro.next w) log')
           | co_throw e =>
               (Throw e,
                coro.World
                  (<[a := coro.Frame
                            (Generator.Promise (Generator.m_value (coro.promise f)) None)
                            (coro.body f) true]> (coro.heap w))
                  (coro.next w) log')
           end).
Proof.
  intros T B E run w i. split; [ | split ].
  - intros H. split.
    + now apply iterator_incr_not_good.
    + now apply iterator_deref_not_good.
  - intros g. split; reflexivity.
  - intros a f Hi Hf Hfin Hex log'. destruct i as [h]. simpl in Hi. subst h.
    rewrite (iterator_incr_live run _ _ _ Hf Hfin Hex). unfold Generator.one_step.
    destruct (snd (run (coro.body f))); reflexivity.
Qed.

(** Tests GeneratorIteratorTest.AccessPastEnd and
    GeneratorTest.ExceptionAfterYield. *)
Lemma iterator_past_end_witness :
  let run := @Bodies.run_script Z unit in
  let body := [Bodies.yield 1%Z; Bodies.raise (user_exception 7)] in
  let i := Generator.Iter (Some 0) in
  let w0 := snd ((g <- Generator.create run body ;; Generator.begin run g) coro.empty) in
  let w1 := snd (Generator.iterator_incr run i w0) in
  fst (Generator.iterator_incr run i w0) = Throw (user_exception 7)
  /\ Generator.iterator_incr run i w1 = (Throw bad_result_access, w1)
  /\ Generator.iterator_deref i w1 = (Throw bad_result_access, w1)
  /\ Generator.iterator_incr run (Generator.end_ (Generator.Gen (Some 0))) w0
     = (Throw bad_result_access, w0).
Proof.
  intros run body i w0 w1.
  destruct (iterator_past_end Z _ unit run w0 i) as (_ & Hend & Hlive).
  destruct (iterator_past_end Z _ unit run w1 i) as (Hpast & _ & _).
  split; [ | split; [ | split ] ].
  - rewrite (Hlive 0
               (coro.Frame (Generator.Promise (Some 1%Z) None)
                  [Bodies.raise (user_exception 7)] false));
      reflexivity.
  - apply Hpast. reflexivity.
  - apply Hpast. reflexivity.
  - apply Hend.
Defined.

(** The body of [first_n(5)] yields 0, 1, 2, 3, 4 and ends. *)
Lemma first_n_5_yields : yields Bodies.first_n (0, 5)%Z [0; 1; 2; 3; 4]%Z.
Proof. repeat (eapply yields_more; [reflexivity | ]). now apply yields_end. Qed.

(** C3. Every call of [begin()] on a generator with a live coroutine runs
    the body once from its current position, never from the start: the
    frame that the call leaves behind holds the position after the
    [co_yield] that was reached, and the iterator holds the handle of the
    generator. So on a generator whose body yields [l], calls of [begin()]
    see the elements of [l] one after the other and then [end()]. For a
    generator that yields 0, 1, 2, 3, 4 (test
    GeneratorTest.AdvanceWithBegin): the iterator comes from a first call
    of [begin()]; of the calls of [begin()] made where a loop would
    increment the iterator, the first four see 1, 2, 3, 4 and the fifth
    returns [end()], so the loop ends with [idx = 5] after it has seen
    0, 1, 2, 3, 4. *)
Theorem begin_advances :
  (forall (T B E : Type) (run : B -> list E * suspension B T)
          (w : coro.world (Generator.promise_type T) B E) a f,
      coro.heap w !! a = Some f ->
      coro.at_final_suspend f = false ->
      Generator.m_exception (coro.promise f) = None ->
      let log' := coro.log w ++ fst (run (coro.body f)) in
      Generator.begin run (Generator.Gen (Some a)) w =
        match snd (run (coro.body f)) with
        | co_yield v k =>
            (Ok (Generator.Iter (Some a)),
             coro.World
               (<[a := coro.Frame (Generator.Promise (Some v) None) k false]>
                  (coro.heap w))
               (coro.next w) log')
        | co_return =>
            (Ok (Generator.Iter (Some a)),
             coro.World
               (<[a := coro.Frame (coro.promise f) (coro.body f) true]> (coro.heap w))
               (coro.next w) log')
        | co_throw e =>
            (Throw e,
             coro.World
               (<[a := coro.Frame
                         (Generator.Promise (Generator.m_value (coro.promise f)) None)
                         (coro.body f) true]> (coro.heap w))
               (coro.next w) log')
        end)
  /\ (forall (T B E : Type) (run : B -> list E * suspension B T)
             (w : coro.world (Generator.promise_type T) B E) a b l n,
      yields run b l ->
      coro.heap w !! a = Some (coro.Frame Generator.promise_init b false) ->
      let g := Generator.Gen (Some a) in
      fst (Generator.begin_times run (length l + n) g w)
        = Ok (map Some l ++ replicate n None)
      /\ fst (Generator.advance_with_begin run (length l + S n) g w)
        = Ok (Some (l, length l)))
  /\ (forall (w : coro.world (Generator.promise_type Z) (Z * Z) unit) a,
      coro.heap w !! a = Some (coro.Frame Generator.promise_init (0, 5)%Z false) ->
      let g := Generator.Gen (Some a) in
      fst (Generator.begin_times Bodies.first_n 6 g w)
        = Ok [Some 0; Some 1; Some 2; Some 3; Some 4; None]%Z
      /\ fst (Generator.advance_with_begin Bodies.first_n 6 g w)
        = Ok (Some ([0; 1; 2; 3; 4]%Z, 5))).
Proof.
  split; [ | split ].
  - intros T B E run w a f Hf Hfin Hex log'.
    rewrite (begin_live run _ _ _ Hf Hfin Hex). unfold Generator.one_step.
    destruct (snd (run (coro.body f))); reflexivity.
  - intros T B E run w a b l n Hy Hf g. split.
    + now apply (begin_times_yields run a b l Hy n w Generator.promise_init).
    + apply (advance_with_begin_yields run a b l _ w Hy); [lia | exact Hf].
  - intros w a Hf g. split.
    + now apply (begin_times_yields _ a _ _ first_n_5_yields 1 w Generator.promise_init).
    + apply (advance_with_begin_yields _ a _ _ 6 w first_n_5_yields); [simpl; lia | exact Hf].
Qed.

(** [first_n(5)], just created. *)
Lemma begin_advances_witness :
  let w := snd (Generator.create Bodies.first_n (0, 5)%Z coro.empty) in
  let g := Generator.Gen (Some 0) in
  Generator.begin Bodies.first_n g w =
    (Ok (Generator.Iter (Some 0)),
     coro.World
       (<[0 := coro.Frame (Generator.Promise (Some 0%Z) None) (1, 5)%Z false]> (coro.heap w))
       1 [])
  /\ fst (Generator.begin_times Bodies.first_n 6 g w)
     = Ok [Some 0; Some 1; Some 2; Some 3; Some 4; None]%Z
  /\ fst (Generator.advance_with_begin Bodies.first_n 6 g w)
     = Ok (Some ([0; 1; 2; 3; 4]%Z, 5)).
Proof.
  intros w g. destruct begin_advances as (Hstep & Hall & Hfive).
  split; [ | split ].
  - apply (Hstep Z (Z * Z)%type unit Bodies.first_n w 0
             (coro.Frame Generator.promise_init (0, 5)%Z false));
      reflexivity.
  - apply (Hall Z (Z * Z)%type unit Bodies.first_n w 0 (0, 5)%Z [0; 1; 2; 3; 4]%Z 1).
    + repeat (eapply yields_more; [reflexivity | ]). apply yields_end. reflexivity.
    + reflexivity.
  - apply (Hfive w 0). reflexivity.
Defined.

(** C8. Moves of tasks and generators. Moving from an object, by the move
    constructor or by move assignment to another object, leaves the source
    with an empty handle and gives its handle to the target; move
    assignment of an object to itself changes nothing; move assignment
    from another object first destroys the coroutine that the target
    owned, without running it. An object with an empty handle is ready,
    cannot be resumed, and gives no result: [result_value()] and
    [co_await] throw [bad_task]; [begin()] of such a generator is
    [end()]. *)
Theorem move_semantics :
  (forall (St R B E : Type) (PT : Task.promise_type St R)
          (run : B -> list E * Task.step B R)
          (w : coro.world (Task.promise St) B E) objs this other t o,
      objs !! this = Some t ->
      objs !! other = Some o ->
      let objs' := <[this := Task.Task (Task.m_coroutine o)]>
                     (<[other := Task.Task None]> objs) in
      Task.move_assign this this objs w = (Ok objs, w)
      /\ (this <> other ->
          objs' !! other = Some (Task.Task None)
          /\ objs' !! this = Some (Task.Task (Task.m_coroutine o))
          /\ (Task.m_coroutine t = None ->
              Task.move_assign this other objs w = (Ok objs', w))
          /\ (forall a fa,
                Task.m_coroutine t = Some a ->
                coro.heap w !! a = Some fa ->
                Task.move_assign this other objs w =
                  (Ok objs',
                   coro.World (delete a (coro.heap w)) (coro.next w) (coro.log w))))
      /\ (forall fresh,
            Task.move_construct fresh other objs w =
              (Ok (<[fresh := Task.Task (Task.m_coroutine o)]>
                     (<[other := Task.Task None]> objs)), w))
      /\ Task.is_ready w (Task.Task None) = true
      /\ Task.task_resume run (Task.Task None) w = (Ok false, w)
      /\ Task.result_value (Task.Task None) w = (Throw bad_task, w)
      /\ (forall c, Task.co_await run c (Task.Task None) w = (Throw bad_task, w)))
  /\ (forall (T B E : Type) (run : B -> list E * suspension B T)
             (w : coro.world (Generator.promise_type T) B E) objs this other g o,
      objs !! this = Some g ->
      objs !! other = Some o ->
      let objs' := <[this := Generator.Gen (Generator.m_coroutine o)]>
                     (<[other := Generator.Gen None]> objs) in
      Generator.move_assign this this objs w = (Ok objs, w)
      /\ (this <> other ->
          objs' !! other = Some (Generator.Gen None)
          /\ objs' !! this = Some (Generator.Gen (Generator.m_coroutine o))
          /\ (Generator.m_coroutine g = None ->
              Generator.move_assign this other objs w = (Ok objs', w))
          /\ (forall a fa,
                Generator.m_coroutine g = Some a ->
                coro.heap w !! a = Some fa ->
                Generator.move_assign this other objs w =
                  (Ok objs',
                   coro.World (delete a (coro.heap w)) (coro.next w) (coro.log w))))
      /\ (forall fresh,
            Generator.move_construct fresh other objs w =
              (Ok (<[fresh := Generator.Gen (Generator.m_coroutine o)]>
                     (<[other := Generator.Gen None]> objs)), w))
      /\ Generator.begin run (Generator.Gen None) w = (Ok (Generator.Iter None), w)
      /\ Generator.iterator_eq w (Generator.Iter None)
           (Generator.end_ (Generator.Gen None)) = true
      /\ Generator.iterator_deref (Generator.Iter None) w = (Throw bad_result_access, w)).
Proof.
  split.
  - intros St R B E PT run w objs this other t o Ht Ho objs'.
    split; [ | split; [ | split; [ | split; [ | split; [ | split ] ] ] ] ];
      try reflexivity.
    + unfold Task.move_assign. rewrite Ht.
      now rewrite bool_decide_eq_false_2 by (intros Hne; now apply Hne).
    + intros Hne. split; [ | split; [ | split ] ].
      * unfold objs'. rewrite lookup_insert_ne by exact Hne. apply lookup_insert_eq.
      * apply lookup_insert_eq.
      * intros Hnone. unfold Task.move_assign. rewrite Ht, Ho.
        rewrite bool_decide_eq_true_2 by exact Hne. now rewrite Hnone.
      * intros a fa Ha Hfa. unfold Task.move_assign. rewrite Ht, Ho.
        rewrite bool_decide_eq_true_2 by exact Hne. rewrite Ha.
        unfold bind, coro.destroy. now rewrite Hfa.
    + intros fresh. unfold Task.move_construct. now rewrite Ho.
  - intros T B E run w objs this other g o Hg Ho objs'.
    split; [ | split; [ | split; [ | split; [ | split ] ] ] ];
      try reflexivity.
    + unfold Generator.move_assign. rewrite Hg.
      now rewrite bool_decide_eq_false_2 by (intros Hne; now apply Hne).
    + intros Hne. split; [ | split; [ | split ] ].
      * unfold objs'. rewrite lookup_insert_ne by exact Hne. apply lookup_insert_eq.
      * apply lookup_insert_eq.
      * intros Hnone. unfold Generator.move_assign. rewrite Hg, Ho.
        rewrite bool_decide_eq_true_2 by exact Hne. now rewrite Hnone.
      * intros a fa Ha Hfa. unfold Generator.move_assign. rewrite Hg, Ho.
        rewrite bool_decide_eq_true_2 by exact Hne. rewrite Ha.
        unfold bind, coro.destroy. now rewrite Hfa.
    + intros fresh. unfold Generator.move_construct. now rewrite Ho.
Qed.

(** Tests TaskTest.MoveAssignOther, TaskTest.MoveAssignSelf,
    GeneratorTest.MoveAssign and GeneratorTest.MoveAssignSelf: the source
    object is at address 10, the target at 11. *)
Lemma move_semantics_witness :
  let run_t := @Bodies.run_task Z unit in
  let run_g := @Bodies.run_script Z unit in
  let wt := snd ((Task.create (PT := Task.promise_type_T Z) run_t (Bodies.t_return 1%Z) ;;;
                  Task.create run_t (Bodies.t_return 2%Z)) coro.empty) in
  let wg := snd ((Generator.create run_g (Bodies.yield_all [1; 2; 3]%Z) ;;;
                  Generator.create run_g (Bodies.yield_all [4; 5; 6]%Z)) coro.empty) in
  let tasks : gmap nat Task.task :=
    <[10 := Task.Task (Some 0)]> (<[11 := Task.Task (Some 1)]> ∅) in
  let gens : gmap nat Generator.generator :=
    <[10 := Generator.Gen (Some 0)]> (<[11 := Generator.Gen (Some 1)]> ∅) in
  (Task.move_assign 11 11 tasks wt = (Ok tasks, wt)
   /\ Task.move_assign 11 10 tasks wt =
        (Ok (<[11 := Task.Task (Some 0)]> (<[10 := Task.Task None]> tasks)),
         coro.World (delete 1 (coro.heap wt)) (coro.next wt) (coro.log wt)))
  /\ (Generator.move_assign 11 11 gens wg = (Ok gens, wg)
      /\ Generator.move_assign 11 10 gens wg =
           (Ok (<[11 := Generator.Gen (Some 0)]> (<[10 := Generator.Gen None]> gens)),
            coro.World (delete 1 (coro.heap wg)) (coro.next wg) (coro.log wg))).
Proof.
  intros run_t run_g wt wg tasks gens.
  destruct move_semantics as [Ht Hg]. split.
  - destruct (Ht _ _ _ _ _ run_t wt tasks 11 10 (Task.Task (Some 1)) (Task.Task (Some 0))
                eq_refl eq_refl) as (Hself & Hother & _).
    split; [exact Hself | ].
    destruct Hother as (_ & _ & _ & Hdestroy); [lia | ].
    apply (Hdestroy 1 (coro.Frame Task.promise_init (Bodies.t_return 2%Z) false));
      reflexivity.
  - destruct (Hg _ _ _ run_g wg gens 11 10 (Generator.Gen (Some 1))
                (Generator.Gen (Some 0)) eq_refl eq_refl) as (Hself & Hother & _).
    split; [exact Hself | ].
    destruct Hother as (_ & _ & _ & Hdestroy); [lia | ].
    apply (Hdestroy 1
             (coro.Frame Generator.promise_init (Bodies.yield_all [4; 5; 6]%Z) false));
      reflexivity.
Defined.

(** [co_await get_async_value<T>(v)] in any coroutine, and from any state:
    the awaiting coroutine goes on with [v] within the step. *)
Lemma get_async_value_completes (v : Z) (c : nat)
    (w : coro.world (Task.promise (option Z)) (Bodies.task_body Z unit) unit) :
  fst ((t <- Task.create (PT := Task.promise_type_T Z) Bodies.run_task
               (Bodies.get_async_value v) ;;
        Task.co_await Bodies.run_task c t) w)
  = Ok (Some v).
Proof.
  erewrite bind_ok by reflexivity.
  rewrite (task_co_await_live Bodies.run_task c _ (coro.next w)
             (coro.Frame Task.promise_init (Bodies.get_async_value v) false)
             (lookup_world_insert _ _ _ _ _) eq_refl eq_refl).
  reflexivity.
Qed.

(** The body of [fibonacci(10)], and of [async_fibonacci(10)], yields the
    first ten Fibonacci numbers and ends. *)
Lemma fibonacci_10_yields :
  yields Bodies.fibonacci (10%Z, Bodies.fib_start) [0; 1; 1; 2; 3; 5; 8; 13; 21; 34]%Z.
Proof. repeat (eapply yields_more; [reflexivity | ]). now apply yields_end. Qed.

(** C9, as the code has it. Adapter equivalence: when the body of a
    generator yields the finite sequence [l], and the body of an
    asynchronous generator yields [l] and stops at no [co_await] on the
    way (what it awaits is ready or completes before the [co_await]
    returns), the range-based [for] over the generator and the range-based
    [for] over a [sync_generator_adapter] around the asynchronous
    generator both end and collect [l] itself: the same values, in the
    same order, as many. Both loops need [length l + 1] comparisons with
    [end()]. *)
Theorem adapter_equivalence :
  forall (T Bg Eg Ba Ea : Type)
         (run_g : Bg -> list Eg * suspension Bg T)
         (run_a : Ba -> list Ea * production Ba T)
         (bg : Bg) (ba : Ba) (l : list T) (fuel : nat)
         (wg : coro.world (Generator.promise_type T) Bg Eg)
         (wa : coro.world (AsyncGenerator.promise_type T) Ba Ea),
    yields run_g bg l ->
    async_yields run_a ba l ->
    length l < fuel ->
    fst ((g <- Generator.create run_g bg ;; Generator.collect run_g fuel g) wg)
      = Ok (Some l)
    /\ fst ((g <- AsyncGenerator.create run_a ba ;;
             SyncGeneratorAdapter.collect run_a fuel (SyncGeneratorAdapter.Adapter g)) wa)
      = Ok (Some l).
Proof.
  intros T Bg Eg Ba Ea run_g run_a bg ba l fuel wg wa Hg Ha Hfuel. split.
  - erewrite bind_ok by reflexivity.
    apply (collect_yields run_g _ bg l fuel _ Hg Hfuel). apply lookup_world_insert.
  - erewrite bind_ok by reflexivity.
    apply (adapter_collect_yields run_a _ ba l fuel _ Ha Hfuel). apply lookup_world_insert.
Qed.

(** Tests GeneratorTest.Fibonacci and SyncGeneratorAdapterTest.Fibonacci:
    [fibonacci(10)] and [async_fibonacci(10)]. *)
Lemma adapter_equivalence_witness :
  let fib := [0; 1; 1; 2; 3; 5; 8; 13; 21; 34]%Z in
  fst ((g <- Generator.create Bodies.fibonacci (10%Z, Bodies.fib_start) ;;
        Generator.collect Bodies.fibonacci 11 g) coro.empty) = Ok (Some fib)
  /\ fst ((g <- AsyncGenerator.create Bodies.async_fibonacci (10%Z, Bodies.fib_start) ;;
           SyncGeneratorAdapter.collect Bodies.async_fibonacci 11
             (SyncGeneratorAdapter.Adapter g)) coro.empty) = Ok (Some fib).
Proof.
  intros fib.
  apply (adapter_equivalence Z _ unit _ unit Bodies.fibonacci Bodies.async_fibonacci
           (10%Z, Bodies.fib_start) (10%Z, Bodies.fib_start) fib 11
           coro.empty coro.empty).
  - repeat (eapply yields_more; [reflexivity | ]). apply yields_end. reflexivity.
  - repeat (eapply async_yields_more; [reflexivity | ]).
    apply async_yields_end. reflexivity.
  - simpl. lia.
Defined.

(** C9 as the spec has it fails. A generator with the body [co_yield 1;]
    and an asynchronous generator with the body
    [co_await std::suspend_always{}; co_yield 1;]: both bodies yield the
    sequence 1. The range-based [for] over the generator sees 1. The
    range-based [for] over the adapter sees nothing: the producer stops at
    its [co_await], [advance()] returns with [m_it] still null, and the
    iterator that [begin()] returns equals [end()]. *)
Lemma adapter_loses_values :
  let run_g := @Bodies.run_script Z unit in
  let run_a := @Bodies.run_async_script Z unit in
  let bg := [Bodies.yield 1%Z] in
  let ba := [Bodies.await_pending; Bodies.sync (Bodies.yield 1%Z)] in
  yields run_g bg [1%Z]
  /\ eventually_yields run_a ba [1%Z]
  /\ fst ((g <- Generator.create run_g bg ;; Generator.collect run_g 2 g) coro.empty)
     = Ok (Some [1%Z])
  /\ fst ((g <- AsyncGenerator.create run_a ba ;;
           SyncGeneratorAdapter.collect run_a 2 (SyncGeneratorAdapter.Adapter g))
          coro.empty)
     = Ok (Some []).
Proof.
  intros run_g run_a bg ba. split; [ | split; [ | split ] ].
  - eapply yields_more; [reflexivity | ]. now apply yields_end.
  - eapply eventually_resumed; [reflexivity | ].
    eapply eventually_more; [reflexivity | ]. now apply eventually_end.
  - reflexivity.
  - reflexivity.
Qed.

(** C10, as the code has it. Every call of [begin()] on a
    [sync_generator_adapter] whose producer is live resumes the
    asynchronous generator once, from the current position of its body,
    before it returns: the constructor of the iterator awaits the advance
    operation in an eager coroutine, whose frame takes the next address
    and is the consumer that the producer hands control back to. When the
    body reaches its next [co_yield] or its end, the production step is
    complete and the iterator that [begin()] returns holds its result.
    When the step ends in an exception, the eager coroutine rethrows it
    and [std::terminate] is called. When the body stops at a [co_await] of
    its own on the way, the step is not complete: the eager coroutine
    stays suspended, and [begin()] returns an iterator equal to [end()]
    although the producer has not finished. So on an adapter whose
    producer yields [l] and stops at no [co_await] on the way, calls of
    [begin()] see the elements of [l] one after the other and then
    [end()], as calls of [begin()] on a generator do. *)
Theorem adapter_begin_advances :
  (forall (T B E : Type) (run : B -> list E * production B T)
          (w : coro.world (AsyncGenerator.promise_type T) B E) a f,
      coro.heap w !! a = Some f ->
      coro.at_final_suspend f = false ->
      AsyncGenerator.m_exception (coro.promise f) = None ->
      let op := AsyncGenerator.advance_op_of (Some a) in
      let c := coro.next w in
      let log' := coro.log w ++ fst (run (coro.body f)) in
      SyncGeneratorAdapter.begin run
        (SyncGeneratorAdapter.Adapter (AsyncGenerator.Gen (Some a))) w =
        match snd (run (coro.body f)) with
        | produced (co_yield v k) =>
            (Ok (SyncGeneratorAdapter.Iter op (AsyncGenerator.Iter (Some a))),
             coro.World
               (<[a := coro.Frame (AsyncGenerator.Promise (Some v) (Some c) None) k false]>
                  (coro.heap w))
               (S c) log')
        | produced co_return =>
            (Ok (SyncGeneratorAdapter.Iter op (AsyncGenerator.Iter None)),
             coro.World
               (<[a := coro.Frame (AsyncGenerator.Promise None (Some c) None)
                         (coro.body f) true]> (coro.heap w))
               (S c) log')
        | produced (co_throw e) =>
            (Terminate,
             coro.World
               (<[a := coro.Frame (AsyncGenerator.Promise None (Some c) None)
                         (coro.body f) true]> (coro.heap w))
               (S c) log')
        | stalled k =>
            (Ok (SyncGeneratorAdapter.Iter op (AsyncGenerator.Iter None)),
             coro.World
               (<[a := coro.Frame
                         (AsyncGenerator.Promise
                            (AsyncGenerator.m_current_value (coro.promise f))
                            (Some c) None) k false]> (coro.heap w))
               (S c) log')
        end)
  /\ (forall (T B E : Type) (run : B -> list E * production B T)
             (w : coro.world (AsyncGenerator.promise_type T) B E) a b l n,
      async_yields run b l ->
      coro.heap w !! a = Some (coro.Frame AsyncGenerator.promise_init b false) ->
      fst (SyncGeneratorAdapter.begin_times run (length l + n)
             (SyncGeneratorAdapter.Adapter (AsyncGenerator.Gen (Some a))) w)
        = Ok (map Some l ++ replicate n None)
      /\ forall (Bg Eg : Type) (run_g : Bg -> list Eg * suspension Bg T) (bg : Bg)
                (wg : coro.world (Generator.promise_type T) Bg Eg) ag,
           yields run_g bg l ->
           coro.heap wg !! ag = Some (coro.Frame Generator.promise_init bg false) ->
           fst (Generator.begin_times run_g (length l + n) (Generator.Gen (Some ag)) wg)
           = fst (SyncGeneratorAdapter.begin_times run (length l + n)
                    (SyncGeneratorAdapter.Adapter (AsyncGenerator.Gen (Some a))) w)).
Proof.
  split.
  - intros T B E run w a f Hf Hfin Hex op c log'.
    rewrite (adapter_begin_live run _ _ _ Hf Hfin Hex). unfold AsyncGenerator.one_step.
    destruct (snd (run (coro.body f))) as [[v k| |e] | k]; reflexivity.
  - intros T B E run w a b l n Hy Hf.
    pose proof (adapter_begin_times_yields run a b l Hy n w AsyncGenerator.promise_init
                  Hf eq_refl) as Ha.
    split; [exact Ha | ].
    intros Bg Eg run_g bg wg ag Hyg Hg. rewrite Ha.
    now apply (begin_times_yields run_g ag bg l Hyg n wg Generator.promise_init).
Qed.

(** Test SyncGeneratorAdapterTest.AllThingsEnd: [async_first_n(5)]. *)
Lemma adapter_begin_advances_witness :
  let w := snd (AsyncGenerator.create Bodies.async_first_n (0, 5)%Z coro.empty) in
  let s := SyncGeneratorAdapter.Adapter (AsyncGenerator.Gen (Some 0)) in
  SyncGeneratorAdapter.begin Bodies.async_first_n s w =
    (Ok (SyncGeneratorAdapter.Iter (AsyncGenerator.advance_op_of (Some 0))
           (AsyncGenerator.Iter (Some 0))),
     coro.World
       (<[0 := coro.Frame (AsyncGenerator.Promise (Some 0%Z) (Some 1) None)
                 (1, 5)%Z false]> (coro.heap w))
       2 [])
  /\ fst (SyncGeneratorAdapter.begin_times Bodies.async_first_n 7 s w)
     = Ok [Some 0; Some 1; Some 2; Some 3; Some 4; None; None]%Z.
Proof.
  intros w s. destruct adapter_begin_advances as (Hstep & Hall). split.
  - apply (Hstep Z (Z * Z)%type unit Bodies.async_first_n w 0
             (coro.Frame AsyncGenerator.promise_init (0, 5)%Z false));
      reflexivity.
  - refine (proj1 (Hall Z (Z * Z)%type unit Bodies.async_first_n w 0 (0, 5)%Z
                     [0; 1; 2; 3; 4]%Z 2 _ _)).
    + repeat (eapply async_yields_more; [reflexivity | ]).
      apply async_yields_end. reflexivity.
    + reflexivity.
Defined.

(** C10 as the spec has it fails. The producer has the body
    [co_await std::suspend_always{}; co_yield 1;]. The first [begin()] of
    the adapter returns an iterator equal to [end()], but the advance was
    not driven to completion and no production step was made: the
    producer has neither yielded nor finished, it waits inside its step
    with the eager coroutine as its consumer. The second [begin()]
    completes the step and sees 1. *)
Lemma adapter_begin_returns_early :
  let run := @Bodies.run_async_script Z unit in
  let s := SyncGeneratorAdapter.Adapter (AsyncGenerator.Gen (Some 0)) in
  let w := snd (AsyncGenerator.create run
                  [Bodies.await_pending; Bodies.sync (Bodies.yield 1%Z)] coro.empty) in
  let it := SyncGeneratorAdapter.Iter (AsyncGenerator.advance_op_of (Some 0))
              (AsyncGenerator.Iter None) in
  let w' := coro.World
              (<[0 := coro.Frame (AsyncGenerator.Promise None (Some 1) None)
                        [Bodies.sync (Bodies.yield 1%Z)] false]> (coro.heap w))
              2 [] in
  SyncGeneratorAdapter.begin run s w = (Ok it, w')
  /\ SyncGeneratorAdapter.iterator_eq w' it (SyncGeneratorAdapter.end_ s) = true
  /\ coro.done w' 0 = false
  /\ fst (SyncGeneratorAdapter.begin_times run 3 s w) = Ok [None; Some 1%Z; None].
Proof. repeat split; reflexivity. Qed.

(** What [result_value()] of a task computes. It throws [bad_task] when
    the handle is empty. For [task<T>] it throws [bad_result_access] as
    long as the coroutine has not finished, returns the value that the
    body returned, and rethrows the exception that the body raised. For
    [task<void>] it rethrows the exception that the body raised and
    returns normally in every other case: [promise_type<void>] only calls
    [rethrow_if_exception()], also when the coroutine has not finished. *)
Theorem task_result :
  (forall (T B E : Type) (run : B -> list E * Task.step B T)
          (w : coro.world (Task.promise (option T)) B E),
      Task.result_value (Task.Task None) w = (Throw bad_task, w)
      /\ forall a f,
           coro.heap w !! a = Some f ->
           coro.at_final_suspend f = false ->
           Task.m_exception (Task.base (coro.promise f)) = None ->
           Task.m_result (coro.promise f) = None ->
           let t := Task.Task (Some a) in
           let w' := snd (Task.task_resume run t w) in
           Task.result_value t w = (Throw bad_result_access, w)
           /\ Task.result_value t w' =
                (match snd (run (coro.body f)) with
                 | Task.suspended _ => Throw bad_result_access
                 | Task.returned v => Ok v
                 | Task.threw e => Throw e
                 end, w'))
  /\ (forall (B E : Type) (run : B -> list E * Task.step B unit)
             (w : coro.world (Task.promise unit) B E),
      Task.result_value (Task.Task None) w = (Throw bad_task, w)
      /\ forall a f,
           coro.heap w !! a = Some f ->
           coro.at_final_suspend f = false ->
           Task.m_exception (Task.base (coro.promise f)) = None ->
           let t := Task.Task (Some a) in
           let w' := snd (Task.task_resume run t w) in
           Task.result_value t w = (Ok tt, w)
           /\ Task.result_value t w' =
                (match snd (run (coro.body f)) with
                 | Task.suspended _ => Ok tt
                 | Task.returned _ => Ok tt
                 | Task.threw e => Throw e
                 end, w')).
Proof.
  split.
  - intros T B E run w. split; [reflexivity | ].
    intros a f Hf Hfin Hex Hres t w'. split.
    + rewrite (result_value_lookup _ _ _ Hf).
      rewrite promise_result_value_stored by exact Hex. now rewrite Hres.
    + unfold w', t. rewrite (task_resume_live run _ _ _ Hf Hfin).
      rewrite (task_resume_frame run _ _ _ Hf Hfin). cbn [snd].
      erewrite result_value_lookup by apply lookup_world_insert.
      destruct (snd (run (coro.body f))); cbn [coro.promise].
      * rewrite promise_result_value_stored by exact Hex. now rewrite Hres.
      * now rewrite promise_result_value_stored.
      * now rewrite (promise_result_value_exception _ e).
  - intros B E run w. split; [reflexivity | ].
    intros a f Hf Hfin Hex t w'. split.
    + rewrite (result_value_lookup _ _ _ Hf).
      now rewrite promise_result_value_stored.
    + unfold w', t. rewrite (task_resume_live run _ _ _ Hf Hfin).
      rewrite (task_resume_frame run _ _ _ Hf Hfin). cbn [snd].
      erewrite result_value_lookup by apply lookup_world_insert.
      destruct (snd (run (coro.body f))); cbn [coro.promise].
      * now rewrite promise_result_value_stored.
      * now rewrite promise_result_value_stored.
      * now rewrite (promise_result_value_exception _ e).
Qed.

(** Tests TaskTest.ResultValue and TaskTest.Exception; a [task<void>] that
    has suspended once. *)
Lemma task_result_witness :
  let run := @Bodies.run_task Z unit in
  let run_v := @Bodies.run_task unit unit in
  let t := Task.Task (Some 0) in
  let w := snd (Task.create (PT := Task.promise_type_T Z) run
                  (Bodies.t_return 8%Z) coro.empty) in
  let wv := snd (Task.create (PT := Task.promise_type_void) run_v
                   (Bodies.t_suspend (Bodies.t_return tt)) coro.empty) in
  (Task.result_value t w = (Throw bad_result_access, w)
   /\ fst (Task.result_value t (snd (Task.task_resume run t w))) = Ok 8%Z)
  /\ (Task.result_value t wv = (Ok tt, wv)
      /\ fst (Task.result_value t (snd (Task.task_resume run_v t wv))) = Ok tt).
Proof.
  intros run run_v t w wv. destruct task_result as [HT Hvoid]. split.
  - destruct (HT Z _ unit run w) as [_ H].
    destruct (H 0 (coro.Frame Task.promise_init (Bodies.t_return 8%Z) false)
                eq_refl eq_refl eq_refl eq_refl) as [H1 H2].
    split; [exact H1 | ]. unfold t. now rewrite H2.
  - destruct (Hvoid _ unit run_v wv) as [_ H].
    destruct (H 0 (coro.Frame Task.promise_init
                     (Bodies.t_suspend (Bodies.t_return tt)) false)
                eq_refl eq_refl eq_refl) as [H1 H2].
    split; [exact H1 | ]. unfold t. now rewrite H2.
Defined.

(** C2. The code departs from the claim for [task<void>]. The task below
    has the body [co_await std::suspend_always{}; co_return;]; it has been
    created and resumed once, so that its body is suspended and has not
    finished. [result_value()] returns normally. The claim has it throw
    [bad_result_access], and so have the documentation of every overload
    of [task::result_value] ([@throw bad_result_access The result is not
    yet available]) and [promise_type<T>::result_value], which tells an
    unfinished task by its empty result: [promise_type<void>::result_value]
    calls [rethrow_if_exception()] and nothing else. *)
Lemma void_task_result_before_finish :
  let run := @Bodies.run_task unit unit in
  let t := Task.Task (Some 0) in
  let w := snd ((Task.create (PT := Task.promise_type_void) run
                   (Bodies.t_suspend (Bodies.t_return tt)) ;;;
                 Task.task_resume run t) coro.empty) in
  Task.is_ready w t = false
  /\ fst (Task.result_value t w) = Ok tt
  /\ fst (Task.result_value t w) <> Throw bad_result_access.
Proof. split; [reflexivity | split; [reflexivity | discriminate]]. Qed.

(** C1, as the code has it. An exception that leaves the body of a
    generator or of an asynchronous generator is stored in the promise and
    rethrown by the call that resumed the body ([begin()], [++it], the
    awaited advance operation); the rethrow takes the exception out of the
    promise, the coroutine has finished, and no later [begin()] throws. An
    exception that leaves the body of a task is stored in the promise and
    stays there: every [result_value()] and every [co_await] of the task
    rethrows it, the first and all that follow. *)
Theorem failure_rethrown :
  (forall (T B E : Type) (run : B -> list E * suspension B T)
          (w : coro.world (Generator.promise_type T) B E) a f e,
      coro.heap w !! a = Some f ->
      coro.at_final_suspend f = false ->
      snd (run (coro.body f)) = co_throw e ->
      let g := Generator.Gen (Some a) in
      let w1 :=
        coro.World
          (<[a := coro.Frame (Generator.Promise (Generator.m_value (coro.promise f)) None)
                    (coro.body f) true]> (coro.heap w))
          (coro.next w) (coro.log w ++ fst (run (coro.body f))) in
      Generator.begin run g w = (Throw e, w1)
      /\ Generator.iterator_incr run (Generator.Iter (Some a)) w = (Throw e, w1)
      /\ (forall k, Generator.begin_times run k g w1 = (Ok (replicate k None), w1))
      /\ Generator.begin run g w1 = (Ok (Generator.Iter (Some a)), w1))
  /\ (forall (T B E : Type) (run : B -> list E * production B T)
             (w : coro.world (AsyncGenerator.promise_type T) B E) a f e c,
      coro.heap w !! a = Some f ->
      coro.at_final_suspend f = false ->
      AsyncGenerator.m_exception (coro.promise f) = None ->
      snd (run (coro.body f)) = produced (co_throw e) ->
      let g := AsyncGenerator.Gen (Some a) in
      let w1 :=
        coro.World
          (<[a := coro.Frame (AsyncGenerator.Promise None (Some c) None)
                    (coro.body f) true]> (coro.heap w))
          (coro.next w) (coro.log w ++ fst (run (coro.body f))) in
      AsyncGenerator.await_begin run c g w = (Throw e, w1)
      /\ AsyncGenerator.co_await run c (AsyncGenerator.advance_op_of (Some a)) w
         = (Throw e, w1)
      /\ forall c', AsyncGenerator.await_begin run c' g w1
                    = (Ok (Some (AsyncGenerator.Iter None)), w1))
  /\ (forall (St R B E : Type) (PT : Task.promise_type St R)
             (run : B -> list E * Task.step B R)
             (w : coro.world (Task.promise St) B E) a f e,
      coro.heap w !! a = Some f ->
      coro.at_final_suspend f = false ->
      snd (run (coro.body f)) = Task.threw e ->
      let t := Task.Task (Some a) in
      let w1 := snd (Task.task_resume run t w) in
      Task.result_value t w1 = (Throw e, w1)
      /\ forall c, Task.co_await run c t w1 = (Throw e, w1)).
Proof.
  split; [ | split ].
  - intros T B E run w a f e Hf Hfin Hrun g w1.
    assert (Hadv : Generator.advance run g w = (Throw e, w1))
      by exact (advance_throw run _ _ _ _ Hf Hfin Hrun).
    assert (Hng : detail.is_good_handle w1 (Some a) = false)
      by apply is_good_handle_done, done_insert.
    split; [ | split; [ | split ] ].
    + unfold Generator.begin. now rewrite (bind_throw _ _ _ _ _ Hadv).
    + rewrite iterator_incr_good
        by now rewrite (is_good_handle_lookup _ _ _ Hf), Hfin.
      now rewrite (bind_throw _ _ _ _ _ Hadv).
    + intros k. now apply begin_times_not_good.
    + now apply (begin_not_good run w1 g).
  - intros T B E run w a f e c Hf Hfin Hex Hrun g w1.
    assert (Hco : AsyncGenerator.co_await run c (AsyncGenerator.advance_op_of (Some a)) w
                  = (Throw e, w1)).
    { rewrite (co_await_live run c _ _ _ Hf Hfin Hex).
      unfold AsyncGenerator.one_step. now rewrite Hrun. }
    split; [ | split ].
    + unfold g. rewrite (await_begin_live run c _ _ _ Hf Hfin Hex).
      unfold AsyncGenerator.one_step. now rewrite Hrun.
    + exact Hco.
    + intros c'. apply await_begin_not_good. apply is_good_handle_done, done_insert.
  - intros St R B E PT run w a f e Hf Hfin Hrun t w1.
    unfold w1, t. rewrite (task_resume_live run _ _ _ Hf Hfin).
    rewrite (task_resume_frame run _ _ _ Hf Hfin), Hrun. cbn [snd].
    split.
    + erewrite result_value_lookup by apply lookup_world_insert.
      now rewrite (promise_result_value_exception _ e).
    + intros c. erewrite task_co_await_done; [ | apply lookup_world_insert | reflexivity ].
      now rewrite (promise_result_value_exception _ e).
Qed.

(** Tests GeneratorTest.ExceptionBeforeYield,
    AsyncGeneratorTest.ExceptionBeforeYield and TaskTest.Exception. *)
Lemma failure_rethrown_witness :
  let e := user_exception 7 in
  let run := @Bodies.run_script Z unit in
  let body := [Bodies.raise e; Bodies.yield 1%Z] in
  let run_t := @Bodies.run_task unit unit in
  let wg := snd (Generator.create run body coro.empty) in
  let wa := snd (AsyncGenerator.create (steady run) body coro.empty) in
  let wt := snd (Task.create (PT := Task.promise_type_void) run_t (Bodies.t_throw e)
                   coro.empty) in
  let t := Task.Task (Some 0) in
  let wt1 := snd (Task.task_resume run_t t wt) in
  fst (Generator.begin run (Generator.Gen (Some 0)) wg) = Throw e
  /\ fst (AsyncGenerator.await_begin (steady run) 1 (AsyncGenerator.Gen (Some 0)) wa) = Throw e
  /\ Task.result_value t wt1 = (Throw e, wt1).
Proof.
  intros e run body run_t wg wa wt t wt1.
  destruct failure_rethrown as (Hg & Ha & Ht).
  split; [ | split ].
  - destruct (Hg Z _ unit run wg 0 (coro.Frame Generator.promise_init body false) e
                eq_refl eq_refl eq_refl) as [H _].
    unfold e. now rewrite H.
  - destruct (Ha Z _ unit (steady run) wa 0
                (coro.Frame AsyncGenerator.promise_init body false) e 1
                eq_refl eq_refl eq_refl eq_refl) as [H _].
    unfold e. now rewrite H.
  - destruct (Ht _ _ _ unit Task.promise_type_void run_t wt 0
                (coro.Frame Task.promise_init (Bodies.t_throw e) false) e
                eq_refl eq_refl eq_refl) as [H _].
    exact H.
Defined.

(** C1 as stated fails for tasks (test TaskTest.Exception, the result read
    twice): the body of the task throws, the first [result_value()]
    rethrows the exception, and the second [result_value()] rethrows it
    again, where the claim has no further rethrow. A second [co_await]
    rethrows it as well. *)
Lemma task_failure_rethrown_again :
  let e := user_exception 7 in
  let run := @Bodies.run_task unit unit in
  let t := Task.Task (Some 0) in
  let w0 := snd ((Task.create (PT := Task.promise_type_void) run (Bodies.t_throw e) ;;;
                  Task.task_resume run t) coro.empty) in
  let w1 := snd (Task.result_value t w0) in
  let w2 := snd (Task.co_await run 5 t w1) in
  fst (Task.result_value t w0) = Throw e
  /\ fst (Task.result_value t w1) = Throw e
  /\ fst (Task.co_await run 5 t w1) = Throw e
  /\ fst (Task.co_await run 5 t w2) = Throw e.
Proof. repeat split; reflexivity. Qed.

(** * Further properties of the code *)

(** ** detail.h *)

(** X1. [is_ready] is the opposite of [is_good_handle], as detail.h says,
    for every handle and every state; so [task::resume()] resumes exactly
    the coroutines that [is_good_handle] accepts, and an awaiter suspends
    on exactly those. [check_coroutine] throws [bad_task] exactly for the
    empty handle and changes nothing. *)
Theorem ready_is_not_good :
  forall (P B E : Type) (w : coro.world P B E) (h : option nat),
    detail.is_ready w h = negb (detail.is_good_handle w h)
    /\ (detail.check_coroutine h w = (Throw bad_task, w) <-> h = None)
    /\ (detail.check_coroutine h w = (Ok tt, w) <-> h <> None).
Proof.
  intros P B E w h. split; [apply is_ready_not_good | ].
  destruct h as [a|]; simpl; split; split; intros H;
    try discriminate; try reflexivity; try congruence.
Qed.

(** ** task.h *)

Section TaskMore.
Context {St R B E : Type} {PT : Task.promise_type St R}.
Context (run : B -> list E * Task.step B R).
Implicit Types (w : coro.world (Task.promise St) B E).

Lemma resume_times_ready w t k :
  Task.is_ready w t = true ->
  Task.resume_times run k t w = (Ok (replicate k false), w).
Proof.
  intros H. induction k as [|k IH]; [reflexivity | ].
  cbn [Task.resume_times].
  rewrite (bind_ok _ _ _ _ _ (task_resume_ready run _ _ H)).
  now rewrite (bind_ok _ _ _ _ _ IH).
Qed.

(** The calls of [resume()] on a task whose body stops [n] times and then
    returns [r]: [n] calls return [true], every later call [false]; the
    frame ends with [r] stored. *)
Lemma resume_times_returns a b n r :
  returns_after run b n r ->
  forall w p m,
    coro.heap w !! a = Some (coro.Frame p b false) ->
    exists w' b',
      Task.resume_times run (n + S m) (Task.Task (Some a)) w
        = (Ok (replicate n true ++ replicate (S m) false), w')
      /\ coro.heap w' !! a
         = Some (coro.Frame
                   (Task.Promise (Task.base p) (Task.return_value r (Task.m_result p)))
                   b' true).
Proof.
  induction 1 as [b r Hret | b k n r Hsus Hrest IH]; intros w p m Hf.
  - cbn [Nat.add Task.resume_times].
    rewrite (bind_ok _ _ _ _ _ (task_resume_live run _ _ _ Hf eq_refl)).
    rewrite (task_resume_frame run _ _ _ Hf eq_refl).
    cbn [coro.body coro.promise snd]. rewrite Hret.
    erewrite bind_ok.
    + eexists _, _. split; [reflexivity | apply lookup_world_insert].
    + apply resume_times_ready. unfold Task.is_ready. rewrite is_ready_not_good.
      simpl. erewrite is_good_handle_lookup by apply lookup_world_insert. reflexivity.
  - cbn [Nat.add Task.resume_times].
    rewrite (bind_ok _ _ _ _ _ (task_resume_live run _ _ _ Hf eq_refl)).
    rewrite (task_resume_frame run _ _ _ Hf eq_refl).
    cbn [coro.body coro.promise snd]. rewrite Hsus.
    match goal with
    | |- context [bind (Task.resume_times run _ _) _ ?w1] =>
        destruct (IH w1 p m (lookup_world_insert _ _ _ _ _)) as (w' & b' & Hrun & Hlook)
    end.
    rewrite (bind_ok _ _ _ _ _ Hrun).
    eexists _, _. split; [reflexivity | exact Hlook].
Qed.

End TaskMore.

(** X2. [task::destroy()] on a task that owns a coroutine destroys the
    frame without running the body, empties the handle and returns
    [true]; a second [destroy()] finds the handle empty, returns [false]
    and changes nothing (test TaskTest.Destroy). *)
Theorem task_destroy_twice :
  forall (St R B E : Type) (PT : Task.promise_type St R)
         (w : coro.world (Task.promise St) B E) objs this a f,
    objs !! this = Some (Task.Task (Some a)) ->
    coro.heap w !! a = Some f ->
    let objs' := <[this := Task.Task None]> objs in
    let w' := coro.World (delete a (coro.heap w)) (coro.next w) (coro.log w) in
    Task.destroy this objs w = (Ok (true, objs'), w')
    /\ Task.destroy this objs' w' = (Ok (false, objs'), w')
    /\ coro.heap w' !! a = None
    /\ objs' !! this = Some (Task.Task None).
Proof.
  intros St R B E PT w objs this a f Hobj Hf objs' w'.
  split; [ | split; [ | split ] ].
  - unfold Task.destroy. rewrite Hobj. simpl.
    unfold bind, coro.destroy. now rewrite Hf.
  - unfold Task.destroy, objs'. now rewrite lookup_insert_eq.
  - apply lookup_delete_eq.
  - apply lookup_insert_eq.
Qed.

Lemma task_destroy_twice_witness :
  let run := @Bodies.run_task unit unit in
  let w := snd (Task.create (PT := Task.promise_type_void) run (Bodies.t_return tt)
                  coro.empty) in
  let objs : gmap nat Task.task := {[10 := Task.Task (Some 0)]} in
  let objs' : gmap nat Task.task := <[10 := Task.Task None]> objs in
  fst (Task.destroy 10 objs w) = Ok (true, objs')
  /\ fst (Task.destroy 10 objs' (snd (Task.destroy 10 objs w))) = Ok (false, objs').
Proof.
  intros run w objs objs'.
  destruct (task_destroy_twice _ _ _ _ Task.promise_type_void w objs 10 0
              (coro.Frame Task.promise_init (Bodies.t_return tt) false)
              eq_refl eq_refl) as (H1 & H2 & _).
  split.
  - now rewrite H1.
  - rewrite H1. cbn [snd]. unfold objs'. now rewrite H2.
Defined.

(** X3. [task::resume()] counts the suspensions of the body: on a task
    of [T] whose body stops [n] times at a [co_await] of its own and then
    returns [r], the first [n] calls of [resume()] return [true] (not
    ready yet), the next call returns [false], every later call returns
    [false] without running anything, and [result_value()] is then [r]
    (test TaskTest.MultiSuspend, resumption by resumption). *)
Theorem task_resume_counts :
  forall (T B E : Type) (run : B -> list E * Task.step B T)
         (w : coro.world (Task.promise (option T)) B E) a b n r m,
    returns_after run b n r ->
    coro.heap w !! a = Some (coro.Frame Task.promise_init b false) ->
    let t := Task.Task (Some a) in
    fst (Task.resume_times run (n + S m) t w)
      = Ok (replicate n true ++ replicate (S m) false)
    /\ fst (Task.result_value t (snd (Task.resume_times run (n + S m) t w))) = Ok r
    /\ Task.is_ready (snd (Task.resume_times run (n + S m) t w)) t = true.
Proof.
  intros T B E run w a b n r m Hb Hf t.
  destruct (resume_times_returns run a b n r Hb w _ m Hf) as (w' & b' & Hrun & Hlook).
  unfold t. rewrite Hrun. cbn [fst snd]. split; [reflexivity | split].
  - now rewrite (result_value_lookup _ _ _ Hlook).
  - unfold Task.is_ready. rewrite is_ready_not_good. simpl.
    now rewrite (is_good_handle_lookup _ _ _ Hlook).
Qed.

(** Test TaskTest.MultiSuspend: three suspensions, then [co_return 8]. *)
Lemma task_resume_counts_witness :
  let run := @Bodies.run_task Z unit in
  let body := Bodies.t_suspend (Bodies.t_suspend (Bodies.t_suspend (Bodies.t_return 8%Z))) in
  let w := snd (Task.create (PT := Task.promise_type_T Z) run body coro.empty) in
  let t := Task.Task (Some 0) in
  fst (Task.resume_times run 5 t w) = Ok [true; true; true; false; false]
  /\ fst (Task.result_value t (snd (Task.resume_times run 5 t w))) = Ok 8%Z.
Proof.
  intros run body w t.
  destruct (task_resume_counts Z _ unit run w 0 body 3 8%Z 1) as (H1 & H2 & _).
  - repeat (eapply returns_later; [reflexivity | ]). apply returns_now. reflexivity.
  - reflexivity.
  - split; [exact H1 | exact H2].
Defined.

(** X4. Awaiting a task twice: on an unfinished task of [T] whose body
    returns [r] when it is run, [co_await] runs the body once and gives
    [r]; the task is finished then, and every later [co_await], from any
    coroutine, gives [r] again at once: the body is not run again, no
    effect is logged and the state is left as it is; [result_value()]
    gives the same [r] (test TaskTest.SynchronousCompletionAlt). *)
Theorem task_await_again :
  forall (T B E : Type) (run : B -> list E * Task.step B T)
         (w : coro.world (Task.promise (option T)) B E) a f c r,
    coro.heap w !! a = Some f ->
    coro.at_final_suspend f = false ->
    Task.m_exception (Task.base (coro.promise f)) = None ->
    snd (run (coro.body f)) = Task.returned r ->
    let t := Task.Task (Some a) in
    let w1 :=
      coro.World
        (<[a := coro.Frame (Task.Promise (Task.Base (Some c) None) (Some r))
                  (coro.body f) true]> (coro.heap w))
        (coro.next w) (coro.log w ++ fst (run (coro.body f))) in
    Task.co_await run c t w = (Ok (Some r), w1)
    /\ (forall c', Task.co_await run c' t w1 = (Ok (Some r), w1))
    /\ Task.result_value t w1 = (Ok r, w1).
Proof.
  intros T B E run w a f c r Hf Hfin Hex Hrun t w1.
  split; [ | split ].
  - unfold t. rewrite (task_co_await_live run c _ _ _ Hf Hfin Hex), Hrun. reflexivity.
  - intros c'. unfold t.
    now erewrite task_co_await_done by (apply lookup_world_insert || reflexivity).
  - unfold t. now erewrite result_value_lookup by apply lookup_world_insert.
Qed.

Lemma task_await_again_witness :
  let run := @Bodies.run_task Z unit in
  let w := snd (Task.create (PT := Task.promise_type_T Z) run
                  (Bodies.t_effect tt (Bodies.t_return 1%Z)) coro.empty) in
  let t := Task.Task (Some 0) in
  let w1 := snd (Task.co_await run 5 t w) in
  fst (Task.co_await run 5 t w) = Ok (Some 1%Z)
  /\ coro.log w1 = [tt]
  /\ Task.co_await run 5 t w1 = (Ok (Some 1%Z), w1).
Proof.
  intros run w t w1.
  destruct (task_await_again Z _ unit run w 0
              (coro.Frame Task.promise_init (Bodies.t_effect tt (Bodies.t_return 1%Z)) false)
              5 1%Z eq_refl eq_refl eq_refl eq_refl) as (H1 & H2 & _).
  unfold w1, t. rewrite H1. cbn [fst snd].
  split; [reflexivity | split; [reflexivity | apply H2]].
Defined.

(** X5. Continuation chaining. When a coroutine at [c] awaits an
    unfinished task and the body of the task stops at a [co_await] of its
    own, the awaiting coroutine stays suspended, the task is not ready and
    its promise records [c] as the continuation. When the task is resumed
    later and its body ends, by [co_return] or by an exception, the final
    awaiter names [c]: control passes to the awaiting coroutine. A task
    that nobody awaits has no continuation, and the final awaiter names
    the no-op coroutine: control returns to whoever called [resume()]. *)
Theorem task_continuation :
  forall (St R B E : Type) (PT : Task.promise_type St R)
         (run : B -> list E * Task.step B R)
         (w : coro.world (Task.promise St) B E) a f c k,
    coro.heap w !! a = Some f ->
    coro.at_final_suspend f = false ->
    Task.m_exception (Task.base (coro.promise f)) = None ->
    snd (run (coro.body f)) = Task.suspended k ->
    let t := Task.Task (Some a) in
    let w1 :=
      coro.World
        (<[a := coro.Frame (Task.set_next (Some c) (coro.promise f)) k false]>
           (coro.heap w))
        (coro.next w) (coro.log w ++ fst (run (coro.body f))) in
    Task.co_await run c t w = (Ok None, w1)
    /\ Task.is_ready w1 t = false
    /\ fst (Task.resume run a w1)
       = Ok (match snd (run k) with
             | Task.suspended _ => None
             | _ => Some c
             end)
    /\ (Task.m_next (Task.base (coro.promise f)) = None ->
        fst (Task.resume run a w) = Ok None
        /\ fst (Task.resume run a (snd (Task.resume run a w))) = Ok None).
Proof.
  intros St R B E PT run w a f c k Hf Hfin Hex Hrun t w1.
  split; [ | split; [ | split ] ].
  - unfold t. rewrite (task_co_await_live run c _ _ _ Hf Hfin Hex), Hrun. reflexivity.
  - unfold Task.is_ready. rewrite is_ready_not_good. simpl.
    now erewrite is_good_handle_lookup by apply lookup_world_insert.
  - erewrite task_resume_frame by (apply lookup_world_insert || reflexivity).
    cbn [fst coro.body coro.promise Task.set_next Task.base Task.m_next].
    destruct (snd (run k)); reflexivity.
  - intros Hnone.
    rewrite (task_resume_frame run _ _ _ Hf Hfin), Hrun. cbn [fst snd].
    split; [reflexivity | ].
    erewrite task_resume_frame by (apply lookup_world_insert || reflexivity).
    cbn [fst coro.body coro.promise]. rewrite Hnone.
    destruct (snd (run k)); reflexivity.
Qed.

Lemma task_continuation_witness :
  let run := @Bodies.run_task Z unit in
  let body := Bodies.t_suspend (Bodies.t_return 8%Z) in
  let w := snd (Task.create (PT := Task.promise_type_T Z) run body coro.empty) in
  let t := Task.Task (Some 0) in
  let w1 := snd (Task.co_await run 5 t w) in
  fst (Task.co_await run 5 t w) = Ok None
  /\ fst (Task.resume run 0 w1) = Ok (Some 5).
Proof.
  intros run body w t w1.
  destruct (task_continuation _ _ _ unit (Task.promise_type_T Z) run w 0
              (coro.Frame Task.promise_init body false) 5 (Bodies.t_return 8%Z)
              eq_refl eq_refl eq_refl eq_refl) as (H1 & _ & H3 & _).
  unfold w1, t. rewrite H1. cbn [fst snd]. split; [reflexivity | exact H3].
Defined.

(** ** eager_task.h *)

(** X6. [run_awaitable(f)] for a function [f] that returns a task drives
    the task before it returns to its caller. When the body of the task
    returns without stopping, the effects of the body have been performed,
    the frame of the task has been destroyed again, and the call returns
    normally (test EagerTaskTest.RunAwaitable). When the body stops at a
    [co_await] of its own, the call returns with the task suspended and
    the eager coroutine recorded as its continuation. When the body lets
    an exception escape, or when [f] returns an empty task (the
    [co_await] throws [bad_task]), the exception reaches
    [eager_task::promise_type::unhandled_exception] and [std::terminate]
    is called. *)
Theorem run_awaitable_drives :
  forall (St R B E : Type) (PT : Task.promise_type St R)
         (run : B -> list E * Task.step B R)
         (w : coro.world (Task.promise St) B E) b,
    (forall r s, Task.stored_result (Task.return_value r s) = Ok r) ->
    let c := coro.next w in
    let a := S (coro.next w) in
    let log' := coro.log w ++ fst (run b) in
    RunAwaitable.run_awaitable run (Task.create run b) w =
      match snd (run b) with
      | Task.returned _ =>
          (Ok tt, coro.World (delete a (coro.heap w)) (S a) log')
      | Task.suspended k =>
          (Ok tt,
           coro.World
             (<[a := coro.Frame
                       (Task.Promise (Task.Base (Some c) None) Task.m_result_init)
                       k false]> (coro.heap w))
             (S a) log')
      | Task.threw e =>
          (Terminate,
           coro.World
             (<[a := coro.Frame
                       (Task.Promise (Task.Base (Some c) (Some e)) Task.m_result_init)
                       b true]> (coro.heap w))
             (S a) log')
      end
    /\ RunAwaitable.run_awaitable run (ret Task.default) w
       = (Terminate, coro.World (coro.heap w) (S (coro.next w)) (coro.log w)).
Proof.
  intros St R B E PT run w b Hlaw c a log'. split; [ | reflexivity ].
  subst c a log'.
  unfold RunAwaitable.run_awaitable, EagerTask.call.
  erewrite bind_ok by reflexivity.
  cbn [coro.next coro.heap coro.log].
  match goal with
  | |- context [bind (Task.co_await run ?c' ?t') _ ?w1] =>
      pose proof (task_co_await_live run c' w1 (S (coro.next w))
                    (coro.Frame Task.promise_init b false)
                    (lookup_world_insert _ _ _ _ _) eq_refl eq_refl) as Hco
  end.
  cbn [coro.body coro.promise coro.heap coro.next coro.log Task.set_next
       Task.promise_init Task.base Task.m_result Task.m_next Task.m_exception] in Hco.
  unfold bind at 1. rewrite Hco.
  destruct (snd (run b)) as [k|r|e].
  - now heap_simpl.
  - rewrite Hlaw. cbn [Task.m_coroutine].
    unfold coro.destroy. cbn [coro.heap coro.next coro.log].
    rewrite lookup_insert_eq, insert_insert_eq, delete_insert_eq. reflexivity.
  - now heap_simpl.
Qed.

(** Test EagerTaskTest.RunAwaitable: the body of the task sets a flag. *)
Lemma run_awaitable_drives_witness :
  let flag := tt in
  let run := @Bodies.run_task unit unit in
  RunAwaitable.run_awaitable (PT := Task.promise_type_void) run
    (Task.create run (Bodies.t_effect flag (Bodies.t_return tt))) coro.empty
  = (Ok tt, coro.World ∅ 2 [flag]).
Proof.
  intros flag run.
  destruct (run_awaitable_drives _ _ _ unit Task.promise_type_void run coro.empty
              (Bodies.t_effect flag (Bodies.t_return tt))) as [H _].
  - intros [] []. reflexivity.
  - rewrite H. reflexivity.
Defined.

(** ** generator.h *)

Section GeneratorMore.
Context {T B E : Type} (run : B -> list E * suspension B T).
Implicit Types (w : coro.world (Generator.promise_type T) B E).

Lemma begin_throw w a f e :
  coro.heap w !! a = Some f ->
  coro.at_final_suspend f = false ->
  snd (run (coro.body f)) = co_throw e ->
  Generator.begin run (Generator.Gen (Some a)) w =
    (Throw e,
     coro.World
       (<[a := coro.Frame (Generator.Promise (Generator.m_value (coro.promise f)) None)
                 (coro.body f) true]> (coro.heap w))
       (coro.next w) (coro.log w ++ fst (run (coro.body f)))).
Proof.
  intros Hf Hfin Hrun. unfold Generator.begin.
  now rewrite (bind_throw _ _ _ _ _ (advance_throw run _ _ _ _ Hf Hfin Hrun)).
Qed.

(** Calls of [begin()] on a generator whose body yields [l] and then
    throws [e]. *)
Lemma begin_times_throws a b l e :
  yields_then_throws run b l e ->
  forall w p,
    coro.heap w !! a = Some (coro.Frame p b false) ->
    Generator.m_exception p = None ->
    fst (Generator.begin_times run (length l) (Generator.Gen (Some a)) w)
      = Ok (map Some l)
    /\ forall n,
         exists w',
           Generator.begin_times run (length l + S n) (Generator.Gen (Some a)) w
             = (Throw e, w')
           /\ coro.done w' a = true.
Proof.
  induction 1 as [b e Hthrow | b v b' l e Hrun Hrest IH]; intros w p Hf Hex.
  - split; [reflexivity | ]. intros n. cbn [length Nat.add Generator.begin_times].
    eexists. split.
    + apply bind_throw. unfold Generator.begin_observe. apply bind_throw.
      apply (begin_throw _ _ _ _ Hf eq_refl Hthrow).
    + apply done_insert.
  - pose proof (begin_observe_yield run _ _ _ _ _ Hf eq_refl Hex Hrun) as Hobs.
    cbn [coro.body] in Hobs.
    match type of Hobs with
    | _ = (_, ?w1) =>
        destruct (IH w1 _ (lookup_world_insert _ _ _ _ _) eq_refl) as [IH1 IH2]
    end.
    split.
    + cbn [length Generator.begin_times]. rewrite (bind_ok _ _ _ _ _ Hobs).
      unfold bind.
      destruct (Generator.begin_times run (length l) _ _) as [[os| | |] w'];
        simpl in IH1; try discriminate.
      injection IH1 as ->. reflexivity.
    + intros n. destruct (IH2 n) as (w' & Hrun' & Hdone).
      exists w'. split; [ | exact Hdone ].
      cbn [length Nat.add Generator.begin_times]. rewrite (bind_ok _ _ _ _ _ Hobs).
      now rewrite (bind_throw _ _ _ _ _ Hrun').
Qed.

(** The range-based [for] on a generator at a value [v] whose body goes on
    to yield [l] and then throws [e]: the exception leaves the loop. *)
Lemma iterate_throws a g b l e :
  yields_then_throws run b l e ->
  forall fuel w v acc,
    length l < fuel ->
    coro.heap w !! a = Some (coro.Frame (Generator.Promise (Some v) None) b false) ->
    exists w',
      Generator.iterate run fuel g (Generator.Iter (Some a)) acc w = (Throw e, w')
      /\ coro.done w' a = true.
Proof.
  induction 1 as [b e Hthrow | b v' b' l e Hrun Hrest IH];
    intros fuel w v acc Hfuel Hf;
    (destruct fuel as [|n]; [simpl in Hfuel; lia | ]);
    rewrite (iterate_live run _ _ _ _ _ v _ Hf) by reflexivity;
    unfold Generator.one_step; cbn [coro.body].
  - rewrite Hthrow. eexists. split; [reflexivity | apply done_insert].
  - rewrite Hrun. apply (IH n _ v'); [simpl in Hfuel; lia | apply lookup_insert_eq].
Qed.

End GeneratorMore.

(** The destructor of an object with an empty handle, and of an object
    that owns a frame. *)
Lemma generator_destructor_empty {T B E : Type}
    (w : coro.world (Generator.promise_type T) B E) objs this :
  objs !! this = Some (Generator.Gen None) ->
  Generator.destructor this objs w = (Ok (delete this objs), w).
Proof. intros H. unfold Generator.destructor. now rewrite H. Qed.

Lemma generator_destructor_owner {T B E : Type}
    (w : coro.world (Generator.promise_type T) B E) objs this a f :
  objs !! this = Some (Generator.Gen (Some a)) ->
  coro.heap w !! a = Some f ->
  Generator.destructor this objs w =
    (Ok (delete this objs),
     coro.World (delete a (coro.heap w)) (coro.next w) (coro.log w)).
Proof.
  intros H Hf. unfold Generator.destructor. rewrite H. simpl.
  unfold bind, coro.destroy. now rewrite Hf.
Qed.

Lemma task_destructor_empty {St B E : Type}
    (w : coro.world (Task.promise St) B E) objs this :
  objs !! this = Some (Task.Task None) ->
  Task.destructor this objs w = (Ok (delete this objs), w).
Proof. intros H. unfold Task.destructor. now rewrite H. Qed.

Lemma task_destructor_owner {St B E : Type}
    (w : coro.world (Task.promise St) B E) objs this a f :
  objs !! this = Some (Task.Task (Some a)) ->
  coro.heap w !! a = Some f ->
  Task.destructor this objs w =
    (Ok (delete this objs),
     coro.World (delete a (coro.heap w)) (coro.next w) (coro.log w)).
Proof.
  intros H Hf. unfold Task.destructor. rewrite H. simpl.
  unfold bind, coro.destroy. now rewrite Hf.
Qed.

(** X7. Single ownership under moves: after a generator, or a task, has
    been move-constructed from another one, destroying both objects, in
    either order, destroys the coroutine exactly once: the destructor of
    the source finds an empty handle and does nothing, the destructor of
    the target destroys the frame, no destructor meets a frame that is
    already gone, and the body is never run. *)
Theorem moved_then_destroyed_once :
  (forall (T B E : Type) (w : coro.world (Generator.promise_type T) B E)
          objs this other a f,
      objs !! other = Some (Generator.Gen (Some a)) ->
      objs !! this = None ->
      coro.heap w !! a = Some f ->
      let w' := coro.World (delete a (coro.heap w)) (coro.next w) (coro.log w) in
      (exists objs',
          (o1 <- Generator.move_construct this other objs ;;
           o2 <- Generator.destructor other o1 ;;
           Generator.destructor this o2) w = (Ok objs', w')
          /\ objs' !! this = None /\ objs' !! other = None)
      /\ (exists objs',
          (o1 <- Generator.move_construct this other objs ;;
           o2 <- Generator.destructor this o1 ;;
           Generator.destructor other o2) w = (Ok objs', w')
          /\ objs' !! this = None /\ objs' !! other = None))
  /\ (forall (St B E : Type) (w : coro.world (Task.promise St) B E)
             objs this other a f,
      objs !! other = Some (Task.Task (Some a)) ->
      objs !! this = None ->
      coro.heap w !! a = Some f ->
      let w' := coro.World (delete a (coro.heap w)) (coro.next w) (coro.log w) in
      (exists objs',
          (o1 <- Task.move_construct this other objs ;;
           o2 <- Task.destructor other o1 ;;
           Task.destructor this o2) w = (Ok objs', w')
          /\ objs' !! this = None /\ objs' !! other = None)
      /\ (exists objs',
          (o1 <- Task.move_construct this other objs ;;
           o2 <- Task.destructor this o1 ;;
           Task.destructor other o2) w = (Ok objs', w')
          /\ objs' !! this = None /\ objs' !! other = None)).
Proof.
  split.
  - intros T B E w objs this other a f Ho Hthis Hf w'.
    assert (Hne : this <> other) by congruence.
    assert (Hmove : Generator.move_construct this other objs w =
              (Ok (<[this := Generator.Gen (Some a)]>
                     (<[other := Generator.Gen None]> objs)), w))
      by (unfold Generator.move_construct; now rewrite Ho).
    split; eexists; (split; [ | split ]).
    + rewrite (bind_ok _ _ _ _ _ Hmove).
      erewrite bind_ok.
      2:{ apply generator_destructor_empty.
          rewrite lookup_insert_ne by exact Hne. apply lookup_insert_eq. }
      apply (generator_destructor_owner _ _ _ a f); [ | exact Hf ].
      rewrite lookup_delete_ne by congruence. apply lookup_insert_eq.
    + apply lookup_delete_eq.
    + rewrite lookup_delete_ne by exact Hne. apply lookup_delete_eq.
    + rewrite (bind_ok _ _ _ _ _ Hmove).
      erewrite bind_ok.
      2:{ apply (generator_destructor_owner _ _ _ a f); [ | exact Hf ].
          apply lookup_insert_eq. }
      apply generator_destructor_empty.
      rewrite lookup_delete_ne, lookup_insert_ne by congruence. apply lookup_insert_eq.
    + rewrite lookup_delete_ne by congruence. apply lookup_delete_eq.
    + apply lookup_delete_eq.
  - intros St B E w objs this other a f Ho Hthis Hf w'.
    assert (Hne : this <> other) by congruence.
    assert (Hmove : Task.move_construct this other objs w =
              (Ok (<[this := Task.Task (Some a)]>
                     (<[other := Task.Task None]> objs)), w))
      by (unfold Task.move_construct; now rewrite Ho).
    split; eexists; (split; [ | split ]).
    + rewrite (bind_ok _ _ _ _ _ Hmove).
      erewrite bind_ok.
      2:{ apply task_destructor_empty.
          rewrite lookup_insert_ne by exact Hne. apply lookup_insert_eq. }
      apply (task_destructor_owner _ _ _ a f); [ | exact Hf ].
      rewrite lookup_delete_ne by congruence. apply lookup_insert_eq.
    + apply lookup_delete_eq.
    + rewrite lookup_delete_ne by exact Hne. apply lookup_delete_eq.
    + rewrite (bind_ok _ _ _ _ _ Hmove).
      erewrite bind_ok.
      2:{ apply (task_destructor_owner _ _ _ a f); [ | exact Hf ].
          apply lookup_insert_eq. }
      apply task_destructor_empty.
      rewrite lookup_delete_ne, lookup_insert_ne by congruence. apply lookup_insert_eq.
    + rewrite lookup_delete_ne by congruence. apply lookup_delete_eq.
    + apply lookup_delete_eq.
Qed.

(** Tests GeneratorTest.MoveConstruct and TaskTest.MoveConstruct, with the
    two objects going out of scope afterwards. *)
Lemma moved_then_destroyed_once_witness :
  let run_g := @Bodies.run_script Z unit in
  let run_t := @Bodies.run_task Z unit in
  let wg := snd (Generator.create run_g (Bodies.yield_all [1; 2]%Z) coro.empty) in
  let wt := snd (Task.create (PT := Task.promise_type_T Z) run_t (Bodies.t_return 1%Z)
                   coro.empty) in
  let gens : gmap nat Generator.generator := {[10 := Generator.Gen (Some 0)]} in
  let tasks : gmap nat Task.task := {[10 := Task.Task (Some 0)]} in
  (exists objs',
      (o1 <- Generator.move_construct 11 10 gens ;;
       o2 <- Generator.destructor 10 o1 ;;
       Generator.destructor 11 o2) wg = (Ok objs', coro.World ∅ 1 []))
  /\ (exists objs',
      (o1 <- Task.move_construct 11 10 tasks ;;
       o2 <- Task.destructor 11 o1 ;;
       Task.destructor 10 o2) wt = (Ok objs', coro.World ∅ 1 [])).
Proof.
  intros run_g run_t wg wt gens tasks.
  destruct moved_then_destroyed_once as [Hg Ht]. split.
  - destruct (Hg Z _ unit wg gens 11 10 0
                (coro.Frame Generator.promise_init (Bodies.yield_all [1; 2]%Z) false)
                eq_refl eq_refl eq_refl) as [(objs' & H & _) _].
    exists objs'. rewrite H. reflexivity.
  - destruct (Ht _ _ unit wt tasks 11 10 0
                (coro.Frame Task.promise_init (Bodies.t_return 1%Z) false)
                eq_refl eq_refl eq_refl) as [_ (objs' & H & _)].
    exists objs'. rewrite H. reflexivity.
Defined.

(** X8. The iterators of a generator share its state: [begin()] called
    twice on a live generator whose body yields [v1] and then [v2] gives
    two iterators on the same handle, and both dereference to [v2]; [v1]
    can no longer be read. When one of the two is incremented and the body
    yields [v3], the other dereferences to [v3] as well (test
    GeneratorTest.IteratorUB). *)
Theorem iterators_share_state :
  forall (T B E : Type) (run : B -> list E * suspension B T)
         (w : coro.world (Generator.promise_type T) B E) a f v1 k1 v2 k2,
    coro.heap w !! a = Some f ->
    coro.at_final_suspend f = false ->
    Generator.m_exception (coro.promise f) = None ->
    snd (run (coro.body f)) = co_yield v1 k1 ->
    snd (run k1) = co_yield v2 k2 ->
    let g := Generator.Gen (Some a) in
    let it := Generator.Iter (Some a) in
    exists w2,
      (it1 <- Generator.begin run g ;; it2 <- Generator.begin run g ;; ret (it1, it2)) w
        = (Ok (it, it), w2)
      /\ Generator.iterator_deref it w2 = (Ok v2, w2)
      /\ forall v3 k3,
           snd (run k2) = co_yield v3 k3 ->
           exists w3,
             Generator.iterator_incr run it w2 = (Ok it, w3)
             /\ Generator.iterator_deref it w3 = (Ok v3, w3).
Proof.
  intros T B E run w a f v1 k1 v2 k2 Hf Hfin Hex Hr1 Hr2 g it.
  pose proof (begin_live run _ _ _ Hf Hfin Hex) as Hb1.
  unfold Generator.one_step in Hb1. rewrite Hr1 in Hb1.
  match type of Hb1 with
  | _ = (_, ?w1) =>
      pose proof (begin_live run w1 a _ (lookup_world_insert _ _ _ _ _) eq_refl eq_refl)
        as Hb2
  end.
  unfold Generator.one_step in Hb2. cbn [coro.body] in Hb2. rewrite Hr2 in Hb2.
  eexists. split; [ | split ].
  - unfold g. rewrite (bind_ok _ _ _ _ _ Hb1), (bind_ok _ _ _ _ _ Hb2). reflexivity.
  - apply (iterator_deref_live _ _ _ v2 (lookup_world_insert _ _ _ _ _));
      reflexivity.
  - intros v3 k3 Hr3. eexists. split.
    + unfold it. erewrite iterator_incr_live
        by (apply lookup_world_insert || reflexivity).
      unfold Generator.one_step. cbn [coro.body]. rewrite Hr3. reflexivity.
    + apply (iterator_deref_live _ _ _ v3 (lookup_world_insert _ _ _ _ _));
        reflexivity.
Qed.

(** As in test GeneratorTest.IteratorUB: a generator that yields 1, 2,
    3, ... *)
Lemma iterators_share_state_witness :
  let run := Bodies.first_n in
  let w := snd (Generator.create run (1, 9)%Z coro.empty) in
  let g := Generator.Gen (Some 0) in
  let it := Generator.Iter (Some 0) in
  exists w2,
    (it1 <- Generator.begin run g ;; it2 <- Generator.begin run g ;; ret (it1, it2)) w
      = (Ok (it, it), w2)
    /\ Generator.iterator_deref it w2 = (Ok 2%Z, w2).
Proof.
  intros run w g it.
  destruct (iterators_share_state Z _ unit run w 0
              (coro.Frame Generator.promise_init (1, 9)%Z false)
              1%Z (2, 9)%Z 2%Z (3, 9)%Z eq_refl eq_refl eq_refl eq_refl eq_refl)
    as (w2 & H1 & H2 & _).
  exists w2. split; [exact H1 | exact H2].
Defined.

(** X9. Failure after [N] values: on a generator that has not started
    and whose body yields the [N] elements of [l] and then lets the
    exception [e] escape, the first [N] calls of [begin()] see the
    elements of [l], the next call rethrows [e] and leaves the generator
    finished; a range-based [for] sees the [N] elements and is left by
    [e] (tests GeneratorTest.ExceptionBeforeYield and
    GeneratorTest.ExceptionAfterYield). *)
Theorem generator_failure_point :
  forall (T B E : Type) (run : B -> list E * suspension B T)
         (w : coro.world (Generator.promise_type T) B E) a b l e,
    yields_then_throws run b l e ->
    coro.heap w !! a = Some (coro.Frame Generator.promise_init b false) ->
    let g := Generator.Gen (Some a) in
    fst (Generator.begin_times run (length l) g w) = Ok (map Some l)
    /\ (forall n,
          exists w',
            Generator.begin_times run (length l + S n) g w = (Throw e, w')
            /\ coro.done w' a = true)
    /\ (forall fuel,
          length l <= fuel ->
          exists w',
            Generator.collect run fuel g w = (Throw e, w')
            /\ coro.done w' a = true
            /\ Generator.begin run g w' = (Ok (Generator.Iter (Some a)), w')).
Proof.
  intros T B E run w a b l e Hb Hf g.
  destruct (begin_times_throws run a b l e Hb w _ Hf eq_refl) as [H1 H2].
  split; [exact H1 | split; [exact H2 | ]].
  intros fuel Hfuel. unfold Generator.collect, g.
  destruct Hb as [b e Hthrow | b v b' l e Hrun Hrest].
  - eexists. split; [ | split ].
    + apply bind_throw. apply (begin_throw run _ _ _ _ Hf eq_refl Hthrow).
    + apply done_insert.
    + apply begin_not_good. apply is_good_handle_done, done_insert.
  - pose proof (begin_live run _ _ _ Hf eq_refl eq_refl) as Hb1.
    unfold Generator.one_step in Hb1. cbn [coro.body] in Hb1. rewrite Hrun in Hb1.
    rewrite (bind_ok _ _ _ _ _ Hb1).
    match goal with
    | |- context [Generator.iterate run fuel ?g' _ [] ?w1] =>
        destruct (iterate_throws run a g' b' l e Hrest fuel w1 v []) as (w' & Hit & Hdone);
          [ simpl in Hfuel; lia | apply lookup_world_insert | ]
    end.
    exists w'. split; [exact Hit | split; [exact Hdone | ]].
    apply begin_not_good. now apply is_good_handle_done.
Qed.

Lemma generator_failure_point_witness :
  let e := user_exception 7 in
  let run := @Bodies.run_script Z unit in
  let body := [Bodies.yield 1%Z; Bodies.raise e] in
  let w := snd (Generator.create run body coro.empty) in
  let g := Generator.Gen (Some 0) in
  fst (Generator.begin_times run 1 g w) = Ok [Some 1%Z]
  /\ fst (Generator.begin_times run 2 g w) = Throw e
  /\ fst (Generator.collect run 5 g w) = Throw e.
Proof.
  intros e run body w g.
  destruct (generator_failure_point Z _ unit run w 0 body [1%Z] e) as (H1 & H2 & H3).
  - eapply throws_later; [reflexivity | ]. apply throws_now. reflexivity.
  - reflexivity.
  - split; [exact H1 | split].
    + destruct (H2 0) as (w' & H & _). cbn [length Nat.add] in H.
      unfold g. now rewrite H.
    + destruct (H3 5) as (w' & H & _); [simpl; lia | ]. unfold g. now rewrite H.
Defined.

(** ** async_generator.h *)

Section AsyncMore.
Context {T B E : Type} (run : B -> list E * production B T).
Implicit Types (w : coro.world (AsyncGenerator.promise_type T) B E).

Lemma async_iterator_incr_live w a f :
  coro.heap w !! a = Some f ->
  coro.at_final_suspend f = false ->
  AsyncGenerator.iterator_incr (AsyncGenerator.Iter (Some a)) w
  = (Ok (AsyncGenerator.advance_op_of (Some a)), w).
Proof.
  intros Hf Hfin. unfold AsyncGenerator.iterator_incr. simpl.
  now rewrite (is_good_handle_lookup _ _ _ Hf), Hfin.
Qed.

Lemma async_iterate_done w c i acc n :
  detail.is_good_handle w (AsyncGenerator.it_coroutine i) = false ->
  AsyncGenerator.iterate run (S n) c i acc w = (Ok (Some acc), w).
Proof.
  intros H. cbn [AsyncGenerator.iterate]. unfold AsyncGenerator.iterator_is_end.
  now rewrite H.
Qed.

(** One turn of the loop in the awaiting coroutine on a live producer. *)
Lemma async_iterate_live c a n w f v acc :
  coro.heap w !! a = Some f ->
  coro.at_final_suspend f = false ->
  AsyncGenerator.m_current_value (coro.promise f) = Some v ->
  AsyncGenerator.m_exception (coro.promise f) = None ->
  AsyncGenerator.iterate run (S n) c (AsyncGenerator.Iter (Some a)) acc w =
    match AsyncGenerator.one_step run c a f w with
    | (Ok (Some _), w') =>
        AsyncGenerator.iterate run n c (AsyncGenerator.Iter (Some a)) (acc ++ [v]) w'
    | (Ok None, w') => (Ok None, w')
    | (Throw e, w') => (Throw e, w')
    | (Terminate, w') => (Terminate, w')
    | (Undefined, w') => (Undefined, w')
    end.
Proof.
  intros Hf Hfin Hv Hex. cbn [AsyncGenerator.iterate].
  unfold AsyncGenerator.iterator_is_end. cbn [AsyncGenerator.it_coroutine].
  rewrite (is_good_handle_lookup _ _ _ Hf), Hfin. cbn [negb].
  rewrite (bind_ok _ _ _ _ _ (async_iterator_deref_live _ _ _ v Hf Hfin Hv)).
  rewrite (bind_ok _ _ _ _ _ (async_iterator_incr_live _ _ _ Hf Hfin)).
  unfold bind at 1. rewrite (co_await_live run c _ _ _ Hf Hfin Hex).
  destruct (AsyncGenerator.one_step run c a f w) as [[[it|]| | |] w']; reflexivity.
Qed.

Lemma async_iterate_yields c a b l :
  async_yields run b l ->
  forall fuel w c0 v acc,
    length l + 2 <= fuel ->
    coro.heap w !! a
      = Some (coro.Frame (AsyncGenerator.Promise (Some v) c0 None) b false) ->
    fst (AsyncGenerator.iterate run fuel c (AsyncGenerator.Iter (Some a)) acc w)
    = Ok (Some (acc ++ v :: l)).
Proof.
  induction 1 as [b Hend | b v' b' l Hrun Hyl IH];
    intros fuel w c0 v acc Hfuel Hf;
    (destruct fuel as [|n]; [simpl in Hfuel; lia | ]);
    rewrite (async_iterate_live _ _ _ _ _ v _ Hf) by reflexivity;
    unfold AsyncGenerator.one_step; cbn [coro.body].
  - rewrite Hend. destruct n as [|n]; [simpl in Hfuel; lia | ].
    rewrite async_iterate_done; [reflexivity | ].
    apply is_good_handle_done, done_insert.
  - rewrite Hrun.
    rewrite (IH n _ (Some c) v' (acc ++ [v]));
      [ now rewrite <- app_assoc | simpl in Hfuel; lia | apply lookup_insert_eq ].
Qed.

Lemma async_iterate_throws c a b l e :
  async_yields_then_throws run b l e ->
  forall fuel w c0 v acc,
    length l < fuel ->
    coro.heap w !! a
      = Some (coro.Frame (AsyncGenerator.Promise (Some v) c0 None) b false) ->
    exists w',
      AsyncGenerator.iterate run fuel c (AsyncGenerator.Iter (Some a)) acc w
        = (Throw e, w')
      /\ coro.done w' a = true.
Proof.
  induction 1 as [b e Hthrow | b v' b' l e Hrun Hrest IH];
    intros fuel w c0 v acc Hfuel Hf;
    (destruct fuel as [|n]; [simpl in Hfuel; lia | ]);
    rewrite (async_iterate_live _ _ _ _ _ v _ Hf) by reflexivity;
    unfold AsyncGenerator.one_step; cbn [coro.body].
  - rewrite Hthrow. eexists. split; [reflexivity | apply done_insert].
  - rewrite Hrun.
    apply (IH n _ (Some c) v'); [simpl in Hfuel; lia | apply lookup_insert_eq].
Qed.

(** What the awaiting coroutine gets depends on whether the body of the
    producer stops at a [co_await] of its own. *)
Lemma co_await_stalled c w a f k :
  coro.heap w !! a = Some f ->
  coro.at_final_suspend f = false ->
  snd (run (coro.body f)) = stalled k ->
  fst (AsyncGenerator.co_await run c (AsyncGenerator.advance_op_of (Some a)) w)
  = Ok None.
Proof.
  intros Hf Hfin Hrun. unfold AsyncGenerator.co_await.
  cbn [AsyncGenerator.await_ready AsyncGenerator.advance_op_of
       AsyncGenerator.addressof_promise AsyncGenerator.m_promise].
  rewrite (bind_ok _ _ _ _ _ (await_suspend_lookup c _ _ _ Hf)).
  erewrite bind_ok;
    [ | apply async_resume_live; [apply lookup_world_insert | exact Hfin] ].
  cbn [coro.promise coro.body AsyncGenerator.set_consumer AsyncGenerator.m_consumer
       AsyncGenerator.m_exception AsyncGenerator.m_current_value coro.heap coro.next
       coro.log].
  now rewrite Hrun.
Qed.

Lemma co_await_produced c w a f p :
  coro.heap w !! a = Some f ->
  coro.at_final_suspend f = false ->
  snd (run (coro.body f)) = produced p ->
  fst (AsyncGenerator.co_await run c (AsyncGenerator.advance_op_of (Some a)) w)
  <> Ok None.
Proof.
  intros Hf Hfin Hrun. unfold AsyncGenerator.co_await.
  cbn [AsyncGenerator.await_ready AsyncGenerator.advance_op_of
       AsyncGenerator.addressof_promise AsyncGenerator.m_promise].
  rewrite (bind_ok _ _ _ _ _ (await_suspend_lookup c _ _ _ Hf)).
  erewrite bind_ok;
    [ | apply async_resume_live; [apply lookup_world_insert | exact Hfin] ].
  cbn [coro.promise coro.body AsyncGenerator.set_consumer AsyncGenerator.m_consumer
       AsyncGenerator.m_exception AsyncGenerator.m_current_value coro.heap coro.next
       coro.log].
  rewrite Hrun. rewrite bool_decide_eq_true_2 by reflexivity.
  unfold bind.
  erewrite await_resume_lookup by apply lookup_world_insert.
  destruct p as [v k| |e];
    cbn [coro.promise AsyncGenerator.m_current_value AsyncGenerator.m_exception];
    [ discriminate
    | destruct (AsyncGenerator.m_exception (coro.promise f)); discriminate
    | discriminate ].
Qed.

End AsyncMore.

(** X10. The iterator of an asynchronous generator at and before the
    end. On an iterator whose handle is empty or whose coroutine has
    finished, [++it] and [*it] throw [bad_result_access] and change
    nothing, and the iterator equals the sentinel that [end()] returns. On
    an iterator with a live handle, [++it] changes nothing and gives the
    advance operation of that handle, so that [co_await ++it] does what
    [co_await g.begin()] does. At the end the two differ: [++it] throws,
    [co_await g.begin()] gives the end iterator. The comparison of an
    iterator with the sentinel agrees with its comparison with an
    iterator on the null handle. *)
Theorem async_iterator_advance :
  forall (T B E : Type) (run : B -> list E * production B T)
         (w : coro.world (AsyncGenerator.promise_type T) B E)
         (i : AsyncGenerator.iterator) (c : nat),
    let g := AsyncGenerator.Gen (AsyncGenerator.it_coroutine i) in
    (detail.is_good_handle w (AsyncGenerator.it_coroutine i) = false ->
     AsyncGenerator.iterator_incr i w = (Throw bad_result_access, w)
     /\ AsyncGenerator.iterator_deref i w = (Throw bad_result_access, w)
     /\ AsyncGenerator.iterator_is_end w i = true
     /\ AsyncGenerator.await_begin run c g w
       = (Ok (Some (AsyncGenerator.Iter None)), w))
    /\ (detail.is_good_handle w (AsyncGenerator.it_coroutine i) = true ->
        AsyncGenerator.iterator_incr i w
          = (Ok (AsyncGenerator.advance_op_of (AsyncGenerator.it_coroutine i)), w)
        /\ AsyncGenerator.iterator_is_end w i = false
        /\ (op <- AsyncGenerator.iterator_incr i ;; AsyncGenerator.co_await run c op) w
           = AsyncGenerator.await_begin run c g w)
    /\ AsyncGenerator.iterator_is_end w i
       = AsyncGenerator.iterator_eq w i (AsyncGenerator.Iter None).
Proof.
  intros T B E run w i c g. split; [ | split ].
  - intros H. unfold AsyncGenerator.iterator_incr, AsyncGenerator.iterator_deref,
      AsyncGenerator.iterator_is_end. rewrite H.
    repeat split. now apply await_begin_not_good.
  - intros H. unfold AsyncGenerator.iterator_incr, AsyncGenerator.iterator_is_end,
      AsyncGenerator.await_begin, AsyncGenerator.begin, bind.
    cbn [g AsyncGenerator.m_coroutine]. rewrite H. repeat split.
  - unfold AsyncGenerator.iterator_is_end, AsyncGenerator.iterator_eq.
    cbn [AsyncGenerator.it_coroutine]. rewrite is_good_handle_null, andb_true_r.
    destruct i as [[a|]]; reflexivity.
Qed.

(** Tests AsyncGeneratorIteratorTest.IteratePastEnd and
    AsyncGeneratorTest.OneValue. *)
Lemma async_iterator_advance_witness :
  let run := @Bodies.run_script Z unit in
  let i := AsyncGenerator.Iter (Some 0) in
  let g := AsyncGenerator.Gen (Some 0) in
  let w := snd ((g <- AsyncGenerator.create (steady run) [Bodies.yield 1983%Z] ;;
                 AsyncGenerator.await_begin (steady run) 1 g) coro.empty) in
  let w' := snd (AsyncGenerator.await_begin (steady run) 1 g w) in
  (op <- AsyncGenerator.iterator_incr i ;; AsyncGenerator.co_await (steady run) 1 op) w
    = AsyncGenerator.await_begin (steady run) 1 g w
  /\ AsyncGenerator.iterator_incr i w' = (Throw bad_result_access, w')
  /\ AsyncGenerator.iterator_deref i w' = (Throw bad_result_access, w').
Proof.
  intros run i g w w'.
  destruct (async_iterator_advance Z _ unit (steady run) w i 1) as (_ & Hlive & _).
  destruct (async_iterator_advance Z _ unit (steady run) w' i 1) as (Hend & _ & _).
  split; [ | split ].
  - apply Hlive. reflexivity.
  - apply Hend. reflexivity.
  - apply Hend. reflexivity.
Defined.

(** X11. Iterating an asynchronous generator from a coroutine, as
    examples/async_generator.cpp does: [co_await g.begin()], then [*it] and
    [co_await ++it] until the iterator equals [end()]. On a generator that
    has not been started and whose body reaches each [co_yield], its end
    or its failure without stopping at a [co_await] of its own, the loop
    collects exactly the values that the body yields, in order, when the
    body returns after them; when the body throws after them, the
    exception leaves the loop in the awaiting coroutine. *)
Theorem async_collect :
  forall (T B E : Type) (run : B -> list E * production B T)
         (w : coro.world (AsyncGenerator.promise_type T) B E)
         (a c : nat) (b : B) (l : list T) (fuel : nat),
    coro.heap w !! a = Some (coro.Frame AsyncGenerator.promise_init b false) ->
    length l + 2 <= fuel ->
    (async_yields run b l ->
     fst (AsyncGenerator.collect run fuel c (AsyncGenerator.Gen (Some a)) w)
     = Ok (Some l))
    /\ (forall e,
          async_yields_then_throws run b l e ->
          fst (AsyncGenerator.collect run fuel c (AsyncGenerator.Gen (Some a)) w)
          = Throw e).
Proof.
  intros T B E run w a c b l fuel Hf Hfuel. split.
  - intros Hy. unfold AsyncGenerator.collect, bind.
    rewrite (await_begin_live run c _ _ _ Hf) by reflexivity.
    unfold AsyncGenerator.one_step. cbn [coro.body].
    destruct Hy as [b Hend | b v b' l Hrun Hyl].
    + rewrite Hend. destruct fuel as [|n]; [simpl in Hfuel; lia | ].
      rewrite async_iterate_done; [reflexivity | reflexivity].
    + rewrite Hrun.
      apply (async_iterate_yields run c a b' l Hyl fuel _ (Some c) v []);
        [simpl in Hfuel; lia | apply lookup_insert_eq].
  - intros e Ht. unfold AsyncGenerator.collect, bind.
    rewrite (await_begin_live run c _ _ _ Hf) by reflexivity.
    unfold AsyncGenerator.one_step. cbn [coro.body].
    destruct Ht as [b e Hthrow | b v b' l e Hrun Hrest].
    + now rewrite Hthrow.
    + rewrite Hrun.
      destruct (async_iterate_throws run c a b' l e Hrest fuel
                  (coro.World
                     (<[a := coro.Frame (AsyncGenerator.Promise (Some v) (Some c) None)
                               b' false]> (coro.heap w))
                     (coro.next w) (coro.log w ++ fst (run b)))
                  (Some c) v []) as (w' & Hw' & _);
        [simpl in Hfuel; lia | apply lookup_insert_eq | ].
      now rewrite Hw'.
Qed.

(** Test AsyncGeneratorTest.MultipleValues and
    AsyncGeneratorTest.ExceptionAfterYield. *)
Lemma async_collect_witness :
  let run := @Bodies.run_script Z unit in
  fst ((g <- AsyncGenerator.create (steady run) (Bodies.yield_all [1; 2; 3]%Z) ;;
        AsyncGenerator.collect (steady run) 5 7 g) coro.empty) = Ok (Some [1; 2; 3]%Z)
  /\ fst ((g <- AsyncGenerator.create (steady run) [Bodies.yield 1%Z; Bodies.raise (user_exception 0)] ;;
           AsyncGenerator.collect (steady run) 3 7 g) coro.empty) = Throw (user_exception 0).
Proof.
  intros run. split.
  - apply (async_collect Z _ unit (steady run) _ 0 7 (Bodies.yield_all [1; 2; 3]%Z) [1; 2; 3]%Z 5);
      [reflexivity | simpl; lia | ].
    repeat (eapply async_yields_more; [reflexivity | ]). now apply async_yields_end.
  - apply (async_collect Z _ unit (steady run) _ 0 7
             [Bodies.yield 1%Z; Bodies.raise (user_exception 0)] [1%Z] 3);
      [reflexivity | simpl; lia | ].
    eapply async_throws_later; [reflexivity | ]. now apply async_throws_now.
Defined.

(** X12. The hand-over between the awaiting coroutine and the producer.
    When the coroutine at [c] awaits an advance operation on a producer
    that has not finished, [await_suspend] records [c] in the promise and
    the producer runs its body once. Whatever the body reaches (a yield,
    its end or a failure) and whichever consumer it had recorded before,
    the producer names [c] as the coroutine to continue, so the
    [co_await] comes back to [c] with an iterator or with the exception of
    the body. When the body stops at a [co_await] of its own instead, [c]
    stays recorded, the producer is left suspended, no coroutine is named
    and the [co_await] does not come back to [c] in this step. *)
Theorem async_handshake :
  forall (T B E : Type) (run : B -> list E * production B T)
         (w : coro.world (AsyncGenerator.promise_type T) B E)
         (a c : nat) (f : coro.frame (AsyncGenerator.promise_type T) B),
    coro.heap w !! a = Some f ->
    coro.at_final_suspend f = false ->
    let op := AsyncGenerator.advance_op_of (Some a) in
    let r := (AsyncGenerator.await_suspend (Some c) op ;;;
              AsyncGenerator.resume run a) w in
    fst r = Ok match snd (run (coro.body f)) with
               | produced _ => Some c
               | stalled _ => None
               end
    /\ coro.log (snd r) = coro.log w ++ fst (run (coro.body f))
    /\ (exists f',
          coro.heap (snd r) !! a = Some f'
          /\ AsyncGenerator.m_consumer (coro.promise f') = Some c
          /\ coro.at_final_suspend f'
             = match snd (run (coro.body f)) with
               | produced (co_yield _ _) => false
               | stalled _ => false
               | _ => true
               end)
    /\ match snd (run (coro.body f)) with
       | produced _ =>
           (exists i, fst (AsyncGenerator.co_await run c op w) = Ok (Some i))
           \/ (exists e, fst (AsyncGenerator.co_await run c op w) = Throw e)
       | stalled _ => fst (AsyncGenerator.co_await run c op w) = Ok None
       end.
Proof.
  intros T B E run w a c f Hf Hfin op r.
  assert (Hr : r =
    (Ok match snd (run (coro.body f)) with
        | produced _ => Some c
        | stalled _ => None
        end,
     coro.World
       (<[a := match snd (run (coro.body f)) with
               | produced (co_yield v k) =>
                   coro.Frame
                     (AsyncGenerator.Promise (Some v) (Some c)
                        (AsyncGenerator.m_exception (coro.promise f))) k false
               | produced co_return =>
                   coro.Frame
                     (AsyncGenerator.Promise None (Some c)
                        (AsyncGenerator.m_exception (coro.promise f)))
                     (coro.body f) true
               | produced (co_throw e) =>
                   coro.Frame (AsyncGenerator.Promise None (Some c) (Some e))
                     (coro.body f) true
               | stalled k =>
                   coro.Frame
                     (AsyncGenerator.Promise
                        (AsyncGenerator.m_current_value (coro.promise f)) (Some c)
                        (AsyncGenerator.m_exception (coro.promise f))) k false
               end]> (coro.heap w))
       (coro.next w) (coro.log w ++ fst (run (coro.body f))))).
  { unfold r, op.
    rewrite (bind_ok _ _ _ _ _ (await_suspend_lookup c _ _ _ Hf)).
    erewrite async_resume_live; [ | apply lookup_world_insert | exact Hfin ].
    cbn [coro.promise coro.body AsyncGenerator.set_consumer AsyncGenerator.m_consumer
         AsyncGenerator.m_exception AsyncGenerator.m_current_value coro.heap coro.next
         coro.log].
    destruct (snd (run (coro.body f))) as [[v k| |e] | k]; now heap_simpl. }
  split; [now rewrite Hr | split; [now rewrite Hr | split ] ].
  - rewrite Hr. cbn [snd coro.heap]. eexists. split; [apply lookup_insert_eq | ].
    destruct (snd (run (coro.body f))) as [[v k| |e] | k]; split; reflexivity.
  - unfold op, AsyncGenerator.co_await.
    cbn [AsyncGenerator.await_ready AsyncGenerator.advance_op_of
         AsyncGenerator.addressof_promise AsyncGenerator.m_promise].
    rewrite (bind_ok _ _ _ _ _ (await_suspend_lookup c _ _ _ Hf)).
    erewrite bind_ok;
      [ | apply async_resume_live; [apply lookup_world_insert | exact Hfin] ].
    cbn [coro.promise coro.body AsyncGenerator.set_consumer AsyncGenerator.m_consumer
         AsyncGenerator.m_exception AsyncGenerator.m_current_value coro.heap coro.next
         coro.log].
    destruct (snd (run (coro.body f))) as [[v k| |e] | k];
      [ rewrite bool_decide_eq_true_2 by reflexivity;
        unfold bind;
        erewrite await_resume_lookup by apply lookup_world_insert;
        cbn [coro.promise AsyncGenerator.m_current_value
             AsyncGenerator.m_exception] .. | reflexivity ].
    + left. now eexists.
    + destruct (AsyncGenerator.m_exception (coro.promise f));
        [right | left]; eexists; reflexivity.
    + right. eexists; reflexivity.
Qed.

(** A producer that has yielded to the coroutine at 1 is next awaited by
    the coroutine at 2. *)
Lemma async_handshake_witness :
  let run := @Bodies.run_script Z unit in
  let g := AsyncGenerator.Gen (Some 0) in
  let w := snd ((AsyncGenerator.create (steady run) (Bodies.yield_all [1; 2]%Z) ;;;
                 AsyncGenerator.await_begin (steady run) 1 g) coro.empty) in
  fst ((AsyncGenerator.await_suspend (Some 2) (AsyncGenerator.advance_op_of (Some 0)) ;;;
        AsyncGenerator.resume (steady run) 0) w) = Ok (Some 2).
Proof.
  intros run g w.
  refine (proj1 (async_handshake Z _ unit (steady run) w 0 2
                   (coro.Frame (AsyncGenerator.Promise (Some 1%Z) (Some 1) None)
                      (Bodies.yield_all [2]%Z) false) _ _));
    reflexivity.
Defined.

(** X13. Moving asynchronous generators. Assigning a generator to itself
    changes nothing. Assigning from another generator destroys the
    coroutine that the target owned, if any, gives the target the handle
    of the source and leaves the source empty; move construction does the
    same without anything to destroy. Awaiting [begin()] on the emptied
    source gives the end iterator and runs nothing. *)
Theorem async_move_semantics :
  forall (T B E : Type) (run : B -> list E * production B T)
         (w : coro.world (AsyncGenerator.promise_type T) B E)
         objs this other g o,
    objs !! this = Some g ->
    objs !! other = Some o ->
    let objs' := <[this := AsyncGenerator.Gen (AsyncGenerator.m_coroutine o)]>
                   (<[other := AsyncGenerator.Gen None]> objs) in
    AsyncGenerator.move_assign this this objs w = (Ok objs, w)
    /\ (this <> other ->
        objs' !! other = Some (AsyncGenerator.Gen None)
        /\ objs' !! this = Some (AsyncGenerator.Gen (AsyncGenerator.m_coroutine o))
        /\ (AsyncGenerator.m_coroutine g = None ->
            AsyncGenerator.move_assign this other objs w = (Ok objs', w))
        /\ (forall a fa,
              AsyncGenerator.m_coroutine g = Some a ->
              coro.heap w !! a = Some fa ->
              AsyncGenerator.move_assign this other objs w =
                (Ok objs',
                 coro.World (delete a (coro.heap w)) (coro.next w) (coro.log w))))
    /\ (forall fresh,
          AsyncGenerator.move_construct fresh other objs w =
            (Ok (<[fresh := AsyncGenerator.Gen (AsyncGenerator.m_coroutine o)]>
                   (<[other := AsyncGenerator.Gen None]> objs)), w))
    /\ (forall c w',
          AsyncGenerator.await_begin run c (AsyncGenerator.Gen None) w'
          = (Ok (Some (AsyncGenerator.Iter None)), w')).
Proof.
  intros T B E run w objs this other g o Hg Ho objs'.
  split; [ | split; [ | split ] ].
  - unfold AsyncGenerator.move_assign. rewrite Hg.
    now rewrite bool_decide_eq_false_2 by (intros Hne; now apply Hne).
  - intros Hne. split; [ | split; [ | split ] ].
    + unfold objs'. rewrite lookup_insert_ne by exact Hne. apply lookup_insert_eq.
    + apply lookup_insert_eq.
    + intros Hnone. unfold AsyncGenerator.move_assign. rewrite Hg, Ho.
      rewrite bool_decide_eq_true_2 by exact Hne. now rewrite Hnone.
    + intros a fa Ha Hfa. unfold AsyncGenerator.move_assign. rewrite Hg, Ho.
      rewrite bool_decide_eq_true_2 by exact Hne. rewrite Ha.
      unfold bind, coro.destroy. now rewrite Hfa.
  - intros fresh. unfold AsyncGenerator.move_construct. now rewrite Ho.
  - reflexivity.
Qed.

(** Tests AsyncGeneratorTest.MoveAssign and AsyncGeneratorTest.MoveAssignSelf:
    [f] is at address 10, [g] at 11. *)
Lemma async_move_semantics_witness :
  let run := @Bodies.run_script Z unit in
  let w := snd ((AsyncGenerator.create (steady run) [Bodies.yield 1983%Z] ;;;
                 AsyncGenerator.create (steady run) [Bodies.yield 1973%Z]) coro.empty) in
  let gens : gmap nat AsyncGenerator.async_generator :=
    <[10 := AsyncGenerator.Gen (Some 0)]> (<[11 := AsyncGenerator.Gen (Some 1)]> ∅) in
  AsyncGenerator.move_assign 11 11 gens w = (Ok gens, w)
  /\ AsyncGenerator.move_assign 11 10 gens w =
       (Ok (<[11 := AsyncGenerator.Gen (Some 0)]>
              (<[10 := AsyncGenerator.Gen None]> gens)),
        coro.World (delete 1 (coro.heap w)) (coro.next w) (coro.log w)).
Proof.
  intros run w gens.
  destruct (async_move_semantics Z _ unit (steady run) w gens 11 10 (AsyncGenerator.Gen (Some 1))
              (AsyncGenerator.Gen (Some 0)) eq_refl eq_refl) as (Hself & Hother & _).
  split; [exact Hself | ].
  destruct Hother as (_ & _ & _ & Hdestroy); [lia | ].
  apply (Hdestroy 1
           (coro.Frame AsyncGenerator.promise_init [Bodies.yield 1973%Z] false));
    reflexivity.
Defined.


(** ** sync_generator_adapter.h *)

Section AdapterMore.
Context {T B E : Type} (run : B -> list E * production B T).
Implicit Types (w : coro.world (AsyncGenerator.promise_type T) B E).

Lemma adapter_iterate_throws a s b l e :
  async_yields_then_throws run b l e ->
  forall fuel w c v acc,
    length l < fuel ->
    coro.heap w !! a
      = Some (coro.Frame (AsyncGenerator.Promise (Some v) c None) b false) ->
    exists w',
      SyncGeneratorAdapter.iterate run fuel s
        (SyncGeneratorAdapter.Iter (AsyncGenerator.advance_op_of (Some a))
           (AsyncGenerator.Iter (Some a))) acc w = (Terminate, w')
      /\ coro.done w' a = true.
Proof.
  induction 1 as [b e Hthrow | b v' b' l e Hrun Hrest IH];
    intros fuel w c v acc Hfuel Hf;
    (destruct fuel as [|n]; [simpl in Hfuel; lia | ]);
    rewrite (adapter_iterate_live run _ _ _ _ _ v _ Hf) by reflexivity;
    unfold AsyncGenerator.one_step; cbn [coro.body].
  - rewrite Hthrow. eexists. split; [reflexivity | apply done_insert].
  - rewrite Hrun.
    apply (IH n _ (Some (coro.next w)) v');
      [simpl in Hfuel; lia | apply lookup_insert_eq].
Qed.

(** [advance()] assigns [m_it] only when the [co_await] in the eager
    coroutine gets its result. *)
Lemma adapter_advance_world op it0 it1 w :
  snd (SyncGeneratorAdapter.advance run (SyncGeneratorAdapter.Iter op it0) w)
  = snd (SyncGeneratorAdapter.advance run (SyncGeneratorAdapter.Iter op it1) w).
Proof.
  unfold SyncGeneratorAdapter.advance, EagerTask.call, bind.
  cbn [SyncGeneratorAdapter.m_op].
  destruct (AsyncGenerator.co_await run (coro.next w) op
              (coro.World (coro.heap w) (S (coro.next w)) (coro.log w)))
    as [[[it|]| | |] w']; reflexivity.
Qed.

Lemma adapter_advance_stalled a f k it0 w :
  coro.heap w !! a = Some f ->
  coro.at_final_suspend f = false ->
  snd (run (coro.body f)) = stalled k ->
  fst (SyncGeneratorAdapter.advance run
         (SyncGeneratorAdapter.Iter (AsyncGenerator.advance_op_of (Some a)) it0) w)
  = Ok (SyncGeneratorAdapter.Iter (AsyncGenerator.advance_op_of (Some a)) it0).
Proof.
  intros Hf Hfin Hrun.
  pose proof (co_await_stalled run (coro.next w)
                (coro.World (coro.heap w) (S (coro.next w)) (coro.log w))
                a f k Hf Hfin Hrun) as H.
  unfold SyncGeneratorAdapter.advance, EagerTask.call, bind.
  cbn [SyncGeneratorAdapter.m_op].
  destruct (AsyncGenerator.co_await run (coro.next w)
              (AsyncGenerator.advance_op_of (Some a))
              (coro.World (coro.heap w) (S (coro.next w)) (coro.log w)))
    as [[[it|]| | |] w']; cbn [fst] in H; try discriminate H. reflexivity.
Qed.

Lemma adapter_advance_produced a f p it0 it1 w :
  coro.heap w !! a = Some f ->
  coro.at_final_suspend f = false ->
  snd (run (coro.body f)) = produced p ->
  SyncGeneratorAdapter.advance run
    (SyncGeneratorAdapter.Iter (AsyncGenerator.advance_op_of (Some a)) it0) w
  = SyncGeneratorAdapter.advance run
      (SyncGeneratorAdapter.Iter (AsyncGenerator.advance_op_of (Some a)) it1) w.
Proof.
  intros Hf Hfin Hrun.
  pose proof (co_await_produced run (coro.next w)
                (coro.World (coro.heap w) (S (coro.next w)) (coro.log w))
                a f p Hf Hfin Hrun) as H.
  unfold SyncGeneratorAdapter.advance, EagerTask.call, bind.
  cbn [SyncGeneratorAdapter.m_op].
  destruct (AsyncGenerator.co_await run (coro.next w)
              (AsyncGenerator.advance_op_of (Some a))
              (coro.World (coro.heap w) (S (coro.next w)) (coro.log w)))
    as [[[it|]| | |] w']; cbn [fst] in H; try reflexivity. now contradict H.
Qed.

End AdapterMore.

(** X14. A failure of the producer under the synchronous adapter. The
    adapter advances the producer inside an [eager_task], whose
    [unhandled_exception()] calls [std::terminate()]. So when the body of
    the asynchronous generator yields some values and then throws,
    without stopping at a [co_await] of its own on the way, the
    range-based [for] over the adapter does not throw to its caller: the
    program is terminated at the step that reaches the failure, after the
    values before it were delivered. *)
Theorem adapter_failure_terminates :
  forall (T B E : Type) (run : B -> list E * production B T)
         (w : coro.world (AsyncGenerator.promise_type T) B E)
         (a : nat) (b : B) (l : list T) (e : exn) (fuel : nat),
    async_yields_then_throws run b l e ->
    coro.heap w !! a = Some (coro.Frame AsyncGenerator.promise_init b false) ->
    length l < fuel ->
    let s := SyncGeneratorAdapter.Adapter (AsyncGenerator.Gen (Some a)) in
    exists w',
      SyncGeneratorAdapter.collect run fuel s w = (Terminate, w')
      /\ coro.done w' a = true.
Proof.
  intros T B E run w a b l e fuel Ht Hf Hfuel s.
  unfold SyncGeneratorAdapter.collect, bind, s.
  rewrite (adapter_begin_live run _ _ _ Hf) by reflexivity.
  unfold AsyncGenerator.one_step. cbn [coro.body].
  destruct Ht as [b e Hthrow | b v b' l e Hrun Hrest].
  - rewrite Hthrow. eexists. split; [reflexivity | apply done_insert].
  - rewrite Hrun.
    apply (adapter_iterate_throws run a _ b' l e Hrest fuel _ (Some (coro.next w)) v []);
      [simpl in Hfuel; lia | apply lookup_insert_eq].
Qed.

(** The producer of test AsyncGeneratorTest.ExceptionAfterYield under the
    adapter. *)
Lemma adapter_failure_terminates_witness :
  let run := @Bodies.run_script Z unit in
  fst ((g <- AsyncGenerator.create (steady run) [Bodies.yield 1%Z; Bodies.raise (user_exception 0)] ;;
        SyncGeneratorAdapter.collect (steady run) 2 (SyncGeneratorAdapter.Adapter g)) coro.empty)
  = Terminate.
Proof.
  intros run.
  destruct (adapter_failure_terminates Z _ unit (steady run)
              (snd (AsyncGenerator.create (steady run)
                      [Bodies.yield 1%Z; Bodies.raise (user_exception 0)] coro.empty))
              0 [Bodies.yield 1%Z; Bodies.raise (user_exception 0)] [1%Z]
              (user_exception 0) 2) as (w' & Hw' & _).
  - eapply async_throws_later; [reflexivity | ]. now apply async_throws_now.
  - reflexivity.
  - simpl. lia.
  - unfold bind. cbn [AsyncGenerator.create] in *. exact (f_equal fst Hw').
Defined.

(** X15. The end of the adapter is stable (test
    SyncGeneratorAdapterTest.AllThingsEnd). When the generator under the
    adapter is empty or its coroutine has finished, every call of
    [begin()] returns an iterator equal to [end()], runs nothing of the
    producer and leaves its frame as it is; dereferencing that iterator
    throws [bad_result_access]. *)
Theorem adapter_idempotent_end :
  forall (T B E : Type) (run : B -> list E * production B T)
         (w : coro.world (AsyncGenerator.promise_type T) B E)
         (s : SyncGeneratorAdapter.sync_generator_adapter),
    detail.is_good_handle w
      (AsyncGenerator.m_coroutine (SyncGeneratorAdapter.m_gen s)) = false ->
    (exists it,
       SyncGeneratorAdapter.begin run s w
         = (Ok it, coro.World (coro.heap w) (S (coro.next w)) (coro.log w))
       /\ (forall w' : coro.world (AsyncGenerator.promise_type T) B E,
             SyncGeneratorAdapter.iterator_eq w' it (SyncGeneratorAdapter.end_ s) = true)
       /\ (forall w' : coro.world (AsyncGenerator.promise_type T) B E,
             SyncGeneratorAdapter.iterator_deref it w' = (Throw bad_result_access, w')))
    /\ (forall k,
          exists w',
            SyncGeneratorAdapter.begin_times run k s w = (Ok (replicate k None), w')
            /\ coro.heap w' = coro.heap w
            /\ coro.log w' = coro.log w).
Proof.
  intros T B E run w s H. split.
  - eexists. split; [now apply adapter_begin_not_good | split ].
    + intros w'. reflexivity.
    + intros w'. reflexivity.
  - intros k. eexists. split; [now apply adapter_begin_times_not_good | split ];
      reflexivity.
Qed.

(** Test SyncGeneratorAdapterTest.AllThingsEnd: the producer yields 0, 1,
    2, 3, 4 and has been driven to its end by six calls of [begin()]. *)
Lemma adapter_idempotent_end_witness :
  let run := @Bodies.run_script Z unit in
  let s := SyncGeneratorAdapter.Adapter (AsyncGenerator.Gen (Some 0)) in
  let w := snd ((AsyncGenerator.create (steady run) (Bodies.yield_all [0; 1; 2; 3; 4]%Z) ;;;
                 SyncGeneratorAdapter.begin_times (steady run) 6 s) coro.empty) in
  fst (SyncGeneratorAdapter.begin_times (steady run) 2 s w) = Ok [None; None].
Proof.
  intros run s w.
  destruct (adapter_idempotent_end Z _ unit (steady run) w s) as [_ H]; [reflexivity | ].
  destruct (H 2) as (w' & Hw' & _). now rewrite Hw'.
Defined.

(** X16. [++it] on an iterator of the adapter. Such an iterator holds one
    of three advance operations: that of a producer, from [begin()] on a
    generator with a good handle; the default one, from [begin()] on an
    empty or finished generator; or that of the null handle, in the
    iterator that [end()] returns. While the producer has not finished,
    [++it] on the first does what [begin()] of the adapter does: both await
    the same advance operation in a fresh [eager_task]; they differ only
    when the body of the producer stops at a [co_await] of its own, where
    [++it] keeps the position it had and [begin()] gives an iterator
    equal to [end()]. But [++it] does not
    look at the state of the producer first, as [begin()] and the [++] of
    the asynchronous iterator do: on an iterator whose producer has
    finished it resumes that coroutine at its final suspend point, for
    which no behaviour is defined, where [begin()] returns [end()] and the
    asynchronous iterator throws [bad_result_access]; on an iterator whose
    producer has been destroyed it writes to the promise of a frame that
    is gone. On the iterator that [end()] returns, [++it] is not ready and
    sets the consumer through the promise pointer that was taken from the
    null handle: no behaviour is defined there either, and no exception
    is thrown, whatever the documentation of [end()] says. On an iterator
    with the default operation [++it] is ready at once, runs nothing of
    any producer and gives an iterator equal to [end()]. *)
Theorem adapter_increment :
  forall (T B E : Type) (run : B -> list E * production B T)
         (w : coro.world (AsyncGenerator.promise_type T) B E),
    (forall (a : nat) (f : coro.frame (AsyncGenerator.promise_type T) B)
            (it0 : AsyncGenerator.iterator),
       coro.heap w !! a = Some f ->
       let it := SyncGeneratorAdapter.Iter (AsyncGenerator.advance_op_of (Some a)) it0 in
       let s := SyncGeneratorAdapter.Adapter (AsyncGenerator.Gen (Some a)) in
       (coro.at_final_suspend f = false ->
        snd (SyncGeneratorAdapter.iterator_incr run it w)
        = snd (SyncGeneratorAdapter.begin run s w)
        /\ (forall p,
              snd (run (coro.body f)) = produced p ->
              SyncGeneratorAdapter.iterator_incr run it w
              = SyncGeneratorAdapter.begin run s w)
        /\ (forall k,
              snd (run (coro.body f)) = stalled k ->
              fst (SyncGeneratorAdapter.iterator_incr run it w) = Ok it
              /\ fst (SyncGeneratorAdapter.begin run s w)
                 = Ok (SyncGeneratorAdapter.Iter (AsyncGenerator.advance_op_of (Some a))
                         (AsyncGenerator.Iter None))))
       /\ (coro.at_final_suspend f = true ->
           fst (SyncGeneratorAdapter.iterator_incr run it w) = Undefined
           /\ fst (SyncGeneratorAdapter.begin run s w)
              = Ok (SyncGeneratorAdapter.Iter AsyncGenerator.advance_op_default
                      (AsyncGenerator.Iter None))
           /\ AsyncGenerator.iterator_incr (AsyncGenerator.Iter (Some a)) w
              = (Throw bad_result_access, w)))
    /\ (forall (a : nat) (it0 : AsyncGenerator.iterator),
          coro.heap w !! a = None ->
          fst (SyncGeneratorAdapter.iterator_incr run
                 (SyncGeneratorAdapter.Iter (AsyncGenerator.advance_op_of (Some a)) it0) w)
          = Undefined)
    /\ (forall s : SyncGeneratorAdapter.sync_generator_adapter,
          fst (SyncGeneratorAdapter.iterator_incr run (SyncGeneratorAdapter.end_ s) w)
          = Undefined)
    /\ (forall it0 : AsyncGenerator.iterator,
          SyncGeneratorAdapter.iterator_incr run
            (SyncGeneratorAdapter.Iter AsyncGenerator.advance_op_default it0) w
          = (Ok (SyncGeneratorAdapter.Iter AsyncGenerator.advance_op_default
                   (AsyncGenerator.Iter None)),
             coro.World (coro.heap w) (S (coro.next w)) (coro.log w))
          /\ SyncGeneratorAdapter.iterator_eq w
               (SyncGeneratorAdapter.Iter AsyncGenerator.advance_op_default
                  (AsyncGenerator.Iter None))
               (SyncGeneratorAdapter.end_
                  (SyncGeneratorAdapter.Adapter (AsyncGenerator.Gen None)))
             = true).
Proof.
  intros T B E run w. split; [ | split; [ | split ] ].
  - intros a f it0 Hf it s. split.
    + intros Hfin.
      assert (Hbegin : SyncGeneratorAdapter.begin run s w
                       = SyncGeneratorAdapter.advance run
                           (SyncGeneratorAdapter.Iter
                              (AsyncGenerator.advance_op_of (Some a))
                              (AsyncGenerator.Iter None)) w).
      { unfold SyncGeneratorAdapter.begin, AsyncGenerator.begin.
        cbn [s SyncGeneratorAdapter.m_gen AsyncGenerator.m_coroutine].
        rewrite (is_good_handle_lookup _ _ _ Hf), Hfin. reflexivity. }
      rewrite Hbegin. unfold it, SyncGeneratorAdapter.iterator_incr.
      split; [apply adapter_advance_world | split ].
      * intros p Hrun. now apply (adapter_advance_produced run a f p).
      * intros k Hrun. split; now apply (adapter_advance_stalled run a f k).
    + intros Hfin. split; [ | split ].
      * unfold it, SyncGeneratorAdapter.iterator_incr, SyncGeneratorAdapter.advance,
          EagerTask.call, AsyncGenerator.co_await.
        cbn [SyncGeneratorAdapter.m_op AsyncGenerator.await_ready
             AsyncGenerator.advance_op_of AsyncGenerator.addressof_promise
             AsyncGenerator.m_promise].
        unfold bind at 1.
        rewrite (bind_ok _ _ _ _ _
                   (await_suspend_lookup (coro.next w)
                      (coro.World (coro.heap w) (S (coro.next w)) (coro.log w)) a f Hf)).
        unfold bind, AsyncGenerator.resume. cbn [coro.heap].
        rewrite lookup_insert_eq. cbn [coro.at_final_suspend]. now rewrite Hfin.
      * rewrite adapter_begin_not_good; [reflexivity | ].
        cbn [s SyncGeneratorAdapter.m_gen AsyncGenerator.m_coroutine].
        now rewrite (is_good_handle_lookup _ _ _ Hf), Hfin.
      * unfold AsyncGenerator.iterator_incr. cbn [AsyncGenerator.it_coroutine].
        now rewrite (is_good_handle_lookup _ _ _ Hf), Hfin.
  - intros a it0 Hnone.
    unfold SyncGeneratorAdapter.iterator_incr, SyncGeneratorAdapter.advance,
      EagerTask.call, AsyncGenerator.co_await.
    cbn [SyncGeneratorAdapter.m_op AsyncGenerator.await_ready
         AsyncGenerator.advance_op_of AsyncGenerator.addressof_promise
         AsyncGenerator.m_promise].
    unfold bind, AsyncGenerator.await_suspend, coro.get_promise.
    cbn [AsyncGenerator.m_promise AsyncGenerator.advance_op_of
         AsyncGenerator.addressof_promise coro.heap].
    unfold bind. cbn [coro.heap]. now rewrite Hnone.
  - intros s. reflexivity.
  - intros it0. split; reflexivity.
Qed.

(** A producer that yields one value, after the first and after the second
    call of [begin()] of the adapter; and [++] on [end()]. *)
Lemma adapter_increment_witness :
  let run := @Bodies.run_script Z unit in
  let s := SyncGeneratorAdapter.Adapter (AsyncGenerator.Gen (Some 0)) in
  let it := SyncGeneratorAdapter.Iter (AsyncGenerator.advance_op_of (Some 0))
              (AsyncGenerator.Iter (Some 0)) in
  let w1 := snd ((AsyncGenerator.create (steady run) [Bodies.yield 1983%Z] ;;;
                  SyncGeneratorAdapter.begin (steady run) s) coro.empty) in
  let w2 := snd (SyncGeneratorAdapter.begin (steady run) s w1) in
  SyncGeneratorAdapter.iterator_incr (steady run) it w1 = SyncGeneratorAdapter.begin (steady run) s w1
  /\ fst (SyncGeneratorAdapter.iterator_incr (steady run) it w2) = Undefined
  /\ fst (SyncGeneratorAdapter.iterator_incr (steady run) (SyncGeneratorAdapter.end_ s) w1)
     = Undefined.
Proof.
  intros run s it w1 w2. split; [ | split ].
  - refine (proj1 (proj2 (proj1 (proj1 (adapter_increment Z _ unit (steady run) w1) 0
                     (coro.Frame (AsyncGenerator.Promise (Some 1983%Z) (Some 1) None) [] false)
                     (AsyncGenerator.Iter (Some 0)) _) _)) co_return _); reflexivity.
  - refine (proj1 (proj2 (proj1 (adapter_increment Z _ unit (steady run) w2) 0
                     (coro.Frame (AsyncGenerator.Promise None (Some 2) None) [] true)
                     (AsyncGenerator.Iter (Some 0)) _) _)); reflexivity.
  - exact (proj1 (proj2 (proj2 (adapter_increment Z _ unit (steady run) w1))) s).
Defined.

(** ** The invariant of the promise objects *)

Section ReachableMore.
Context {T B E : Type} (run : B -> list E * suspension B T).
Context (arun : B -> list E * production B T).

Lemma delete_keeps {P : Type} (Q : coro.frame P B -> Prop)
    (m : gmap nat (coro.frame P B)) a :
  (forall a' f', m !! a' = Some f' -> Q f') ->
  forall a' f', delete a m !! a' = Some f' -> Q f'.
Proof.
  intros Hm a' f' H. destruct (decide (a' = a)) as [-> | Hne].
  - rewrite lookup_delete_eq in H. discriminate H.
  - rewrite lookup_delete_ne in H by (intros Heq; now apply Hne). now apply (Hm a').
Qed.

Lemma generator_settled_destroy a (w : coro.world (Generator.promise_type T) B E) :
  Generator.settled w -> Generator.settled (snd (coro.destroy a w)).
Proof.
  intros Hw. unfold coro.destroy. destruct (coro.heap w !! a); [ | exact Hw ].
  unfold Generator.settled. cbn [snd coro.heap].
  apply (delete_keeps
           (fun f => coro.at_final_suspend f = false ->
                     Generator.m_exception (coro.promise f) = None)).
  exact Hw.
Qed.

Lemma generator_settled_release h (w : coro.world (Generator.promise_type T) B E)
    {A : Type} (x : A) :
  Generator.settled w ->
  Generator.settled
    (snd ((match h with Some a => coro.destroy a | None => ret tt end ;;; ret x) w)).
Proof.
  intros Hw. destruct h as [a|]; [ | exact Hw ].
  pose proof (generator_settled_destroy a w Hw) as H.
  unfold bind. destruct (coro.destroy a w) as [[] w']; exact H.
Qed.

Lemma generator_settled_move_assign this other objs
    (w : coro.world (Generator.promise_type T) B E) :
  Generator.settled w ->
  Generator.settled (snd (Generator.move_assign this other objs w)).
Proof.
  intros Hw. unfold Generator.move_assign.
  destruct (objs !! this) as [g|]; [ | exact Hw ].
  destruct (objs !! other) as [o|]; [ | exact Hw ].
  destruct (bool_decide (this ≠ other)); [ | exact Hw ].
  now apply generator_settled_release.
Qed.

Lemma generator_settled_destructor this objs
    (w : coro.world (Generator.promise_type T) B E) :
  Generator.settled w ->
  Generator.settled (snd (Generator.destructor this objs w)).
Proof.
  intros Hw. unfold Generator.destructor.
  destruct (objs !! this) as [g|]; [ | exact Hw ].
  now apply generator_settled_release.
Qed.

Lemma generator_deref_keeps i (w : coro.world (Generator.promise_type T) B E) :
  snd (Generator.iterator_deref i w) = w.
Proof.
  unfold Generator.iterator_deref.
  destruct (detail.is_good_handle w (Generator.it_coroutine i)); [ | reflexivity ].
  destruct (Generator.it_coroutine i) as [a|]; [ | reflexivity ].
  unfold bind, coro.get_promise. now destruct (coro.heap w !! a).
Qed.

Lemma async_settled_destroy a (w : coro.world (AsyncGenerator.promise_type T) B E) :
  AsyncGenerator.settled w -> AsyncGenerator.settled (snd (coro.destroy a w)).
Proof.
  intros Hw. unfold coro.destroy. destruct (coro.heap w !! a); [ | exact Hw ].
  unfold AsyncGenerator.settled. cbn [snd coro.heap].
  apply (delete_keeps
           (fun f => coro.at_final_suspend f = false ->
                     AsyncGenerator.m_exception (coro.promise f) = None)).
  exact Hw.
Qed.

Lemma async_settled_move_assign this other objs
    (w : coro.world (AsyncGenerator.promise_type T) B E) :
  AsyncGenerator.settled w ->
  AsyncGenerator.settled (snd (AsyncGenerator.move_assign this other objs w)).
Proof.
  intros Hw. unfold AsyncGenerator.move_assign.
  destruct (objs !! this) as [g|]; [ | exact Hw ].
  destruct (objs !! other) as [o|]; [ | exact Hw ].
  destruct (bool_decide (this ≠ other)); [ | exact Hw ].
  destruct (AsyncGenerator.m_coroutine g) as [a|]; [ | exact Hw ].
  pose proof (async_settled_destroy a w Hw) as H.
  unfold bind. destruct (coro.destroy a w) as [[] w']; exact H.
Qed.

Lemma async_settled_destructor g (w : coro.world (AsyncGenerator.promise_type T) B E) :
  AsyncGenerator.settled w ->
  AsyncGenerator.settled (snd (AsyncGenerator.destructor g w)).
Proof.
  intros Hw. unfold AsyncGenerator.destructor.
  destruct (AsyncGenerator.m_coroutine g) as [a|]; [ | exact Hw ].
  now apply async_settled_destroy.
Qed.

Lemma async_settled_incr c i (w : coro.world (AsyncGenerator.promise_type T) B E) :
  AsyncGenerator.settled w ->
  AsyncGenerator.settled
    (snd ((op <- AsyncGenerator.iterator_incr i ;; AsyncGenerator.co_await arun c op) w)).
Proof.
  intros Hw. unfold bind at 1, AsyncGenerator.iterator_incr.
  destruct (detail.is_good_handle w (AsyncGenerator.it_coroutine i)) eqn:Hgood;
    [ | exact Hw ].
  pose proof (async_settled_await_begin arun c
                (AsyncGenerator.Gen (AsyncGenerator.it_coroutine i)) w Hw) as H.
  unfold AsyncGenerator.await_begin, AsyncGenerator.begin in H.
  cbn [AsyncGenerator.m_coroutine] in H. rewrite Hgood in H. exact H.
Qed.

End ReachableMore.

(** X17. The invariant of generators and asynchronous generators. A
    coroutine that has not finished has no exception stored in its
    promise: that holds where there are no coroutines, and every
    operation of the two classes keeps it (calling the coroutine,
    [begin()], [++it], [*it], move assignment, the destructor), whatever
    the body does and whether or not the operation throws. In such a
    state [begin()] on a generator that has not finished runs one
    production step of the body and nothing else; the body of an
    asynchronous generator may stop inside that step at a [co_await] of
    its own. *)
Theorem generators_stay_settled :
  (forall (T B E : Type) (run : B -> list E * suspension B T),
      Generator.settled (coro.empty : coro.world (Generator.promise_type T) B E)
      /\ forall w : coro.world (Generator.promise_type T) B E,
           Generator.settled w ->
           (forall b, Generator.settled (snd (Generator.create run b w)))
           /\ (forall g, Generator.settled (snd (Generator.begin run g w)))
           /\ (forall i, Generator.settled (snd (Generator.iterator_incr run i w)))
           /\ (forall i, snd (Generator.iterator_deref i w) = w)
           /\ (forall this other objs,
                 Generator.settled (snd (Generator.move_assign this other objs w)))
           /\ (forall this objs,
                 Generator.settled (snd (Generator.destructor this objs w)))
           /\ (forall a f,
                 coro.heap w !! a = Some f ->
                 coro.at_final_suspend f = false ->
                 Generator.advance run (Generator.Gen (Some a)) w
                 = Generator.one_step run a f w))
  /\ (forall (T B E : Type) (run : B -> list E * production B T),
        AsyncGenerator.settled
          (coro.empty : coro.world (AsyncGenerator.promise_type T) B E)
        /\ forall w : coro.world (AsyncGenerator.promise_type T) B E,
             AsyncGenerator.settled w ->
             (forall b, AsyncGenerator.settled (snd (AsyncGenerator.create run b w)))
             /\ (forall c g,
                   AsyncGenerator.settled (snd (AsyncGenerator.await_begin run c g w)))
             /\ (forall c i,
                   AsyncGenerator.settled
                     (snd ((op <- AsyncGenerator.iterator_incr i ;;
                            AsyncGenerator.co_await run c op) w)))
             /\ (forall this other objs,
                   AsyncGenerator.settled
                     (snd (AsyncGenerator.move_assign this other objs w)))
             /\ (forall g, AsyncGenerator.settled (snd (AsyncGenerator.destructor g w)))
             /\ (forall c a f,
                   coro.heap w !! a = Some f ->
                   coro.at_final_suspend f = false ->
                   AsyncGenerator.await_begin run c (AsyncGenerator.Gen (Some a)) w
                   = AsyncGenerator.one_step run c a f w)).
Proof.
  split; intros T B E run; (split; [ | intros w Hw ]).
  - apply generator_settled_empty.
  - split; [ | split; [ | split; [ | split; [ | split; [ | split ] ] ] ] ].
    + intros b. now apply generator_settled_create.
    + intros g. now apply generator_settled_begin.
    + intros i. now apply generator_settled_incr.
    + intros i. apply generator_deref_keeps.
    + intros this other objs. now apply generator_settled_move_assign.
    + intros this objs. now apply generator_settled_destructor.
    + intros a f Hf Hfin. apply advance_live; [exact Hf | exact Hfin | ].
      now apply (Hw a f).
  - apply async_settled_empty.
  - split; [ | split; [ | split; [ | split; [ | split ] ] ] ].
    + intros b. now apply async_settled_create.
    + intros c g. now apply async_settled_await_begin.
    + intros c i. now apply async_settled_incr.
    + intros this other objs. now apply async_settled_move_assign.
    + intros g. now apply async_settled_destructor.
    + intros c a f Hf Hfin. apply await_begin_live; [exact Hf | exact Hfin | ].
      now apply (Hw a f).
Qed.

(** A generator and an asynchronous generator right after the call of
    their coroutines. *)
Lemma generators_stay_settled_witness :
  let run := @Bodies.run_script Z unit in
  let b := Bodies.yield_all [1; 2]%Z in
  let wg := snd (Generator.create run b coro.empty) in
  let wa := snd (AsyncGenerator.create (steady run) b coro.empty) in
  Generator.advance run (Generator.Gen (Some 0)) wg
    = Generator.one_step run 0 (coro.Frame Generator.promise_init b false) wg
  /\ AsyncGenerator.await_begin (steady run) 1 (AsyncGenerator.Gen (Some 0)) wa
     = AsyncGenerator.one_step (steady run) 1 0 (coro.Frame AsyncGenerator.promise_init b false) wa.
Proof.
  intros run b wg wa.
  destruct generators_stay_settled as [Hg Ha]. split.
  - destruct (Hg Z _ unit run) as [Hempty Hkeep].
    destruct (Hkeep _ Hempty) as (Hcreate & _).
    destruct (Hkeep wg (Hcreate b)) as (_ & _ & _ & _ & _ & _ & Hstep).
    apply Hstep; reflexivity.
  - destruct (Ha Z _ unit (steady run)) as [Hempty Hkeep].
    destruct (Hkeep _ Hempty) as (Hcreate & _).
    destruct (Hkeep wa (Hcreate b)) as (_ & _ & _ & _ & _ & Hstep).
    apply Hstep; reflexivity.
Defined.

Section ReachableTaskMore.
Context {St R B E : Type} {PT : Task.promise_type St R}.
Context (run : B -> list E * Task.step B R).
Implicit Types (w : coro.world (Task.promise St) B E).

Lemma task_result_value_keeps t w : snd (Task.result_value t w) = w.
Proof.
  unfold Task.result_value. destruct t as [[a|]]; [ | reflexivity ].
  unfold bind. simpl. unfold bind, coro.get_promise.
  now destruct (coro.heap w !! a).
Qed.

Lemma task_await_resume_keeps aw w :
  snd ((r <- Task.await_resume aw ;; ret (Some r)) w) = w.
Proof.
  unfold Task.await_resume. destruct aw as [[a|]]; [ | reflexivity ].
  unfold bind. simpl. unfold bind, coro.get_promise.
  destruct (coro.heap w !! a) as [f|]; [ | reflexivity ].
  now destruct (Task.promise_result_value (coro.promise f)).
Qed.

Lemma task_settled_co_await c t w :
  Task.settled w -> Task.settled (snd (Task.co_await run c t w)).
Proof.
  intros Hw. destruct (Task.is_ready w t) eqn:Hready.
  - rewrite (task_co_await_ready run c _ _ Hready).
    now rewrite task_await_resume_keeps.
  - destruct t as [[a|]]; [ | discriminate Hready ].
    destruct (coro.heap w !! a) as [f|] eqn:Hf.
    + unfold Task.is_ready in Hready. rewrite is_ready_not_good in Hready.
      simpl in Hready. rewrite (is_good_handle_lookup _ _ _ Hf) in Hready.
      rewrite negb_involutive in Hready.
      destruct (Hw _ _ Hf Hready) as [Hex Hres].
      rewrite (task_co_await_live run c _ _ _ Hf Hready Hex).
      unfold Task.settled.
      destruct (snd (run (coro.body f))); cbn [snd coro.heap];
        apply (insert_keeps
                 (fun f => coro.at_final_suspend f = false ->
                           Task.m_exception (Task.base (coro.promise f)) = None
                           /\ Task.m_result (coro.promise f) = Task.m_result_init));
        try exact Hw; try discriminate.
      intros _. now split.
    + unfold Task.co_await, Task.await_ready. cbn [Task.operator_co_await
        Task.aw_coroutine Task.m_coroutine].
      unfold Task.is_ready in Hready. cbn [Task.m_coroutine] in Hready.
      rewrite Hready. unfold bind, Task.await_suspend. simpl.
      unfold bind, coro.get_promise. now rewrite Hf.
Qed.

Lemma task_settled_coro_destroy a w :
  Task.settled w -> Task.settled (snd (coro.destroy a w)).
Proof.
  intros Hw. unfold coro.destroy. destruct (coro.heap w !! a); [ | exact Hw ].
  unfold Task.settled. cbn [snd coro.heap].
  apply (delete_keeps
           (fun f => coro.at_final_suspend f = false ->
                     Task.m_exception (Task.base (coro.promise f)) = None
                     /\ Task.m_result (coro.promise f) = Task.m_result_init)).
  exact Hw.
Qed.

Lemma task_settled_move_assign this other objs w :
  Task.settled w -> Task.settled (snd (Task.move_assign this other objs w)).
Proof.
  intros Hw. unfold Task.move_assign.
  destruct (objs !! this) as [t|]; [ | exact Hw ].
  destruct (objs !! other) as [o|]; [ | exact Hw ].
  destruct (bool_decide (this ≠ other)); [ | exact Hw ].
  destruct (Task.m_coroutine t) as [a|]; [ | exact Hw ].
  pose proof (task_settled_coro_destroy a w Hw) as H.
  unfold bind. destruct (coro.destroy a w) as [[] w']; exact H.
Qed.

Lemma task_settled_destructor this objs w :
  Task.settled w -> Task.settled (snd (Task.destructor this objs w)).
Proof.
  intros Hw. unfold Task.destructor.
  destruct (objs !! this) as [t|]; [ | exact Hw ].
  destruct (Task.m_coroutine t) as [a|]; [ | exact Hw ].
  pose proof (task_settled_coro_destroy a w Hw) as H.
  unfold bind. destruct (coro.destroy a w) as [[] w']; exact H.
Qed.

Lemma task_settled_destroy this objs w :
  Task.settled w -> Task.settled (snd (Task.destroy this objs w)).
Proof.
  intros Hw. unfold Task.destroy.
  destruct (objs !! this) as [t|]; [ | exact Hw ].
  destruct (Task.m_coroutine t) as [a|]; [ | exact Hw ].
  pose proof (task_settled_coro_destroy a w Hw) as H.
  unfold bind. destruct (coro.destroy a w) as [[] w']; exact H.
Qed.

End ReachableTaskMore.

(** X18. The invariant of tasks. A task coroutine that has not finished
    has neither an exception nor a result stored in its promise: that
    holds where there are no coroutines, and every operation of [task]
    keeps it (calling the coroutine, [resume()], [co_await],
    [result_value()], move assignment, [destroy()], the destructor). In
    such a state [result_value()] on a task that has not finished gives
    what a promise that was never written gives, and changes nothing. *)
Theorem tasks_stay_settled :
  forall (St R B E : Type) (PT : Task.promise_type St R)
         (run : B -> list E * Task.step B R),
    Task.settled (coro.empty : coro.world (Task.promise St) B E)
    /\ forall w : coro.world (Task.promise St) B E,
         Task.settled w ->
         (forall b, Task.settled (snd (Task.create run b w)))
         /\ (forall t, Task.settled (snd (Task.task_resume run t w)))
         /\ (forall c t, Task.settled (snd (Task.co_await run c t w)))
         /\ (forall t, snd (Task.result_value t w) = w)
         /\ (forall this other objs,
               Task.settled (snd (Task.move_assign this other objs w)))
         /\ (forall this objs, Task.settled (snd (Task.destroy this objs w)))
         /\ (forall this objs, Task.settled (snd (Task.destructor this objs w)))
         /\ (forall a f,
               coro.heap w !! a = Some f ->
               coro.at_final_suspend f = false ->
               Task.result_value (Task.Task (Some a)) w
               = (Task.stored_result Task.m_result_init, w)).
Proof.
  intros St R B E PT run. split; [apply task_settled_empty | intros w Hw ].
  split; [ | split; [ | split; [ | split; [ | split; [ | split; [ | split ] ] ] ] ] ].
  - intros b. now apply task_settled_create.
  - intros t. now apply task_settled_resume.
  - intros c t. now apply task_settled_co_await.
  - intros t. apply task_result_value_keeps.
  - intros this other objs. now apply task_settled_move_assign.
  - intros this objs. now apply task_settled_destroy.
  - intros this objs. now apply task_settled_destructor.
  - intros a f Hf Hfin. destruct (Hw a f Hf Hfin) as [Hex Hres].
    rewrite (result_value_lookup _ _ _ Hf).
    now rewrite (promise_result_value_stored _ Hex), Hres.
Qed.

(** A [task<int>] and a [task<void>] after one [resume()] that stopped at
    a [co_await] of the body. *)
Lemma tasks_stay_settled_witness :
  let run := @Bodies.run_task Z unit in
  let run_v := @Bodies.run_task unit unit in
  let w := snd ((t <- Task.create (PT := Task.promise_type_T Z) run
                       (Bodies.t_suspend (Bodies.t_return 1%Z)) ;;
                 Task.task_resume run t) coro.empty) in
  let wv := snd ((t <- Task.create (PT := Task.promise_type_void) run_v
                        (Bodies.t_suspend (Bodies.t_return tt)) ;;
                  Task.task_resume run_v t) coro.empty) in
  Task.result_value (PT := Task.promise_type_T Z) (Task.Task (Some 0)) w
    = (Throw bad_result_access, w)
  /\ Task.result_value (PT := Task.promise_type_void) (Task.Task (Some 0)) wv
     = (Ok tt, wv).
Proof.
  intros run run_v w wv. split.
  - destruct (tasks_stay_settled _ _ _ unit (Task.promise_type_T Z) run)
      as [Hempty Hkeep].
    destruct (Hkeep _ Hempty) as (Hcreate & _).
    destruct (Hkeep _ (Hcreate (Bodies.t_suspend (Bodies.t_return 1%Z))))
      as (_ & Hresume & _).
    destruct (Hkeep _ (Hresume (Task.Task (Some 0)))) as (_ & _ & _ & _ & _ & _ & _ & H).
    apply (H 0 (coro.Frame Task.promise_init (Bodies.t_return 1%Z) false)); reflexivity.
  - destruct (tasks_stay_settled _ _ _ unit Task.promise_type_void run_v)
      as [Hempty Hkeep].
    destruct (Hkeep _ Hempty) as (Hcreate & _).
    destruct (Hkeep _ (Hcreate (Bodies.t_suspend (Bodies.t_return tt))))
      as (_ & Hresume & _).
    destruct (Hkeep _ (Hresume (Task.Task (Some 0)))) as (_ & _ & _ & _ & _ & _ & _ & H).
    apply (H 0 (coro.Frame Task.promise_init (Bodies.t_return tt) false)); reflexivity.
Defined.

(** ** task.h: tasks that await tasks *)

Section NestedFacts.
Context {St R E : Type} {PT : Task.promise_type St R}.
Implicit Types (w : coro.world (Task.promise St) (NestedTask.body R E) E).
Implicit Types (f : coro.frame (Task.promise St) (NestedTask.body R E)).
Implicit Types (p : NestedTask.prog R E).

Lemma call_is_create (run : NestedTask.body R E -> list E * Task.step _ R) p w :
  NestedTask.call p w = Task.create run (NestedTask.at_start p) w.
Proof. reflexivity. Qed.

Lemma final_awaiter_next (pr : Task.promise St) :
  Task.final_suspend_await_suspend pr = Task.m_next (Task.base pr).
Proof.
  unfold Task.final_suspend_await_suspend. now destruct (Task.m_next (Task.base pr)).
Qed.

Lemma finish_lookup a upd w f :
  coro.heap w !! a = Some f ->
  NestedTask.finish a upd w =
    (Ok (Task.m_next (Task.base (upd (coro.promise f)))),
     coro.World (<[a := coro.Frame (upd (coro.promise f)) (coro.body f) true]> (coro.heap w))
       (coro.next w) (coro.log w)).
Proof.
  intros Hf. unfold NestedTask.finish. rewrite Hf. now rewrite final_awaiter_next.
Qed.

Lemma transfer_none stop fuel w :
  NestedTask.transfer stop fuel None w = (Ok NestedTask.back_to_resumer, w).
Proof. now destruct fuel. Qed.

Lemma transfer_stop c fuel w :
  NestedTask.transfer (Some c) fuel (Some c) w = (Ok NestedTask.back_to_awaiter, w).
Proof.
  destruct fuel; cbn [NestedTask.transfer];
    now rewrite bool_decide_eq_true_2 by reflexivity.
Qed.

Lemma transfer_step stop fuel a w :
  Some a <> stop ->
  NestedTask.transfer stop (S fuel) (Some a) w
  = (nxt <- NestedTask.resume a ;; NestedTask.transfer stop fuel nxt) w.
Proof.
  intros Hne. cbn [NestedTask.transfer]. now rewrite bool_decide_eq_false_2 by exact Hne.
Qed.

Lemma with_catch_ok a m w x w' :
  m w = (Ok x, w') -> NestedTask.with_catch a m w = (Ok x, w').
Proof. intros H. unfold NestedTask.with_catch. now rewrite H. Qed.

Lemma with_catch_throw a m w e w' :
  m w = (Throw e, w') ->
  NestedTask.with_catch a m w = NestedTask.finish a (Task.unhandled_exception e) w'.
Proof. intros H. unfold NestedTask.with_catch. now rewrite H. Qed.

Lemma resume_at_start a w f p :
  coro.heap w !! a = Some f ->
  coro.at_final_suspend f = false ->
  coro.body f = NestedTask.at_start p ->
  NestedTask.resume a w = NestedTask.with_catch a (NestedTask.body_steps a p) w.
Proof. intros Hf Hfin Hb. unfold NestedTask.resume. now rewrite Hf, Hfin, Hb. Qed.

Lemma resume_awaiting a w f t k :
  coro.heap w !! a = Some f ->
  coro.at_final_suspend f = false ->
  coro.body f = NestedTask.awaiting t k ->
  NestedTask.resume a w =
    NestedTask.with_catch a
      (NestedTask.resume_point t (fun r => NestedTask.body_steps a (k r))) w.
Proof. intros Hf Hfin Hb. unfold NestedTask.resume. now rewrite Hf, Hfin, Hb. Qed.

Lemma suspend_steps a w f k :
  coro.heap w !! a = Some f ->
  NestedTask.body_steps a (NestedTask.p_suspend k) w =
    (Ok None,
     coro.World (<[a := coro.Frame (coro.promise f) (NestedTask.at_start k) false]>
                   (coro.heap w))
       (coro.next w) (coro.log w)).
Proof.
  intros Hf. cbn [NestedTask.body_steps]. unfold bind, NestedTask.suspend_at.
  now rewrite Hf.
Qed.

Lemma nested_await_suspend_lookup c w a f :
  coro.heap w !! a = Some f ->
  Task.await_suspend (Some c) (Task.Awaiter (Some a)) w =
    (Ok (Some a),
     coro.World
       (<[a := coro.Frame (Task.set_next (Some c) (coro.promise f))
                 (coro.body f) (coro.at_final_suspend f)]> (coro.heap w))
       (coro.next w) (coro.log w)).
Proof.
  intros Hf. unfold Task.await_suspend. cbn [Task.aw_coroutine].
  rewrite (bind_ok _ _ _ _ _ (get_promise_lookup _ _ _ Hf)).
  now rewrite (bind_ok _ _ _ _ _ (set_promise_lookup _ _ _ _ Hf)).
Qed.

(** [co_await child(...)] in the coroutine at [a]: the frame of the child
    takes the next address, the awaiting coroutine is suspended, the child
    records it as its continuation and is the coroutine to run next. *)
Lemma await_start a w f child k :
  coro.heap w !! a = Some f ->
  coro.heap w !! coro.next w = None ->
  NestedTask.body_steps a (NestedTask.p_await child k) w =
    (Ok (Some (coro.next w)),
     coro.World
       (<[coro.next w :=
            coro.Frame (Task.set_next (Some a) Task.promise_init)
              (NestedTask.at_start child) false]>
          (<[a := coro.Frame (coro.promise f)
                    (NestedTask.awaiting (Task.Task (Some (coro.next w))) k) false]>
             (<[coro.next w :=
                  coro.Frame Task.promise_init (NestedTask.at_start child) false]>
                (coro.heap w))))
       (S (coro.next w)) (coro.log w)).
Proof.
  intros Hf Hfresh.
  assert (Hne : coro.next w <> a) by (intros Heq; rewrite Heq in Hfresh; congruence).
  cbn [NestedTask.body_steps]. unfold NestedTask.call, bind at 1, bind at 1.
  cbn [coro.alloc ret].
  unfold Task.await_ready, detail.is_ready, detail.handle_done, coro.done.
  cbn [Task.operator_co_await Task.aw_coroutine Task.m_coroutine detail.non_null
       negb orb coro.heap].
  rewrite lookup_insert_eq. cbn [coro.at_final_suspend].
  unfold bind at 1, NestedTask.suspend_at. cbn [coro.heap coro.next coro.log].
  rewrite lookup_insert_ne by exact Hne. rewrite Hf.
  unfold Task.operator_co_await. cbn [Task.m_coroutine].
  erewrite nested_await_suspend_lookup;
    [ | cbn [coro.heap]; rewrite lookup_insert_ne by (intros Heq; now apply Hne);
        apply lookup_insert_eq ].
  reflexivity.
Qed.

Lemma resume_point_result t ca w fc cont :
  Task.m_coroutine t = Some ca ->
  coro.heap w !! ca = Some fc ->
  NestedTask.resume_point t cont w =
    match Task.promise_result_value (coro.promise fc) with
    | Ok r =>
        cont r (coro.World (delete ca (coro.heap w)) (coro.next w) (coro.log w))
    | Throw e =>
        (Throw e, coro.World (delete ca (coro.heap w)) (coro.next w) (coro.log w))
    | Terminate => (Terminate, w)
    | Undefined => (Undefined, w)
    end.
Proof.
  intros Ht Hfc. unfold NestedTask.resume_point, Task.await_resume, NestedTask.release.
  cbn [Task.operator_co_await Task.aw_coroutine]. rewrite Ht.
  cbn [detail.check_coroutine detail.non_null].
  unfold bind at 1. cbn [ret]. unfold bind at 1, coro.get_promise. rewrite Hfc.
  destruct (Task.promise_result_value (coro.promise fc)); try reflexivity;
    unfold bind, coro.destroy; now rewrite Hfc.
Qed.

End NestedFacts.

Section NestedRuns.
Context {St R E : Type} {PT : Task.promise_type St R}.
Implicit Types (w : coro.world (Task.promise St) (NestedTask.body R E) E).
Implicit Types (f : coro.frame (Task.promise St) (NestedTask.body R E)).
Implicit Types (p : NestedTask.prog R E).

(** What [co_return] stores is what [result_value()] gives: so it is for
    [promise_type<T>] and for [promise_type<void>]. *)
Hypothesis stored_returned :
  forall (r : R) (s : St), Task.stored_result (Task.return_value r s) = Ok r.

Lemma final_promise_result (pr : Task.promise St) (o : R + exn) :
  Task.m_exception (Task.base pr) = None ->
  Task.promise_result_value (NestedTask.final_promise pr o)
  = match o with inl r => Ok r | inr e => Throw e end.
Proof.
  intros Hex. destruct o as [r|e]; unfold Task.promise_result_value,
    Task.rethrow_if_exception; simpl.
  - rewrite Hex. apply stored_returned.
  - reflexivity.
Qed.

Lemma final_promise_next (pr : Task.promise St) (o : R + exn) :
  Task.m_next (Task.base (NestedTask.final_promise pr o)) = Task.m_next (Task.base pr).
Proof. now destruct o. Qed.

(** The body of the coroutine at [a], run from [p] with symmetric
    transfer, comes to its end: the effects of [p] and of the tasks it
    awaits are performed in order, the promise holds the result of [p],
    the frames of the awaited tasks are gone again, and the coroutine that
    runs next is the continuation of [a]. *)
Lemma body_runs stop p :
  NestedTask.suspend_free p ->
  forall a w f,
    coro.heap w !! a = Some f ->
    coro.at_final_suspend f = false ->
    NestedTask.well_allocated w ->
    stop <> Some a ->
    (forall c, stop = Some c -> c < coro.next w) ->
    exists n w' b',
      (forall fuel,
          (nxt <- NestedTask.with_catch a (NestedTask.body_steps a p) ;;
           NestedTask.transfer stop (n + fuel) nxt) w
          = NestedTask.transfer stop fuel (Task.m_next (Task.base (coro.promise f))) w')
      /\ coro.heap w' !! a
         = Some (coro.Frame
                   (NestedTask.final_promise (coro.promise f) (snd (NestedTask.eval p)))
                   b' true)
      /\ (forall a', a' <> a -> coro.heap w' !! a' = coro.heap w !! a')
      /\ coro.next w <= coro.next w'
      /\ coro.log w' = coro.log w ++ fst (NestedTask.eval p).
Proof.
  induction p as [r | e | ev k IH | k IH | child IHc k IHk];
    intros Hsf a w f Hf Hfin Hwa Hstop Hbelow.
  - eexists 0, _, _. split; [ | split; [ | split; [ | split ] ] ].
    + intros fuel.
      rewrite (bind_ok _ _ _ _ _
                 (with_catch_ok a (NestedTask.body_steps a (NestedTask.p_return r)) _ _ _
                    (finish_lookup a _ w f Hf))).
      reflexivity.
    + cbn [coro.heap]. apply lookup_insert_eq.
    + intros a' Hne. cbn [coro.heap].
      now rewrite lookup_insert_ne by (intros Heq; now apply Hne).
    + reflexivity.
    + cbn [NestedTask.eval fst coro.log]. now rewrite app_nil_r.
  - eexists 0, _, _. split; [ | split; [ | split; [ | split ] ] ].
    + intros fuel.
      rewrite (bind_ok _ _ _ _ _
                 (eq_trans
                    (with_catch_throw a (NestedTask.body_steps a (NestedTask.p_throw e))
                       w e w eq_refl)
                    (finish_lookup a _ w f Hf))).
      reflexivity.
    + cbn [coro.heap]. apply lookup_insert_eq.
    + intros a' Hne. cbn [coro.heap].
      now rewrite lookup_insert_ne by (intros Heq; now apply Hne).
    + reflexivity.
    + cbn [NestedTask.eval fst coro.log]. now rewrite app_nil_r.
  - destruct (IH Hsf a
                (coro.World (coro.heap w) (coro.next w) (coro.log w ++ [ev])) f
                Hf Hfin Hwa Hstop Hbelow)
      as (n & w' & b' & Hrun & Hfa & Hother & Hnext & Hlog).
    exists n, w', b'. split; [ | split; [ | split; [ | split ] ] ];
      try assumption.
    cbn [NestedTask.eval fst]. rewrite Hlog. cbn [coro.log].
    now rewrite <- app_assoc.
  - destruct Hsf.
  - destruct Hsf as [Hsfc Hsfk].
    assert (Hlt : a < coro.next w).
    { destruct (Nat.lt_ge_cases a (coro.next w)) as [H | H]; [exact H | ].
      rewrite (Hwa a H) in Hf. discriminate Hf. }
    assert (Hfresh : coro.heap w !! coro.next w = None) by (apply Hwa; lia).
    pose proof (await_start a w f child k Hf Hfresh) as Hstart.
    set (ca := coro.next w) in *.
    set (t := Task.Task (Some ca)) in *.
    set (fc := coro.Frame (Task.set_next (Some a) (Task.promise_init (S := St)))
                 (NestedTask.at_start child) false) in *.
    set (fa := coro.Frame (coro.promise f) (NestedTask.awaiting t k) false) in *.
    match type of Hstart with _ = (_, ?w0) => set (w3 := w0) in * end.
    assert (Hfc : coro.heap w3 !! ca = Some fc) by apply lookup_insert_eq.
    assert (Hfa3 : coro.heap w3 !! a = Some fa).
    { unfold w3. cbn [coro.heap]. rewrite lookup_insert_ne by lia.
      apply lookup_insert_eq. }
    assert (Hother3 : forall a', a' <> a -> a' <> ca ->
                                 coro.heap w3 !! a' = coro.heap w !! a').
    { intros a' H1 H2. unfold w3. cbn [coro.heap].
      rewrite lookup_insert_ne by (intros Heq; now apply H2).
      rewrite lookup_insert_ne by (intros Heq; now apply H1).
      now rewrite lookup_insert_ne by (intros Heq; now apply H2). }
    assert (Hwa3 : NestedTask.well_allocated w3).
    { intros a' Ha'. cbn [w3 coro.next] in Ha'.
      rewrite Hother3 by lia. apply Hwa. lia. }
    assert (Hstop_c : stop <> Some ca).
    { intros Heq. specialize (Hbelow ca Heq). lia. }
    assert (Hbelow3 : forall c, stop = Some c -> c < coro.next w3).
    { intros c Hc. specialize (Hbelow c Hc). cbn [w3 coro.next]. lia. }
    destruct (IHc Hsfc ca w3 fc Hfc eq_refl Hwa3 Hstop_c Hbelow3)
      as (n1 & w4 & b4 & Hrun1 & Hfc4 & Hother4 & Hnext4 & Hlog4).
    cbn [fc coro.promise Task.set_next Task.base Task.m_next] in Hrun1.
    assert (Hfa4 : coro.heap w4 !! a = Some fa) by (rewrite Hother4 by lia; exact Hfa3).
    pose proof (resume_point_result t ca w4 _
                  (fun r => NestedTask.body_steps a (k r)) eq_refl Hfc4) as Hpoint.
    cbn [coro.promise] in Hpoint.
    rewrite final_promise_result in Hpoint by reflexivity.
    set (w5 := coro.World (delete ca (coro.heap w4)) (coro.next w4) (coro.log w4)) in *.
    assert (Hfa5 : coro.heap w5 !! a = Some fa).
    { unfold w5. cbn [coro.heap]. now rewrite lookup_delete_ne by lia. }
    assert (Hother5 : forall a', a' <> a -> coro.heap w5 !! a' = coro.heap w !! a').
    { intros a' Hne. unfold w5. cbn [coro.heap].
      destruct (decide (a' = ca)) as [-> | Hne'].
      - now rewrite lookup_delete_eq, Hfresh.
      - rewrite lookup_delete_ne by (intros Heq; now apply Hne').
        rewrite Hother4 by exact Hne'. now apply Hother3. }
    assert (Hwa5 : NestedTask.well_allocated w5).
    { intros a' Ha'. cbn [w5 coro.next] in Ha'. cbn [w3 coro.next] in Hnext4.
      rewrite Hother5 by lia. apply Hwa. lia. }
    assert (Hresume_c : NestedTask.resume ca w3
                        = NestedTask.with_catch ca (NestedTask.body_steps ca child) w3)
      by (now apply (resume_at_start ca w3 fc child)).
    assert (Hresume_a : NestedTask.resume a w4
                        = NestedTask.with_catch a
                            (NestedTask.resume_point t
                               (fun r => NestedTask.body_steps a (k r))) w4)
      by (now apply (resume_awaiting a w4 fa t k)).
    destruct (snd (NestedTask.eval child)) as [r | e] eqn:Hev.
    + assert (Hbelow5 : forall c, stop = Some c -> c < coro.next w5).
      { intros c Hc. specialize (Hbelow c Hc). cbn [w5 w3 coro.next] in *. lia. }
      destruct (IHk r (Hsfk r) a w5 fa Hfa5 eq_refl Hwa5 Hstop Hbelow5)
        as (n2 & w6 & b6 & Hrun2 & Hfa6 & Hother6 & Hnext6 & Hlog6).
      exists (S (n1 + S n2)), w6, b6.
      split; [ | split; [ | split; [ | split ] ] ].
      * intros fuel.
        rewrite (bind_ok _ _ _ _ _ (with_catch_ok _ _ _ _ _ Hstart)).
        cbn [Nat.add]. rewrite transfer_step by (intros Heq; now apply Hstop_c).
        replace (n1 + S n2 + fuel) with (n1 + S (n2 + fuel)) by lia.
        unfold bind at 1. rewrite Hresume_c.
        specialize (Hrun1 (S (n2 + fuel))). unfold bind at 1 in Hrun1.
        rewrite Hrun1. rewrite transfer_step by (intros Heq; now apply Hstop).
        unfold bind at 1. rewrite Hresume_a.
        unfold NestedTask.with_catch at 1. rewrite Hpoint.
        specialize (Hrun2 fuel). unfold bind at 1, NestedTask.with_catch at 1 in Hrun2.
        exact Hrun2.
      * cbn [NestedTask.eval]. rewrite Hev. exact Hfa6.
      * intros a' Hne. rewrite Hother6 by exact Hne. now apply Hother5.
      * cbn [w5 w3 coro.next] in *. lia.
      * cbn [NestedTask.eval]. rewrite Hev. cbn [fst].
        rewrite Hlog6. cbn [w5 coro.log]. rewrite Hlog4. cbn [w3 coro.log].
        now rewrite <- app_assoc.
    + pose proof (finish_lookup a (Task.unhandled_exception e) w5 fa Hfa5) as Hfinish.
      eexists (S (n1 + 1)), _, _.
      split; [ | split; [ | split; [ | split ] ] ].
      * intros fuel.
        rewrite (bind_ok _ _ _ _ _ (with_catch_ok _ _ _ _ _ Hstart)).
        cbn [Nat.add]. rewrite transfer_step by (intros Heq; now apply Hstop_c).
        replace (n1 + 1 + fuel) with (n1 + S fuel) by lia.
        unfold bind at 1. rewrite Hresume_c.
        specialize (Hrun1 (S fuel)). unfold bind at 1 in Hrun1.
        rewrite Hrun1. rewrite transfer_step by (intros Heq; now apply Hstop).
        unfold bind at 1. rewrite Hresume_a.
        unfold NestedTask.with_catch at 1. rewrite Hpoint, Hfinish.
        reflexivity.
      * cbn [NestedTask.eval]. rewrite Hev. cbn [coro.heap snd].
        apply lookup_insert_eq.
      * intros a' Hne. cbn [coro.heap].
        rewrite lookup_insert_ne by (intros Heq; now apply Hne). now apply Hother5.
      * cbn [w5 w3 coro.next] in *. lia.
      * cbn [NestedTask.eval]. rewrite Hev. cbn [fst coro.log w5].
        rewrite Hlog4. reflexivity.
Qed.

End NestedRuns.

(** X19. Tasks that await tasks compute what nested calls compute. Take a
    task whose body performs effects, awaits the tasks it calls (which do
    the same, to any depth) and returns or throws, with no coroutine
    stopping at a [suspend_always]. One call of [resume()] runs the whole
    tree by symmetric transfer: each [co_await] passes control to the
    child, the final awaiter of the child passes it back, [await_resume()]
    hands the result of the child to the parent or rethrows its exception
    there. When the call returns, the task is ready, the effects have been
    performed in the order of nested calls, [result_value()] gives the
    value or the exception of the program read as nested calls, and the
    frames of all awaited tasks have been destroyed again (tests
    TaskTest.NestedTask and TaskTest.DeeplyNestedTask). *)
Theorem nested_tasks_compose :
  forall (St R E : Type) (PT : Task.promise_type St R) (p : NestedTask.prog R E)
         (w : coro.world (Task.promise St) (NestedTask.body R E) E) (a : nat),
    (forall (r : R) (s : St), Task.stored_result (Task.return_value r s) = Ok r) ->
    NestedTask.suspend_free p ->
    coro.heap w !! a = Some (coro.Frame Task.promise_init (NestedTask.at_start p) false) ->
    NestedTask.well_allocated w ->
    let t := Task.Task (Some a) in
    exists n,
      forall fuel,
        n <= fuel ->
        exists w',
          NestedTask.task_resume fuel t w = (Ok (Some false), w')
          /\ Task.is_ready w' t = true
          /\ Task.result_value t w'
             = (match snd (NestedTask.eval p) with
                | inl r => Ok r
                | inr e => Throw e
                end, w')
          /\ coro.log w' = coro.log w ++ fst (NestedTask.eval p)
          /\ (forall a', a' <> a -> coro.heap w' !! a' = coro.heap w !! a').
Proof.
  intros St R E PT p w a Hres Hsf Hf Hwa t.
  destruct (body_runs Hres None p Hsf a w _ Hf eq_refl Hwa)
    as (n & w' & b' & Hrun & Hfa & Hother & _ & Hlog);
    [discriminate | discriminate | ].
  cbn [coro.promise] in Hrun, Hfa.
  exists (S n). intros fuel Hfuel. exists w'.
  assert (Hready : Task.is_ready w' t = true).
  { unfold Task.is_ready, detail.is_ready, detail.handle_done, coro.done.
    cbn [t Task.m_coroutine detail.non_null negb orb]. now rewrite Hfa. }
  split; [ | split; [exact Hready | split; [ | split; [exact Hlog | exact Hother] ] ] ].
  - unfold NestedTask.task_resume, bind.
    assert (Hnot : Task.is_ready w t = false).
    { unfold Task.is_ready, detail.is_ready, detail.handle_done, coro.done.
      cbn [t Task.m_coroutine detail.non_null negb orb]. now rewrite Hf. }
    rewrite Hnot. cbn [negb t Task.m_coroutine].
    replace fuel with (S (n + (fuel - S n))) by lia.
    rewrite transfer_step by discriminate. unfold bind at 1.
    rewrite (resume_at_start a w _ p Hf eq_refl eq_refl).
    specialize (Hrun (fuel - S n)). unfold bind at 1 in Hrun. rewrite Hrun.
    cbn [Task.promise_init Task.base Task.m_next]. rewrite transfer_none.
    fold t. now rewrite Hready.
  - rewrite (result_value_lookup _ _ _ Hfa). cbn [coro.promise].
    now rewrite (final_promise_result Hres) by reflexivity.
Qed.

(** Test TaskTest.DeeplyNestedTask: the terms 24 and 1983 are added to
    [sum] in this order by one [resume()] of the outermost task. *)
Lemma nested_tasks_compose_witness :
  let w := snd (NestedTask.call (PT := Task.promise_type_T Z) Bodies.task1 coro.empty) in
  let t := Task.Task (Some 0) in
  exists n,
    forall fuel,
      n <= fuel ->
      exists w',
        NestedTask.task_resume fuel t w = (Ok (Some false), w')
        /\ Task.is_ready w' t = true
        /\ coro.log w' = [24; 1983]%Z.
Proof.
  intros w t.
  destruct (nested_tasks_compose _ Z Z (Task.promise_type_T Z) Bodies.task1 w 0)
    as (n & Hn).
  - intros r s. reflexivity.
  - repeat split.
  - reflexivity.
  - intros a' Ha'. cbn in Ha'. cbn [w snd coro.heap NestedTask.call bind coro.alloc].
    unfold w. cbn. rewrite lookup_insert_ne by lia. apply lookup_empty.
  - exists n. intros fuel Hfuel. destruct (Hn fuel Hfuel) as (w' & H1 & H2 & _ & H4 & _).
    exists w'. split; [exact H1 | split; [exact H2 | exact H4] ].
Defined.

(** X20. [resume()] on a task that awaits a suspended task. When the body
    of a [task<T>] awaits a task whose body stops at a [suspend_always],
    the first [resume()] of the outer task returns [true] with both
    coroutines suspended. A second [resume()] of the outer task does not
    go on with the inner one: it resumes the outer coroutine at its
    [co_await], whose [await_resume()] finds no result in the promise of
    the inner task and throws [bad_result_access] into the outer body. The
    outer task ends with that exception, the inner task is destroyed
    unfinished, and neither the rest of the inner body nor the rest of the
    outer body runs. *)
Theorem resume_while_child_suspended :
  forall (T E : Type) (rest : NestedTask.prog T E) (k : T -> NestedTask.prog T E)
         (w : coro.world (Task.promise (option T)) (NestedTask.body T E) E)
         (a fuel1 fuel2 : nat),
    coro.heap w !! a
      = Some (coro.Frame Task.promise_init
                (NestedTask.at_start
                   (NestedTask.p_await (NestedTask.p_suspend rest) k)) false) ->
    NestedTask.well_allocated w ->
    2 <= fuel1 ->
    1 <= fuel2 ->
    let t := Task.Task (Some a) in
    exists w1 w2,
      NestedTask.task_resume fuel1 t w = (Ok (Some true), w1)
      /\ coro.heap w1 !! coro.next w
         = Some (coro.Frame (Task.set_next (Some a) Task.promise_init)
                   (NestedTask.at_start rest) false)
      /\ NestedTask.task_resume fuel2 t w1 = (Ok (Some false), w2)
      /\ Task.result_value t w2 = (Throw bad_result_access, w2)
      /\ coro.heap w2 !! coro.next w = None
      /\ coro.log w2 = coro.log w.
Proof.
  intros T E rest k w a fuel1 fuel2 Hf Hwa Hfuel1 Hfuel2 t.
  assert (Hfresh : coro.heap w !! coro.next w = None) by (apply Hwa; lia).
  assert (Hne : coro.next w <> a) by (intros Heq; rewrite Heq in Hfresh; congruence).
  pose proof (await_start a w _ (NestedTask.p_suspend rest) k Hf Hfresh) as Hstart.
  set (ca := coro.next w) in *.
  match type of Hstart with _ = (_, ?w0) => set (w3 := w0) in * end.
  set (fa := coro.Frame (Task.promise_init (S := option T))
               (NestedTask.awaiting (Task.Task (Some ca)) k) false).
  set (w4 := coro.World
               (<[ca := coro.Frame (Task.set_next (Some a) Task.promise_init)
                          (NestedTask.at_start rest) false]> (coro.heap w3))
               (coro.next w3) (coro.log w3)).
  assert (Hfa4 : coro.heap w4 !! a = Some fa).
  { unfold w4, w3. cbn [coro.heap].
    rewrite !(lookup_insert_ne _ ca a) by exact Hne. apply lookup_insert_eq. }
  assert (Hfc4 : coro.heap w4 !! ca
                 = Some (coro.Frame (Task.set_next (Some a) Task.promise_init)
                           (NestedTask.at_start rest) false))
    by apply lookup_insert_eq.
  set (w5 := coro.World (delete ca (coro.heap w4)) (coro.next w4) (coro.log w4)).
  assert (Hfa5 : coro.heap w5 !! a = Some fa).
  { unfold w5. cbn [coro.heap]. now rewrite lookup_delete_ne by exact Hne. }
  set (w6 := coro.World
               (<[a := coro.Frame
                         (Task.unhandled_exception bad_result_access Task.promise_init)
                         (NestedTask.awaiting (Task.Task (Some ca)) k) true]>
                  (coro.heap w5))
               (coro.next w5) (coro.log w5)).
  assert (Hready : forall (w' : coro.world (Task.promise (option T))
                                   (NestedTask.body T E) E) f',
             coro.heap w' !! a = Some f' ->
             Task.is_ready w' t = coro.at_final_suspend f').
  { intros w' f' H. unfold Task.is_ready, detail.is_ready, detail.handle_done, coro.done.
    cbn [t Task.m_coroutine detail.non_null negb orb]. now rewrite H. }
  exists w4, w6. split; [ | split; [exact Hfc4 | split; [ | split; [ | split ] ] ] ].
  - unfold NestedTask.task_resume, bind.
    rewrite (Hready w _ Hf). cbn [coro.at_final_suspend negb t Task.m_coroutine].
    destruct fuel1 as [|[|fuel]]; [lia | lia | ].
    rewrite transfer_step by discriminate. unfold bind at 1.
    rewrite (resume_at_start a w _ _ Hf eq_refl eq_refl).
    rewrite (with_catch_ok _ _ _ _ _ Hstart).
    rewrite transfer_step by discriminate. unfold bind at 1.
    rewrite (resume_at_start ca w3 _ (NestedTask.p_suspend rest)
               (lookup_insert_eq _ _ _) eq_refl eq_refl).
    rewrite (with_catch_ok _ _ _ _ _
               (suspend_steps ca w3 _ rest (lookup_insert_eq _ _ _))).
    cbn [coro.promise]. fold w4. rewrite transfer_none.
    fold t. now rewrite (Hready w4 _ Hfa4).
  - unfold NestedTask.task_resume, bind.
    rewrite (Hready w4 _ Hfa4). cbn [fa coro.at_final_suspend negb t Task.m_coroutine].
    destruct fuel2 as [|fuel]; [lia | ].
    rewrite transfer_step by discriminate. unfold bind at 1.
    rewrite (resume_awaiting a w4 fa _ k Hfa4 eq_refl eq_refl).
    unfold NestedTask.with_catch.
    rewrite (resume_point_result (Task.Task (Some ca)) ca w4 _ _ eq_refl Hfc4).
    cbn [coro.promise Task.promise_result_value Task.rethrow_if_exception
         Task.set_next Task.promise_init Task.base Task.m_exception Task.m_result
         Task.stored_result Task.m_result_init Task.promise_type_T].
    fold w5. rewrite (finish_lookup a _ w5 fa Hfa5).
    cbn [fa coro.promise coro.body Task.unhandled_exception Task.promise_init
         Task.base Task.m_next].
    rewrite transfer_none. fold t.
    now rewrite (Hready _ _ (lookup_insert_eq _ _ _)).
  - unfold t. erewrite result_value_lookup by apply lookup_insert_eq. reflexivity.
  - unfold w6, w5. cbn [coro.heap].
    rewrite lookup_insert_ne by (intros Heq; now apply Hne).
    apply lookup_delete_eq.
  - reflexivity.
Qed.

(** An outer [task<int>] that awaits a task which stops at a
    [suspend_always] before it returns 7. *)
Lemma resume_while_child_suspended_witness :
  let inner := NestedTask.p_suspend (NestedTask.p_effect 5%Z (NestedTask.p_return 7%Z)) in
  let outer := NestedTask.p_await inner (fun r => NestedTask.p_return r) in
  let w := snd (NestedTask.call (PT := Task.promise_type_T Z) outer coro.empty) in
  let t := Task.Task (Some 0) in
  exists w1 w2,
    NestedTask.task_resume 2 t w = (Ok (Some true), w1)
    /\ NestedTask.task_resume 1 t w1 = (Ok (Some false), w2)
    /\ Task.result_value t w2 = (Throw bad_result_access, w2).
Proof.
  intros inner outer w t.
  destruct (resume_while_child_suspended Z Z
              (NestedTask.p_effect 5%Z (NestedTask.p_return 7%Z))
              (fun r => NestedTask.p_return r) w 0 2 1)
    as (w1 & w2 & H1 & _ & H2 & H3 & _).
  - reflexivity.
  - intros a' Ha'. unfold w. cbn in Ha' |- *.
    rewrite lookup_insert_ne by lia. apply lookup_empty.
  - lia.
  - lia.
  - exists w1, w2. split; [exact H1 | split; [exact H2 | exact H3] ].
Defined.

Section NestedAwait.
Context {St R E : Type} {PT : Task.promise_type St R}.
Implicit Types (w : coro.world (Task.promise St) (NestedTask.body R E) E).

Lemma nested_await_resume_lookup w a f :
  coro.heap w !! a = Some f ->
  Task.await_resume (Task.Awaiter (Some a)) w
  = (Task.promise_result_value (coro.promise f), w).
Proof.
  intros Hf. unfold Task.await_resume. cbn [Task.aw_coroutine detail.check_coroutine
    detail.non_null]. unfold bind at 1. cbn [ret].
  unfold bind, coro.get_promise. now rewrite Hf.
Qed.

End NestedAwait.

(** X21. Awaiting a tree of tasks from an eager coroutine. An
    [eager_task] coroutine that calls a task coroutine and awaits the
    temporary task, where the body of the task performs effects, awaits
    the tasks it calls (to any depth) and returns or throws, with no
    coroutine stopping at a [suspend_always]: the [co_await] gets the
    value that the program gives when read as nested calls, the effects
    have been performed in that order, and all task frames have been
    destroyed again when the eager coroutine goes on. When the program
    throws, the exception is rethrown into the eager coroutine, whose
    [unhandled_exception()] calls [std::terminate()] (tests
    TaskTest.NestedTaskAlt, TaskTest.DeeplyNestedTaskAlt and
    examples/task.cpp). *)
Theorem awaited_tasks_compose :
  forall (St R E : Type) (PT : Task.promise_type St R) (p : NestedTask.prog R E)
         (w : coro.world (Task.promise St) (NestedTask.body R E) E),
    (forall (r : R) (s : St), Task.stored_result (Task.return_value r s) = Ok r) ->
    NestedTask.suspend_free p ->
    NestedTask.well_allocated w ->
    exists n,
      forall fuel,
        n <= fuel ->
        exists w',
          NestedTask.await_in_eager_task fuel p w
          = (match snd (NestedTask.eval p) with
             | inl r => Ok (Some (Some r))
             | inr e => Terminate
             end, w')
          /\ coro.log w' = coro.log w ++ fst (NestedTask.eval p)
          /\ (forall r, snd (NestedTask.eval p) = inl r ->
                        forall a', coro.heap w' !! a' = coro.heap w !! a').
Proof.
  intros St R E PT p w Hres Hsf Hwa.
  set (c := coro.next w).
  set (a := S c).
  set (fa := coro.Frame (Task.set_next (Some c) (Task.promise_init (S := St)))
               (NestedTask.at_start p) false).
  set (w1 := coro.World
               (<[a := coro.Frame Task.promise_init (NestedTask.at_start p) false]>
                  (coro.heap w))
               (S a) (coro.log w)).
  set (w2 := coro.World (<[a := fa]> (coro.heap w1)) (coro.next w1) (coro.log w1)).
  assert (Hfresh : coro.heap w !! a = None) by (apply Hwa; unfold a, c; lia).
  assert (Hwa2 : NestedTask.well_allocated w2).
  { intros a' Ha'. cbn [w2 w1 coro.next coro.heap] in *.
    rewrite !lookup_insert_ne by lia. apply Hwa. unfold a, c in Ha'. lia. }
  destruct (body_runs Hres (Some c) p Hsf a w2 fa (lookup_insert_eq _ _ _) eq_refl Hwa2)
    as (n & w' & b' & Hrun & Hfa & Hother & _ & Hlog).
  { intros [= Heq]. unfold a in Heq. lia. }
  { intros c' [= <-]. cbn [w2 w1 coro.next]. unfold a. lia. }
  cbn [fa coro.promise Task.set_next Task.base Task.m_next] in Hrun, Hfa.
  assert (Hsuspend : Task.await_suspend (Some c) (Task.Awaiter (Some a)) w1
                     = (Ok (Some a), w2)).
  { erewrite nested_await_suspend_lookup by apply lookup_insert_eq. reflexivity. }
  assert (Hawait : forall fuel,
             S n <= fuel ->
             NestedTask.co_await fuel c (Task.Task (Some a)) w1
             = (match snd (NestedTask.eval p) with
                | inl r => Ok (Some (Some r))
                | inr e => Throw e
                end, w')).
  { intros fuel Hfuel. unfold NestedTask.co_await, Task.await_ready, detail.is_ready,
      detail.handle_done, coro.done.
    cbn [Task.operator_co_await Task.aw_coroutine Task.m_coroutine detail.non_null
         negb orb w1 coro.heap].
    rewrite lookup_insert_eq. cbn [coro.at_final_suspend]. fold w1.
    unfold Task.operator_co_await. cbn [Task.m_coroutine].
    rewrite (bind_ok _ _ _ _ _ Hsuspend).
    replace fuel with (S (n + (fuel - S n))) by lia.
    unfold bind at 1.
    rewrite transfer_step by (intros [= Heq]; unfold a in Heq; lia).
    unfold bind at 1.
    rewrite (resume_at_start a w2 fa p (lookup_insert_eq _ _ _) eq_refl eq_refl).
    specialize (Hrun (fuel - S n)). unfold bind at 1 in Hrun. rewrite Hrun.
    rewrite transfer_stop. unfold bind.
    rewrite (nested_await_resume_lookup _ _ _ Hfa). cbn [coro.promise].
    rewrite (final_promise_result Hres) by reflexivity.
    now destruct (snd (NestedTask.eval p)). }
  exists (S n). intros fuel Hfuel.
  assert (Hcall : NestedTask.await_in_eager_task fuel p w
                  = match snd (NestedTask.eval p) with
                    | inl r =>
                        (Ok (Some (Some r)),
                         coro.World (delete a (coro.heap w')) (coro.next w') (coro.log w'))
                    | inr e => (Terminate, w')
                    end).
  { unfold NestedTask.await_in_eager_task, EagerTask.call, NestedTask.call.
    unfold bind at 1, bind at 1. cbn [coro.alloc ret coro.heap coro.next coro.log].
    fold c. fold a. fold w1. unfold bind at 1. rewrite (Hawait fuel Hfuel).
    destruct (snd (NestedTask.eval p)) as [r | e]; [ | reflexivity ].
    unfold bind, NestedTask.release, coro.destroy. cbn [Task.m_coroutine].
    now rewrite Hfa. }
  rewrite Hcall.
  destruct (snd (NestedTask.eval p)) as [r | e] eqn:Hev.
  - eexists. split; [reflexivity | split ].
    + cbn [coro.log]. rewrite Hlog. reflexivity.
    + intros _ _ a'. cbn [coro.heap].
      destruct (decide (a' = a)) as [-> | Hne].
      * now rewrite lookup_delete_eq, Hfresh.
      * rewrite lookup_delete_ne by (intros Heq; now apply Hne).
        rewrite Hother by exact Hne. cbn [w2 w1 coro.heap].
        now rewrite !lookup_insert_ne by (intros Heq; now apply Hne).
  - eexists. split; [reflexivity | split ].
    + rewrite Hlog. reflexivity.
    + intros r Hr. discriminate Hr.
Qed.

(** [sum()] of examples/task.cpp, awaited from an eager coroutine, gives
    579. *)
Lemma awaited_tasks_compose_witness :
  exists n,
    forall fuel,
      n <= fuel ->
      fst (NestedTask.await_in_eager_task (PT := Task.promise_type_T Z) fuel
             Bodies.sum coro.empty)
      = Ok (Some (Some 579%Z)).
Proof.
  destruct (awaited_tasks_compose _ Z unit (Task.promise_type_T Z) Bodies.sum coro.empty)
    as (n & Hn).
  - intros r s. reflexivity.
  - repeat split.
  - intros a' _. apply lookup_empty.
  - exists n. intros fuel Hfuel. destruct (Hn fuel Hfuel) as (w' & H & _).
    now rewrite H.
Defined.

(** ** The generators of the tests *)

Lemma first_n_yields (m : nat) :
  forall v : Z,
    yields Bodies.first_n (v, (v + Z.of_nat m)%Z)
      (map (fun i => (v + Z.of_nat i)%Z) (seq 0 m)).
Proof.
  induction m as [|m IH]; intros v.
  - apply yields_end. unfold Bodies.first_n.
    now rewrite (proj2 (Z.ltb_ge _ _)) by lia.
  - cbn [seq map]. apply (yields_more _ _ _ ((v + 1)%Z, (v + Z.of_nat (S m))%Z)).
    + unfold Bodies.first_n. rewrite (proj2 (Z.ltb_lt _ _)) by lia.
      now rewrite Z.add_0_r.
    + replace (v + Z.of_nat (S m))%Z with (v + 1 + Z.of_nat m)%Z by lia.
      rewrite <- seq_shift, map_map.
      erewrite map_ext; [apply IH | ]. intros i. simpl. lia.
Qed.

Lemma sum_below (n : nat) :
  (2 * fold_right Z.add 0 (map Z.of_nat (seq 0 n)) = Z.of_nat n * (Z.of_nat n - 1))%Z.
Proof.
  induction n as [|n IH]; [reflexivity | ].
  rewrite seq_S, map_app, fold_right_app. cbn [seq map fold_right Nat.add].
  assert (Hacc : forall (l : list Z) (x : Z),
             fold_right Z.add x l = (fold_right Z.add 0 l + x)%Z).
  { induction l as [|y l IHl]; intros x; cbn [fold_right]; [lia | ].
    rewrite IHl. lia. }
  rewrite Hacc. lia.
Qed.

Lemma u32_fold (l : list Z) :
  forall x : Z,
    fold_left Bodies.add_u32 l (Bodies.u32 x)
    = Bodies.u32 (x + fold_right Z.add 0%Z l).
Proof.
  induction l as [|v l IH]; intros x; cbn [fold_left fold_right].
  - now rewrite Z.add_0_r.
  - assert (Hstep : Bodies.add_u32 (Bodies.u32 x) v = Bodies.u32 (x + v)).
    { unfold Bodies.add_u32, Bodies.u32. now rewrite Zplus_mod_idemp_l. }
    rewrite Hstep, IH. f_equal. lia.
Qed.

Section Accumulate.
Context {T B E A : Type} (op : A -> T -> A).

(** [std::accumulate] folds what the range-based [for] collects. *)
Lemma accumulate_from_iterate (run : B -> list E * suspension B T) g init :
  forall fuel it acc (w : coro.world (Generator.promise_type T) B E) l,
    fst (Generator.iterate run fuel g it acc w) = Ok (Some l) ->
    fst (Generator.accumulate_from run op fuel g it (fold_left op acc init) w)
    = Ok (Some (fold_left op l init)).
Proof.
  induction fuel as [|n IH]; intros it acc w l H; [discriminate H | ].
  cbn [Generator.iterate Generator.accumulate_from] in *.
  destruct (Generator.iterator_eq w it (Generator.end_ g)).
  - injection H as <-. reflexivity.
  - unfold bind at 1. unfold bind at 1 in H.
    destruct (Generator.iterator_deref it w) as [[v| | |] w1]; try discriminate H.
    unfold bind at 1. unfold bind at 1 in H.
    destruct (Generator.iterator_incr run it w1) as [[it'| | |] w2];
      try discriminate H.
    specialize (IH it' (acc ++ [v]) w2 l H).
    now rewrite fold_left_app in IH.
Qed.

Lemma accumulate_collect (run : B -> list E * suspension B T) g init fuel
    (w : coro.world (Generator.promise_type T) B E) l :
  fst (Generator.collect run fuel g w) = Ok (Some l) ->
  fst (Generator.accumulate run op fuel g init w) = Ok (Some (fold_left op l init)).
Proof.
  unfold Generator.collect, Generator.accumulate, bind at 1, bind at 1.
  destruct (Generator.begin run g w) as [[it| | |] w1]; try discriminate.
  apply (accumulate_from_iterate run g init fuel it []).
Qed.

Lemma adapter_accumulate_from_iterate (run : B -> list E * production B T) s init :
  forall fuel it acc (w : coro.world (AsyncGenerator.promise_type T) B E) l,
    fst (SyncGeneratorAdapter.iterate run fuel s it acc w) = Ok (Some l) ->
    fst (SyncGeneratorAdapter.accumulate_from run op fuel s it (fold_left op acc init) w)
    = Ok (Some (fold_left op l init)).
Proof.
  induction fuel as [|n IH]; intros it acc w l H; [discriminate H | ].
  cbn [SyncGeneratorAdapter.iterate SyncGeneratorAdapter.accumulate_from] in *.
  destruct (SyncGeneratorAdapter.iterator_eq w it (SyncGeneratorAdapter.end_ s)).
  - injection H as <-. reflexivity.
  - unfold bind at 1. unfold bind at 1 in H.
    destruct (SyncGeneratorAdapter.iterator_deref it w) as [[v| | |] w1];
      try discriminate H.
    unfold bind at 1. unfold bind at 1 in H.
    destruct (SyncGeneratorAdapter.iterator_incr run it w1) as [[it'| | |] w2];
      try discriminate H.
    specialize (IH it' (acc ++ [v]) w2 l H).
    now rewrite fold_left_app in IH.
Qed.

Lemma adapter_accumulate_collect (run : B -> list E * production B T) s init fuel
    (w : coro.world (AsyncGenerator.promise_type T) B E) l :
  fst (SyncGeneratorAdapter.collect run fuel s w) = Ok (Some l) ->
  fst (SyncGeneratorAdapter.accumulate run op fuel s init w)
  = Ok (Some (fold_left op l init)).
Proof.
  unfold SyncGeneratorAdapter.collect, SyncGeneratorAdapter.accumulate,
    bind at 1, bind at 1.
  destruct (SyncGeneratorAdapter.begin run s w) as [[it| | |] w1]; try discriminate.
  apply (adapter_accumulate_from_iterate run s init fuel it []).
Qed.

End Accumulate.

(** X22. [first_n(n)] and [async_first_n(n)] of the tests over
    [unsigned int], for every [n] below 2^32: a range-based [for] over the
    generator sees exactly 0, 1, ..., n - 1; the loop that calls [begin()]
    in place of [++it] sees the same values and counts [n] of them; the
    synchronous adapter over [async_first_n(n)], whose
    [co_await get_async_value(v)] gives [v] within the step, gives the
    same values; and [std::accumulate(g.begin(), g.end(), 0U)] over the
    generator and over the adapter gives n (n - 1) / 2 reduced modulo
    2^32, as the additions are those of [unsigned int] (tests
    GeneratorTest.Sum, GeneratorTest.AdvanceWithBegin and
    SyncGeneratorAdapterTest.Sum, for every count). *)
Theorem first_n_counts :
  forall n : nat,
    (Z.of_nat n < 2 ^ 32)%Z ->
    let l := map Z.of_nat (seq 0 n) in
    let b := (0, Z.of_nat n)%Z in
    let total := Bodies.u32 (Z.of_nat n * (Z.of_nat n - 1) / 2) in
    fst ((g <- Generator.create Bodies.first_n b ;;
          Generator.collect Bodies.first_n (S n) g) coro.empty) = Ok (Some l)
    /\ fst ((g <- Generator.create Bodies.first_n b ;;
             Generator.advance_with_begin Bodies.first_n (S n) g) coro.empty)
       = Ok (Some (l, n))
    /\ fst ((g <- AsyncGenerator.create Bodies.async_first_n b ;;
             SyncGeneratorAdapter.collect Bodies.async_first_n (S n)
               (SyncGeneratorAdapter.Adapter g)) coro.empty) = Ok (Some l)
    /\ fst ((g <- Generator.create Bodies.first_n b ;;
             Generator.accumulate Bodies.first_n Bodies.add_u32 (S n) g 0%Z)
              coro.empty) = Ok (Some total)
    /\ fst ((g <- AsyncGenerator.create Bodies.async_first_n b ;;
             SyncGeneratorAdapter.accumulate Bodies.async_first_n Bodies.add_u32 (S n)
               (SyncGeneratorAdapter.Adapter g) 0%Z) coro.empty) = Ok (Some total).
Proof.
  intros n Hn l b total.
  assert (Hy : yields Bodies.first_n b l).
  { pose proof (first_n_yields n 0) as H. cbn [Z.add] in H. exact H. }
  assert (Hlen : length l = n) by (unfold l; now rewrite length_map, length_seq).
  assert (Htotal : fold_left Bodies.add_u32 l 0%Z = total).
  { change 0%Z with (Bodies.u32 0) at 1. rewrite u32_fold. unfold total. f_equal.
    cbn [Z.add]. pose proof (sum_below n) as Hs. fold l in Hs.
    rewrite <- Hs, Z.mul_comm. now rewrite Z.div_mul by lia. }
  assert (Hg : fst ((g <- Generator.create Bodies.first_n b ;;
                     Generator.collect Bodies.first_n (S n) g) coro.empty)
               = Ok (Some l)).
  { apply (collect_yields Bodies.first_n 0 b l (S n)); [exact Hy | lia | reflexivity]. }
  assert (Ha : fst ((g <- AsyncGenerator.create Bodies.async_first_n b ;;
                     SyncGeneratorAdapter.collect Bodies.async_first_n (S n)
                       (SyncGeneratorAdapter.Adapter g)) coro.empty) = Ok (Some l)).
  { apply (adapter_collect_yields Bodies.async_first_n 0 b l (S n));
      [now apply async_yields_steady | lia | reflexivity]. }
  split; [exact Hg | split; [ | split; [exact Ha | split ] ] ].
  - pose proof (advance_with_begin_yields Bodies.first_n 0 b l (S n)
                  (snd (coro.alloc (coro.Frame Generator.promise_init b false)
                          coro.empty)) Hy) as H.
    rewrite Hlen in H. apply H; [lia | reflexivity].
  - rewrite <- Htotal.
    apply (accumulate_collect Bodies.add_u32 Bodies.first_n
             (Generator.Gen (Some 0)) 0%Z (S n)
             (snd (coro.alloc (coro.Frame Generator.promise_init b false) coro.empty))
             l).
    exact Hg.
  - rewrite <- Htotal.
    apply (adapter_accumulate_collect Bodies.add_u32 Bodies.async_first_n
             (SyncGeneratorAdapter.Adapter (AsyncGenerator.Gen (Some 0))) 0%Z (S n)
             (snd (coro.alloc (coro.Frame AsyncGenerator.promise_init b false)
                     coro.empty)) l).
    exact Ha.
Qed.

(** Tests GeneratorTest.Sum and SyncGeneratorAdapterTest.Sum:
    [first_n(11)] sums to 55. *)
Lemma first_n_counts_witness :
  fst ((g <- Generator.create Bodies.first_n (0, 11)%Z ;;
        Generator.accumulate Bodies.first_n Bodies.add_u32 12 g 0%Z) coro.empty)
  = Ok (Some 55%Z)
  /\ fst ((g <- AsyncGenerator.create Bodies.async_first_n (0, 11)%Z ;;
           SyncGeneratorAdapter.accumulate Bodies.async_first_n Bodies.add_u32 12
             (SyncGeneratorAdapter.Adapter g) 0%Z) coro.empty)
     = Ok (Some 55%Z).
Proof.
  destruct (first_n_counts 11) as (_ & _ & _ & Hg & Ha); [reflexivity | ].
  split; [exact Hg | exact Ha].
Defined.

Lemma u32_add (x y : Z) : Bodies.u32 (Bodies.u32 x + Bodies.u32 y) = Bodies.u32 (x + y).
Proof. unfold Bodies.u32. now rewrite <- Zplus_mod. Qed.

Lemma u32_small (x : Z) : (0 <= x < 2 ^ 32)%Z -> Bodies.u32 x = x.
Proof. intros H. unfold Bodies.u32. now apply Z.mod_small. Qed.

Lemma fib_step (k : nat) : Bodies.fib (S (S k)) = (Bodies.fib (S k) + Bodies.fib k)%Z.
Proof. reflexivity. Qed.

(** The loop of [fibonacci(n)]: at the test [i < n] with [a] and [b] the
    two Fibonacci numbers before the [i]-th, the body yields the
    remaining ones. *)
Lemma fib_loop (n : nat) :
  (Z.of_nat n < 2 ^ 32)%Z ->
  forall (m i : nat) (pos : Bodies.fib_pos) (a b : Z),
    Bodies.fibonacci (Z.of_nat n, pos)
      = Bodies.fib_for (Z.of_nat n) (Z.of_nat (S (S i))) a b ->
    S (S i) + m = n \/ (m = 0 /\ n <= S (S i)) ->
    a = Bodies.u32 (Bodies.fib i) ->
    b = Bodies.u32 (Bodies.fib (S i)) ->
    yields Bodies.fibonacci (Z.of_nat n, pos)
      (map (fun k => Bodies.u32 (Bodies.fib k)) (seq (S (S i)) m)).
Proof.
  intros Hn m. induction m as [|m IH]; intros i pos a b Hpos Him Ha Hb.
  - apply yields_end. rewrite Hpos. unfold Bodies.fib_for.
    now rewrite (proj2 (Z.ltb_ge _ _)) by lia.
  - destruct Him as [Him | [Hm _]]; [ | discriminate Hm ].
    cbn [seq map].
    assert (Hs : Bodies.u32 (a + b) = Bodies.u32 (Bodies.fib (S (S i)))).
    { rewrite Ha, Hb, u32_add, fib_step. f_equal. lia. }
    apply (yields_more _ _ _
             (Z.of_nat n,
              Bodies.fib_after_s (Z.of_nat (S (S i))) a b (Bodies.u32 (a + b)))).
    + rewrite Hpos. unfold Bodies.fib_for.
      rewrite (proj2 (Z.ltb_lt _ _)) by lia. cbn [snd]. now rewrite Hs.
    + apply (IH (S i) _ b (Bodies.u32 (a + b))).
      * cbn [Bodies.fibonacci]. rewrite u32_small by lia. f_equal. lia.
      * left. lia.
      * exact Hb.
      * exact Hs.
Qed.

Lemma fibonacci_yields (n : nat) :
  (Z.of_nat n < 2 ^ 32)%Z ->
  yields Bodies.fibonacci (Z.of_nat n, Bodies.fib_start)
    (map (fun k => Bodies.u32 (Bodies.fib k)) (seq 0 n)).
Proof.
  intros Hn. destruct n as [|[|n]].
  - apply yields_end. reflexivity.
  - apply (yields_more _ _ _ (1%Z, Bodies.fib_after_a)); [reflexivity | ].
    apply yields_end. reflexivity.
  - cbn [seq map].
    apply (yields_more _ _ _ (Z.of_nat (S (S n)), Bodies.fib_after_a)).
    { cbn [Bodies.fibonacci]. now rewrite (proj2 (Z.ltb_lt _ _)) by lia. }
    apply (yields_more _ _ _ (Z.of_nat (S (S n)), Bodies.fib_after_b)).
    { cbn [Bodies.fibonacci]. unfold Bodies.fib_second.
      now rewrite (proj2 (Z.ltb_lt _ _)) by lia. }
    apply (fib_loop (S (S n)) Hn n 0 Bodies.fib_after_b 0%Z 1%Z);
      [reflexivity | left; lia | reflexivity | reflexivity].
Qed.

(** X23. [fibonacci(n)] of the tests and examples, over [unsigned int]:
    for every [n] below 2^32 the generator yields exactly the first [n]
    Fibonacci numbers, each reduced modulo 2^32, in order; a range-based
    [for] over the generator collects them, and so does the synchronous
    adapter over [async_fibonacci(n)], whose [co_await get_async_value(v)]
    gives [v] within the step (tests
    GeneratorTest.Fibonacci and SyncGeneratorAdapterTest.Fibonacci, for
    every count). *)
Theorem fibonacci_correct :
  forall n : nat,
    (Z.of_nat n < 2 ^ 32)%Z ->
    let l := map (fun k => Bodies.u32 (Bodies.fib k)) (seq 0 n) in
    let b := (Z.of_nat n, Bodies.fib_start) in
    fst ((g <- Generator.create Bodies.fibonacci b ;;
          Generator.collect Bodies.fibonacci (S n) g) coro.empty) = Ok (Some l)
    /\ fst ((g <- AsyncGenerator.create Bodies.async_fibonacci b ;;
             SyncGeneratorAdapter.collect Bodies.async_fibonacci (S n)
               (SyncGeneratorAdapter.Adapter g)) coro.empty) = Ok (Some l).
Proof.
  intros n Hn l b.
  pose proof (fibonacci_yields n Hn) as Hy.
  assert (Hlen : length l = n) by (unfold l; now rewrite length_map, length_seq).
  split.
  - apply (collect_yields Bodies.fibonacci 0 b l (S n)); [exact Hy | lia | reflexivity].
  - apply (adapter_collect_yields Bodies.async_fibonacci 0 b l (S n));
      [now apply async_yields_steady | lia | reflexivity].
Qed.

(** Test GeneratorTest.Fibonacci: the first ten Fibonacci numbers. *)
Lemma fibonacci_correct_witness :
  fst ((g <- Generator.create Bodies.fibonacci (10%Z, Bodies.fib_start) ;;
        Generator.collect Bodies.fibonacci 11 g) coro.empty)
  = Ok (Some [0; 1; 1; 2; 3; 5; 8; 13; 21; 34]%Z).
Proof.
  refine (proj1 (fibonacci_correct 10 _)). reflexivity.
Defined.

(** ** Iterators and the lifetime of their generator *)

(** X24. An iterator holds the handle of the coroutine, not the generator
    object. Moving the generator to another object changes no coroutine,
    so an iterator taken before the move reads the same element after it.
    Destroying the generator destroys the frame, and an iterator that
    outlives it dangles: [*it] and [++it] on it use a destroyed frame,
    which is undefined behaviour; neither throws [bad_result_access]. *)
Theorem iterator_outlives_generator :
  forall (T B E : Type) (run : B -> list E * suspension B T)
         (w : coro.world (Generator.promise_type T) B E) objs this other a f,
    objs !! this = Some (Generator.Gen (Some a)) ->
    coro.heap w !! a = Some f ->
    let it := Generator.Iter (Some a) in
    (exists objs',
        Generator.move_construct other this objs w = (Ok objs', w)
        /\ objs' !! other = Some (Generator.Gen (Some a)))
    /\ (exists objs',
          Generator.destructor this objs w
          = (Ok objs', coro.World (delete a (coro.heap w)) (coro.next w) (coro.log w))
          /\ objs' !! this = None)
    /\ (let w' := coro.World (delete a (coro.heap w)) (coro.next w) (coro.log w) in
        Generator.iterator_deref it w' = (Undefined, w')
        /\ Generator.iterator_incr run it w' = (Undefined, w')).
Proof.
  intros T B E run w objs this other a f Hthis Hf it. split; [ | split ].
  - unfold Generator.move_construct. rewrite Hthis. eexists. split; [reflexivity | ].
    cbn [Generator.m_coroutine]. apply lookup_insert_eq.
  - eexists. split; [now apply (generator_destructor_owner _ _ _ _ f) | ].
    apply lookup_delete_eq.
  - assert (Hgood : detail.is_good_handle
                      (coro.World (delete a (coro.heap w)) (coro.next w) (coro.log w))
                      (Some a) = true).
    { unfold detail.is_good_handle, detail.handle_done, coro.done.
      cbn [detail.non_null coro.heap]. now rewrite lookup_delete_eq. }
    split.
    + unfold Generator.iterator_deref. cbn [it Generator.it_coroutine].
      rewrite Hgood. unfold bind, coro.get_promise. cbn [coro.heap].
      now rewrite lookup_delete_eq.
    + unfold Generator.iterator_incr. cbn [it Generator.it_coroutine].
      rewrite Hgood. unfold bind, Generator.resume. cbn [coro.heap].
      now rewrite lookup_delete_eq.
Qed.

(** A generator of one value, at address 10, after [begin()]. *)
Lemma iterator_outlives_generator_witness :
  let run := @Bodies.run_script Z unit in
  let w := snd ((g <- Generator.create run [Bodies.yield 1983%Z] ;;
                 Generator.begin run g) coro.empty) in
  let objs : gmap nat Generator.generator := <[10 := Generator.Gen (Some 0)]> ∅ in
  let it := Generator.Iter (Some 0) in
  Generator.iterator_deref it w = (Ok 1983%Z, w)
  /\ fst (Generator.iterator_deref it (snd (Generator.destructor 10 objs w))) = Undefined.
Proof.
  intros run w objs it. split; [reflexivity | ].
  destruct (iterator_outlives_generator Z _ unit run w objs 10 11 0
              (coro.Frame (Generator.Promise (Some 1983%Z) None) [] false)
              eq_refl eq_refl) as (_ & (objs' & Hd & _) & Hderef & _).
  rewrite Hd. cbn [snd]. unfold it. now rewrite Hderef.
Defined.
